(** * Notification settings: push-rule synchronisation

    A shallow embedding of [src/components/views/settings/Notifications.tsx]
    (the [Notifications] React component) together with the properties of
    its rule synchroniser: the loudest-state computation over synced rules,
    the remote mutation sequences of [onRadioChecked] and [setKeywords],
    the rule refresh and the rendering gates.

    Conventions.  JS [undefined]/[null] is [None]; an exception (a rejected
    promise) is the [Throw] outcome of the [Async] monad below; arrays are
    lists; [Array.prototype.indexOf] returns [-1] on a miss, hence [Z]. *)

From Stdlib Require Import List String Ascii ZArith Bool Lia Arith.
From Stdlib Require Import Permutation Sorted.
Import ListNotations.
Open Scope string_scope.
Open Scope list_scope.

Set Warnings "-register-all".

(* ================================================================= *)
(** ** Data model *)

(** [enum Phase]. *)
Inductive Phase := Loading | Ready | Persisting | Error.

(** [enum RuleClass]; the declaration order is also the key order of the
    [defaultRules] object literal in [refreshRules]. *)
Inductive RuleClass := Master | VectorGlobal | VectorMentions | VectorOther | Other.

(** [VectorState] of [src/notifications]. *)
Inductive VectorState := Off | On | Loud.

(** [PushRuleKind] of matrix-js-sdk. *)
Inductive PushRuleKind :=
  Override | ContentSpecific | RoomSpecific | SenderSpecific | Underride.

(** [PushRuleAction] of matrix-js-sdk: a plain action string or a tweak. *)
Inductive PushRuleAction :=
| Notify
| DontNotify
| Coalesce
| SetTweak (set_tweak : string) (value : option string).

Definition RuleClass_eqb (a b : RuleClass) : bool :=
  match a, b with
  | Master, Master | VectorGlobal, VectorGlobal
  | VectorMentions, VectorMentions | VectorOther, VectorOther
  | Other, Other => true
  | _, _ => false
  end.

Definition VectorState_eqb (a b : VectorState) : bool :=
  match a, b with
  | Off, Off | On, On | Loud, Loud => true
  | _, _ => false
  end.

Definition Phase_eqb (a b : Phase) : bool :=
  match a, b with
  | Loading, Loading | Ready, Ready | Persisting, Persisting | Error, Error => true
  | _, _ => false
  end.

Definition PushRuleKind_eqb (a b : PushRuleKind) : bool :=
  match a, b with
  | Override, Override | ContentSpecific, ContentSpecific
  | RoomSpecific, RoomSpecific | SenderSpecific, SenderSpecific
  | Underride, Underride => true
  | _, _ => false
  end.

(** [IPushRule]: a rule as the server returns it. *)
Record IPushRule := mkPushRule {
  pr_rule_id : string;
  pr_enabled : bool;
  pr_actions : list PushRuleAction;
  pr_pattern : option string;
}.

(** [IAnnotatedPushRule]: [Object.assign(r, { kind })]. *)
Record IAnnotatedPushRule := mkRule {
  rule_id : string;
  kind : PushRuleKind;
  enabled : bool;
  actions : list PushRuleAction;
  pattern : option string;
}.

Definition annotate (r : IPushRule) (k : PushRuleKind) : IAnnotatedPushRule :=
  {| rule_id := pr_rule_id r; kind := k; enabled := pr_enabled r;
     actions := pr_actions r; pattern := pr_pattern r |}.

(** [VectorPushRuleDefinition] of [src/notifications], as this component
    uses it: the description, the two translations and the optional list
    of synced rule ids. *)
Record VectorPushRuleDefinition := mkDefinition {
  description : string;
  ruleToVectorState : IAnnotatedPushRule -> VectorState;
  vectorStateToActions : VectorState -> option (list PushRuleAction);
  syncedRuleIds : option (list string);
}.

(** [{ [k in RuleClass]: IAnnotatedPushRule[] }]. *)
Record DefaultRules := mkDefaultRules {
  master : list IAnnotatedPushRule;
  vector_global : list IAnnotatedPushRule;
  vector_mentions : list IAnnotatedPushRule;
  vector_other : list IAnnotatedPushRule;
  other : list IAnnotatedPushRule;
}.

Definition rulesOf (d : DefaultRules) (c : RuleClass) : list IAnnotatedPushRule :=
  match c with
  | Master => master d
  | VectorGlobal => vector_global d
  | VectorMentions => vector_mentions d
  | VectorOther => vector_other d
  | Other => other d
  end.

(** [defaultRules[category].push(rule)]. *)
Definition pushRule (d : DefaultRules) (c : RuleClass) (r : IAnnotatedPushRule)
  : DefaultRules :=
  match c with
  | Master => mkDefaultRules (master d ++ [r]) (vector_global d) (vector_mentions d) (vector_other d) (other d)
  | VectorGlobal => mkDefaultRules (master d) (vector_global d ++ [r]) (vector_mentions d) (vector_other d) (other d)
  | VectorMentions => mkDefaultRules (master d) (vector_global d) (vector_mentions d ++ [r]) (vector_other d) (other d)
  | VectorOther => mkDefaultRules (master d) (vector_global d) (vector_mentions d) (vector_other d ++ [r]) (other d)
  | Other => mkDefaultRules (master d) (vector_global d) (vector_mentions d) (vector_other d) (other d ++ [r])
  end.

(** Key order of [for (const category in defaultRules)]. *)
Definition categoriesInOrder : list RuleClass :=
  [Master; VectorGlobal; VectorMentions; VectorOther; Other].

(* ================================================================= *)
(** ** The loudest state of a rule and its synced rules *)

(** [Array.prototype.indexOf]. *)
Fixpoint indexOfFrom {A} (eqb : A -> A -> bool) (l : list A) (x : A) (i : Z) : Z :=
  match l with
  | [] => (-1)%Z
  | y :: l' => if eqb y x then i else indexOfFrom eqb l' x (i + 1)%Z
  end.

Definition indexOf {A} (eqb : A -> A -> bool) (l : list A) (x : A) : Z :=
  indexOfFrom eqb l x 0%Z.

(** [Array.prototype.find]. *)
Definition findRule (ruleId : string) (l : list IAnnotatedPushRule)
  : option IAnnotatedPushRule :=
  find (fun rule => String.eqb (rule_id rule) ruleId) l.

Fixpoint findInCategories (ruleId : string) (defaultRules : DefaultRules)
    (cs : list RuleClass) : option IAnnotatedPushRule :=
  match cs with
  | [] => None
  | category :: cs' =>
      match findRule ruleId (rulesOf defaultRules category) with
      | Some rule => Some rule
      | None => findInCategories ruleId defaultRules cs'
      end
  end.

Definition findInDefaultRules (ruleId : string) (defaultRules : DefaultRules)
  : option IAnnotatedPushRule :=
  findInCategories ruleId defaultRules categoriesInOrder.

(** Vector notification states ordered by loudness in ascending order. *)
Definition OrderedVectorStates : list VectorState := [Off; On; Loud].

Definition loudness (s : VectorState) : Z :=
  indexOf VectorState_eqb OrderedVectorStates s.

(** The callback of the [reduce] in [maximumVectorState]; [definition] is
    the definition of the parent rule. *)
Definition louderOf (defaultRules : DefaultRules) (definition : VectorPushRuleDefinition)
    (maxVectorState : VectorState) (ruleId : string) : VectorState :=
  if VectorState_eqb maxVectorState Loud then maxVectorState
  else
    match findInDefaultRules ruleId defaultRules with
    | Some syncedRule =>
        let syncedRuleVectorState := ruleToVectorState definition syncedRule in
        if (loudness syncedRuleVectorState >? loudness maxVectorState)%Z
        then syncedRuleVectorState
        else maxVectorState
    | None => maxVectorState
    end.

Definition maximumVectorState (defaultRules : DefaultRules)
    (rule : IAnnotatedPushRule) (definition : VectorPushRuleDefinition)
  : option VectorState :=
  match syncedRuleIds definition with
  | None => None
  | Some [] => None
  | Some ids =>
      Some (fold_left (louderOf defaultRules definition) ids
              (ruleToVectorState definition rule))
  end.

(** The total order Off < On < Loud and its maximum. *)
Definition VectorState_le (a b : VectorState) : Prop := (loudness a <= loudness b)%Z.

Definition louder (a b : VectorState) : VectorState :=
  if (loudness b >? loudness a)%Z then b else a.

(** The total order Off < On < Loud as the specification names it, written
    out case by case: it goes through neither [OrderedVectorStates] nor
    [loudness]. *)
Definition specOrder_leb (a b : VectorState) : bool :=
  match a, b with
  | Off, _ => true
  | On, On | On, Loud => true
  | Loud, Loud => true
  | _, _ => false
  end.

Definition loudest (s : VectorState) (l : list VectorState) : VectorState :=
  fold_left louder l s.

(** The synced rules that exist in the rule table, in list order. *)
Fixpoint resolvable (defaultRules : DefaultRules) (ids : list string)
  : list IAnnotatedPushRule :=
  match ids with
  | [] => []
  | ruleId :: ids' =>
      match findInDefaultRules ruleId defaultRules with
      | Some r => r :: resolvable defaultRules ids'
      | None => resolvable defaultRules ids'
      end
  end.

(** The reading of the specification: every sibling is translated by the
    definition registered under the sibling's own id in [definitions]
    (a sibling without a registered definition contributes nothing). *)
Definition louderOf_ownDefinition
    (definitions : string -> option VectorPushRuleDefinition)
    (defaultRules : DefaultRules)
    (maxVectorState : VectorState) (ruleId : string) : VectorState :=
  match findInDefaultRules ruleId defaultRules, definitions ruleId with
  | Some syncedRule, Some own => louder maxVectorState (ruleToVectorState own syncedRule)
  | _, _ => maxVectorState
  end.

Definition maximumVectorState_ownDefinition
    (definitions : string -> option VectorPushRuleDefinition)
    (defaultRules : DefaultRules)
    (rule : IAnnotatedPushRule) (definition : VectorPushRuleDefinition)
  : option VectorState :=
  match syncedRuleIds definition with
  | None => None
  | Some [] => None
  | Some ids =>
      Some (fold_left (louderOf_ownDefinition definitions defaultRules) ids
              (ruleToVectorState definition rule))
  end.

(* ================================================================= *)
(** ** Rule identifiers and display order *)

(** [RuleId] of matrix-js-sdk, the members this component names. *)
Module RuleId.
Definition Master := ".m.rule.master".
Definition DM := ".m.rule.room_one_to_one".
Definition EncryptedDM := ".m.rule.encrypted_room_one_to_one".
Definition Message := ".m.rule.message".
Definition EncryptedMessage := ".m.rule.encrypted".
Definition ContainsDisplayName := ".m.rule.contains_display_name".
Definition ContainsUserName := ".m.rule.contains_user_name".
Definition AtRoomNotification := ".m.rule.roomnotif".
Definition InviteToSelf := ".m.rule.invite_for_me".
Definition IncomingCall := ".m.rule.call".
Definition SuppressNotices := ".m.rule.suppress_notices".
Definition Tombstone := ".m.rule.tombstone".
End RuleId.

(** Used as a placeholder "Rule ID" throughout this component. *)
Definition KEYWORD_RULE_ID := "_keywords".
Definition KEYWORD_RULE_CATEGORY := VectorMentions.

Definition RULE_DISPLAY_ORDER : list string :=
  [ RuleId.DM; RuleId.EncryptedDM; RuleId.Message; RuleId.EncryptedMessage;
    RuleId.ContainsDisplayName; RuleId.ContainsUserName; RuleId.AtRoomNotification;
    RuleId.InviteToSelf; RuleId.IncomingCall; RuleId.SuppressNotices; RuleId.Tombstone ].

(** The [categories] table of [refreshRules].  (Keys inherited from
    [Object.prototype] never start with a dot, and the result is only used
    for ids that do.) *)
Definition categories (ruleId : string) : option RuleClass :=
  if ruleId =? RuleId.Master then Some Master
  else if ruleId =? RuleId.DM then Some VectorGlobal
  else if ruleId =? RuleId.EncryptedDM then Some VectorGlobal
  else if ruleId =? RuleId.Message then Some VectorGlobal
  else if ruleId =? RuleId.EncryptedMessage then Some VectorGlobal
  else if ruleId =? RuleId.ContainsDisplayName then Some VectorMentions
  else if ruleId =? RuleId.ContainsUserName then Some VectorMentions
  else if ruleId =? RuleId.AtRoomNotification then Some VectorMentions
  else if ruleId =? RuleId.InviteToSelf then Some VectorOther
  else if ruleId =? RuleId.IncomingCall then Some VectorOther
  else if ruleId =? RuleId.SuppressNotices then Some VectorOther
  else if ruleId =? RuleId.Tombstone then Some VectorOther
  else None.

(** [rule.rule_id[0] === "."]. *)
Definition startsWithDot (s : string) : bool :=
  match s with
  | String c _ => Ascii.eqb c "."%char
  | EmptyString => false
  end.

(* ================================================================= *)
(** ** Component state *)

Record IVectorPushRule := mkVectorPushRule {
  ruleId : string;
  rule : option IAnnotatedPushRule;
  vp_description : string;
  vectorState : VectorState;
  (* loudest vectorState of a rule and its synced rules;
     undefined when rule has no synced rules *)
  syncedVectorState : option VectorState;
}.

(** [IContentRules] of [src/notifications]. *)
Record IContentRules := mkContentRules {
  kw_vectorState : VectorState;
  kw_rules : list IAnnotatedPushRule;
  kw_externalRules : list IAnnotatedPushRule;
}.

Record IPusher := mkPusher {
  pusher_kind : option string;
  pushkey : string;
  app_display_name : string;
  device_display_name : string;
}.

Inductive ThreepidMedium := Email | Phone.

Record IThreepid := mkThreepid {
  medium : ThreepidMedium;
  address : string;
}.

Record IState := mkState {
  phase : Phase;
  (* Optional stuff is required when phase === Ready *)
  masterPushRule : option IAnnotatedPushRule;
  vectorKeywordRuleInfo : option IContentRules;
  vectorPushRules : option (RuleClass -> option (list IVectorPushRule));
  pushers : option (list IPusher);
  threepids : option (list IThreepid);
  deviceNotificationsEnabled : bool;
  desktopNotifications : bool;
  desktopShowBody : bool;
  audioNotifications : bool;
  clearingNotifications : bool;
}.

Definition withPhase (p : Phase) (s : IState) : IState :=
  mkState p (masterPushRule s) (vectorKeywordRuleInfo s) (vectorPushRules s)
    (pushers s) (threepids s) (deviceNotificationsEnabled s)
    (desktopNotifications s) (desktopShowBody s) (audioNotifications s)
    (clearingNotifications s).

(* ================================================================= *)
(** ** The remote rule service *)

(** The requests this component sends through the client. *)
Inductive Call :=
| GetPushRules
| GetPushers
| GetThreePids
| SetPushRuleEnabled (scope : string) (k : PushRuleKind) (id : string) (on : bool)
| SetPushRuleActions (scope : string) (k : PushRuleKind) (id : string)
    (acts : list PushRuleAction)
| AddPushRule (scope : string) (k : PushRuleKind) (id : string)
    (acts : list PushRuleAction) (pat : string)
| DeletePushRule (scope : string) (k : PushRuleKind) (id : string).

(** [ruleSets.global]: the rules of each kind, in the key order of the
    response. *)
Definition RuleSets := list (PushRuleKind * list IPushRule).

(** The server: its rule table, pushers and third-party ids, the requests
    it has received (oldest first) and which requests it will reject, by
    their position in that sequence. *)
Record Server := mkServer {
  pushRules : RuleSets;
  srv_pushers : list IPusher;
  srv_threepids : list IThreepid;
  rejects : nat -> bool;
  received : list Call;
}.

Definition updateRule (f : IPushRule -> IPushRule) (id : string) (l : list IPushRule)
  : list IPushRule :=
  map (fun r => if pr_rule_id r =? id then f r else r) l.

Definition hasRule (id : string) (l : list IPushRule) : bool :=
  existsb (fun r => pr_rule_id r =? id) l.

Fixpoint rulesOfKind (k : PushRuleKind) (t : RuleSets) : list IPushRule :=
  match t with
  | [] => []
  | (k', l) :: t' => if PushRuleKind_eqb k' k then l else rulesOfKind k t'
  end.

Fixpoint setRulesOfKind (k : PushRuleKind) (l : list IPushRule) (t : RuleSets)
  : RuleSets :=
  match t with
  | [] => [(k, l)]
  | (k', l') :: t' =>
      if PushRuleKind_eqb k' k then (k', l) :: t'
      else (k', l') :: setRulesOfKind k l t'
  end.

(** The effect of an accepted request on the rule table: the rule-level
    contract of the service.  A request that names a rule the table does
    not hold is refused; a new rule starts enabled. *)
Definition applyCall (c : Call) (t : RuleSets) : option RuleSets :=
  match c with
  | GetPushRules | GetPushers | GetThreePids => Some t
  | SetPushRuleEnabled _ k id on =>
      let l := rulesOfKind k t in
      if hasRule id l
      then Some (setRulesOfKind k
                   (updateRule (fun r => mkPushRule (pr_rule_id r) on (pr_actions r) (pr_pattern r)) id l) t)
      else None
  | SetPushRuleActions _ k id acts =>
      let l := rulesOfKind k t in
      if hasRule id l
      then Some (setRulesOfKind k
                   (updateRule (fun r => mkPushRule (pr_rule_id r) (pr_enabled r) acts (pr_pattern r)) id l) t)
      else None
  | AddPushRule _ k id acts pat =>
      let l := rulesOfKind k t in
      let r := mkPushRule id true acts (Some pat) in
      Some (setRulesOfKind k
              (r :: filter (fun r' => negb (pr_rule_id r' =? id)) l) t)
  | DeletePushRule _ k id =>
      let l := rulesOfKind k t in
      if hasRule id l
      then Some (setRulesOfKind k (filter (fun r' => negb (pr_rule_id r' =? id)) l) t)
      else None
  end.

(** The server after it has received [c] and rejected it. *)
Definition bounce (c : Call) (s : Server) : Server :=
  mkServer (pushRules s) (srv_pushers s) (srv_threepids s) (rejects s)
    (received s ++ [c]).

(** The server after it has received and accepted [c], if it does. *)
Definition handle (c : Call) (s : Server) : option Server :=
  if rejects s (List.length (received s)) then None
  else
    match applyCall c (pushRules s) with
    | Some t => Some (mkServer t (srv_pushers s) (srv_threepids s) (rejects s)
                        (received s ++ [c]))
    | None => None
    end.

(** The position of the first request of [cs] that the server rejects when
    the requests are sent one after another. *)
Fixpoint firstRejected (cs : list Call) (s : Server) : option nat :=
  match cs with
  | [] => None
  | c :: cs' =>
      match handle c s with
      | None => Some 0
      | Some s' => option_map S (firstRejected cs' s')
      end
  end.

(** The rule table after all of [cs] have been applied in order. *)
Fixpoint applyAll (cs : list Call) (t : RuleSets) : option RuleSets :=
  match cs with
  | [] => Some t
  | c :: cs' =>
      match applyCall c t with
      | Some t' => applyAll cs' t'
      | None => None
      end
  end.

(** The stored rule [(k, id)]. *)
Definition storedRule (k : PushRuleKind) (id : string) (t : RuleSets) : option IPushRule :=
  find (fun r => pr_rule_id r =? id) (rulesOfKind k t).

(* ================================================================= *)
(** ** The client and the world the component runs in *)

(** What the component reads from the matrix-js-sdk client besides the
    requests above: [PushProcessor.getPushRuleAndKindById] and the unread
    notification count of each room of [getRooms()]. *)
Record Client := mkClient {
  getPushRuleAndKindById : string -> option (PushRuleKind * IPushRule);
  unreadNotificationCounts : list Z;
}.

Record World := mkWorld {
  state : IState;
  server : Server;
  client : Client;
  dialogs : list string;     (* titles passed to Modal.createDialog *)
  errorLog : list string;    (* messages passed to logger.error *)
}.

Inductive Exception :=
| RequestRejected (c : Call)
| TypeError
| Failure (message : string).

Inductive Outcome (A : Type) :=
| Return (a : A)
| Throw (e : Exception).
Arguments Return {A} a.
Arguments Throw {A} e.

(** An asynchronous method of the component: it runs to completion on a
    world, returning or throwing. *)
Definition Async (A : Type) : Type := World -> Outcome A * World.

Definition ret {A} (a : A) : Async A := fun w => (Return a, w).

Definition bind {A B} (m : Async A) (f : A -> Async B) : Async B :=
  fun w =>
    match m w with
    | (Return a, w') => f a w'
    | (Throw e, w') => (Throw e, w')
    end.

Definition throw {A} (e : Exception) : Async A := fun w => (Throw e, w).

(** [try { m } catch (e) { h }]. *)
Definition tryCatch {A} (m : Async A) (h : Exception -> Async A) : Async A :=
  fun w =>
    match m w with
    | (Return a, w') => (Return a, w')
    | (Throw e, w') => h e w'
    end.

Notation "x <- m ;; k" := (bind m (fun x => k))
  (at level 61, m at next level, right associativity).
Notation "m ;;; k" := (bind m (fun _ => k))
  (at level 61, right associativity).

Definition getState : Async IState := fun w => (Return (state w), w).

Definition getClient : Async Client := fun w => (Return (client w), w).

Definition setState (f : IState -> IState) : Async unit :=
  fun w => (Return tt,
            mkWorld (f (state w)) (server w) (client w) (dialogs w) (errorLog w)).

Definition loggerError (message : string) : Async unit :=
  fun w => (Return tt,
            mkWorld (state w) (server w) (client w) (dialogs w) (errorLog w ++ [message])).

Definition createErrorDialog (title : string) : Async unit :=
  fun w => (Return tt,
            mkWorld (state w) (server w) (client w) (dialogs w ++ [title]) (errorLog w)).

Definition withServer (s : Server) (w : World) : World :=
  mkWorld (state w) s (client w) (dialogs w) (errorLog w).

(** [await cli.<request>(...)]: the request reaches the server; the promise
    resolves with [payload] if the server accepts it and rejects otherwise. *)
Definition request {A} (c : Call) (payload : Server -> A) : Async A :=
  fun w =>
    match handle c (server w) with
    | Some s' => (Return (payload s'), withServer s' w)
    | None => (Throw (RequestRejected c), withServer (bounce c (server w)) w)
    end.

Definition await (c : Call) : Async unit := request c (fun _ => tt).

(** A promise that has been started and has settled. *)
Definition settle {A} (m : Async A) : Async (Outcome A) :=
  fun w => let (o, w') := m w in (Return o, w').

Definition lift {A} (o : Outcome A) : Async A := fun w => (o, w).

(** [for (const x of xs) { await body(x) }]. *)
Fixpoint forOf {A} (xs : list A) (body : A -> Async unit) : Async unit :=
  match xs with
  | [] => ret tt
  | x :: xs' => body x ;;; forOf xs' body
  end.

(** Sending the requests [cs] one after another, each awaited before the
    next is sent. *)
Definition issue (cs : list Call) : Async unit := forOf cs await.

(* ================================================================= *)
(** ** Keyword diffing *)

(** [ArrayDiff<T>] of [src/utils/arrays]. *)
Record ArrayDiff := mkDiff {
  added : list string;
  removed : list string;
}.

Definition includes (a : list string) (i : string) : bool :=
  existsb (String.eqb i) a.

(** Modelled from the spec: [arrayDiff] of [src/utils/arrays] is imported
    by the component and is not among the sources.  The specification
    calls it a pure set diff (added, removed): the words of [b] that [a]
    lacks, and the words of [a] that [b] lacks. *)
Definition arrayDiff (a b : list string) : ArrayDiff :=
  {| added := filter (fun i => negb (includes a i)) b;
     removed := filter (fun i => negb (includes b i)) a |}.

(** [Array.from(new Set(l))]: first occurrences, in order. *)
Fixpoint fromSet {A} (eqb : A -> A -> bool) (l : list A) : list A :=
  match l with
  | [] => []
  | x :: l' => x :: filter (fun y => negb (eqb y x)) (fromSet eqb l')
  end.

Definition optString_eqb (a b : option string) : bool :=
  match a, b with
  | Some x, Some y => x =? y
  | None, None => true
  | _, _ => false
  end.

(** [.filter((k) => !!k)] on words that may be undefined. *)
Fixpoint truthyWords (l : list (option string)) : list string :=
  match l with
  | [] => []
  | Some (String c s) :: l' => String c s :: truthyWords l'
  | _ :: l' => truthyWords l'
  end.

(** The first three statements of [setKeywords]: de-duplicate and remove
    empties on both sides, then diff. *)
Definition diffKeywords (oldWords : list (option string)) (newWords : list string)
  : ArrayDiff :=
  let keywords := truthyWords (map Some (fromSet String.eqb newWords)) in
  let oldKeywords := truthyWords (fromSet optString_eqb oldWords) in
  arrayDiff oldKeywords keywords.

(* ================================================================= *)
(** ** Rule refresh (pure part) *)

Definition emptyDefaultRules : DefaultRules := mkDefaultRules [] [] [] [] [].

(** The body of the inner loop of [refreshRules]. *)
Definition collectRule (k : PushRuleKind) (defaultRules : DefaultRules) (r : IPushRule)
  : DefaultRules :=
  let rule := annotate r k in
  let category := match categories (rule_id rule) with
                  | Some c => c
                  | None => Other
                  end in
  if startsWithDot (rule_id rule) then pushRule defaultRules category rule
  else defaultRules.

Definition collectDefaultRules (global : RuleSets) : DefaultRules :=
  fold_left (fun d kr => fold_left (collectRule (fst kr)) (snd kr) d)
    global emptyDefaultRules.

Definition displayIndex (id : string) : Z :=
  let idx := indexOf String.eqb RULE_DISPLAY_ORDER id in
  (* Assume unknown things go at the end *)
  if (idx <? 0)%Z then Z.of_nat (List.length RULE_DISPLAY_ORDER) else idx.

(** [Array.prototype.sort] (stable) with the comparator [idxA - idxB]. *)
Fixpoint insertForDisplay (a : IVectorPushRule) (l : list IVectorPushRule)
  : list IVectorPushRule :=
  match l with
  | [] => [a]
  | b :: l' =>
      if (displayIndex (ruleId a) - displayIndex (ruleId b) <=? 0)%Z
      then a :: b :: l'
      else b :: insertForDisplay a l'
  end.

Definition sortForDisplay (l : list IVectorPushRule) : list IVectorPushRule :=
  fold_right insertForDisplay [] l.

(** What [refreshRules] resolves with. *)
Record PreparedState := mkPrepared {
  new_masterPushRule : IAnnotatedPushRule;
  new_vectorKeywordRuleInfo : IContentRules;
  new_vectorPushRules : RuleClass -> option (list IVectorPushRule);
}.

(** The fetched rules, each annotated with its kind, in the order of the
    response. *)
Definition annotatedRules (global : RuleSets) : list IAnnotatedPushRule :=
  flat_map (fun kr => map (fun r => annotate r (fst kr)) (snd kr)) global.

(** [categories[rule.rule_id] ?? RuleClass.Other]. *)
Definition categoryOf (id : string) : RuleClass :=
  match categories id with
  | Some c => c
  | None => Other
  end.

(** Whether [refreshRules] files the rule under the category [c]. *)
Definition filedUnder (c : RuleClass) (r : IAnnotatedPushRule) : bool :=
  startsWithDot (rule_id r) && RuleClass_eqb (categoryOf (rule_id r)) c.

(** The rows of a category are in display order. *)
Definition displayOrdered (a b : IVectorPushRule) : Prop :=
  (displayIndex (ruleId a) <= displayIndex (ruleId b))%Z.

(** The fetched rule [r] after the server has set the enabled flag of the
    rule [(k, id)] to [on]. *)
Definition enabledAs (on : bool) (k : PushRuleKind) (id : string)
    (r : IAnnotatedPushRule) : IAnnotatedPushRule :=
  if PushRuleKind_eqb (kind r) k && (rule_id r =? id)
  then mkRule (rule_id r) (kind r) on (actions r) (pattern r)
  else r.

(* ================================================================= *)
(** ** Rendered output *)

(** The elements [render] produces, with the attributes that depend on
    the state. *)
Inductive Element :=
| Spinner
| ErrorMessage
| LabelledToggleSwitch (testid : string) (value : bool) (disabled : bool)
| AccessibleButton (testid : string) (label : string) (disabled : bool)
| TagComposer (tags : list (option string)) (disabled : bool)
| StyledRadioButton (name : string) (s : VectorState) (checked : bool) (disabled : bool)
| Fieldset (testid : string) (legend : string) (radios : list Element)
| Grid (testid : string) (sectionName : string) (rows : list Element)
| FloatingSection (title : string) (children : list Element)
| TargetRow (app : string) (device : string)
| Fragment (children : list (option Element))
| UserNotifSettings (children : list (option Element)).

Definition RuleClass_value (c : RuleClass) : string :=
  match c with
  | Master => "master"
  | VectorGlobal => "vector_global"
  | VectorMentions => "vector_mentions"
  | VectorOther => "vector_other"
  | Other => "other"
  end.

Definition VectorState_value (s : VectorState) : string :=
  match s with
  | On => "on"
  | Off => "off"
  | Loud => "loud"
  end.

(** The [disabled] attribute of every switch, radio button and tag
    composer of an element, in document order.  (The "Mark all as read"
    button follows [clearingNotifications] instead and is left out.) *)
Fixpoint disabledControls (e : Element) : list bool :=
  match e with
  | Spinner | ErrorMessage => []
  | LabelledToggleSwitch _ _ d => [d]
  | AccessibleButton _ _ _ => []
  | TagComposer _ d => [d]
  | StyledRadioButton _ _ _ d => [d]
  | Fieldset _ _ radios => flat_map disabledControls radios
  | Grid _ _ rows => flat_map disabledControls rows
  | FloatingSection _ children => flat_map disabledControls children
  | TargetRow _ _ => []
  | Fragment children =>
      flat_map (fun o => match o with
                         | Some c => disabledControls c
                         | None => []
                         end) children
  | UserNotifSettings children =>
      flat_map (fun o => match o with
                         | Some c => disabledControls c
                         | None => []
                         end) children
  end.

(** A state [render] can be called on: outside the Loading and Error
    phases the pushers and the rows are there. *)
Definition renderable (s : IState) : Prop :=
  phase s = Loading \/ phase s = Error
  \/ (pushers s <> None /\ vectorPushRules s <> None).

(* ================================================================= *)
(** ** Finding the DM room of a user ([src/utils/dm/findDMForUser.ts]) *)

Module DM.

(** A member of a room, as [extractSuitableRoom] reads it. *)
Record RoomMember := mkMember {
  userId : string;
  membership : option string;
}.

(** A room, as [extractSuitableRoom] reads it: [getMyMembership()],
    [currentState.getMembers()], the state events of type
    [m.room.third_party_invite] (by id; possibly absent) and
    [getLastActiveTimestamp()]. *)
Record Room := mkRoom {
  roomId : string;
  myMembership : string;
  members : list RoomMember;
  thirdPartyInvites : option (list string);
  lastActiveTimestamp : Z;
}.

(** What [findDMForUser] gets from elsewhere: [isLocalRoom],
    [getFunctionalMembers] and [isJoinedOrNearlyJoined] are imported from
    [src/utils] and are not among the sources; neither is [DMRoomMap], of
    which [getDMRoomsForUserId] and [getRoomIds] are used; [getRoom] is
    the client's. *)
Record Env := mkEnv {
  isLocalRoom : Room -> bool;
  getFunctionalMembers : Room -> list string;
  isJoinedOrNearlyJoined : string -> bool;
  getDMRoomsForUserId : string -> list string;
  getRoomIds : list string;
  getRoom : string -> option Room;
}.

Section FindDM.

Variable env : Env.

(** [m.membership && isJoinedOrNearlyJoined(m.membership)]. *)
Definition joinedOrNearly (m : RoomMember) : bool :=
  match membership m with
  | Some (String c s) => isJoinedOrNearlyJoined env (String c s)
  | _ => false
  end.

Definition joinedMembers (r : Room) : list RoomMember :=
  filter (fun m => negb (existsb (String.eqb (userId m)) (getFunctionalMembers env r))
                   && joinedOrNearly m)
    (members r).

(** The predicate of the [filter] in [extractSuitableRoom]. *)
Definition suitable (user : string) (r : Room) : bool :=
  if myMembership r =? "join" then
    if isLocalRoom env r then false
    else
      let joined := joinedMembers r in
      let otherMember := find (fun m => userId m =? user) joined in
      if (match otherMember with
          | Some _ => true
          | None => false
          end) && (List.length joined =? 2)%nat
      then true
      else
        let invites := match thirdPartyInvites r with
                       | Some l => l
                       | None => []
                       end in
        (* match room with pending third-party invite *)
        (List.length joined =? 1)%nat && (List.length invites =? 1)%nat
  else false.

(** [Array.prototype.sort] (stable) with the comparator
    [r2.getLastActiveTimestamp() - r1.getLastActiveTimestamp()]. *)
Fixpoint insertByActivity (a : Room) (l : list Room) : list Room :=
  match l with
  | [] => [a]
  | b :: l' =>
      if (lastActiveTimestamp b - lastActiveTimestamp a <=? 0)%Z
      then a :: b :: l'
      else b :: insertByActivity a l'
  end.

Definition sortByActivity (l : list Room) : list Room :=
  fold_right insertByActivity [] l.

Definition extractSuitableRoom (rooms : list Room) (user : string) : option Room :=
  match sortByActivity (filter (suitable user) rooms) with
  | r :: _ => Some r
  | [] => None
  end.

(** [ids.map((id) => client.getRoom(id)).filter((r) => r !== null)]. *)
Fixpoint roomsOf (ids : list string) : list Room :=
  match ids with
  | [] => []
  | id :: ids' =>
      match getRoom env id with
      | Some r => r :: roomsOf ids'
      | None => roomsOf ids'
      end
  end.

Definition findDMForUser (user : string) : option Room :=
  let roomsForUserId := roomsOf (getDMRoomsForUserId env user) in
  match extractSuitableRoom roomsForUserId user with
  | Some suitableRoomForUserId => Some suitableRoomForUserId
  | None =>
      (* Try to find in all rooms as a fallback *)
      extractSuitableRoom (roomsOf (getRoomIds env)) user
  end.

End FindDM.

(** Example rooms: Alice and Bob joined, at two different times; a room
    with a bot as a third member; and a room where only I am joined, with
    one pending third-party invite. *)
Definition joined (u : string) : RoomMember := mkMember u (Some "join").

Definition exampleRooms (id : string) : option Room :=
  if id =? "!old" then
    Some (mkRoom "!old" "join" [joined "@me"; joined "@bob"] None 100)
  else if id =? "!new" then
    Some (mkRoom "!new" "join" [joined "@me"; joined "@bob"] None 200)
  else if id =? "!bot" then
    Some (mkRoom "!bot" "join" [joined "@me"; joined "@bob"; joined "@bot"] None 300)
  else if id =? "!invite" then
    Some (mkRoom "!invite" "join" [joined "@me"] (Some ["$invite"]) 50)
  else None.

Definition nearlyJoined (m : string) : bool := (m =? "join") || (m =? "invite").

Definition exampleEnv : Env :=
  mkEnv (fun _ => false) (fun _ => []) nearlyJoined
    (fun u => if u =? "@bob" then ["!old"; "!new"; "!bot"; "!gone"] else [])
    ["!old"; "!new"; "!bot"; "!invite"] exampleRooms.

End DM.

(* ================================================================= *)
(** ** Example data *)

Module Examples.

Definition soundTweak : PushRuleAction := SetTweak "sound" (Some "default").
Definition highlightTweak : PushRuleAction := SetTweak "highlight" None.

(** A stand-in for [PushRuleVectorState.actionsFor]. *)
Definition actionsFor (s : VectorState) : list PushRuleAction :=
  match s with
  | On => [Notify]
  | Loud => [Notify; highlightTweak; soundTweak]
  | Off => []
  end.

(** A stand-in for [PushRuleVectorState.contentRuleVectorStateKind]. *)
Definition contentRuleVectorStateKind (r : IAnnotatedPushRule) : VectorState :=
  if (List.length (actions r) =? 1)%nat then On else Loud.

(** A stand-in for [ContentRules.parseContentRules]. *)
Definition parseContentRules (ruleSets : RuleSets) : IContentRules :=
  mkContentRules On
    (map (fun r => annotate r ContentSpecific) (rulesOfKind ContentSpecific ruleSets))
    [].

Definition translate (s : string) : string := s.

(** Two definitions that read the actions differently: for the first a
    rule is loud when it has two actions, for the second when it has
    three. *)
Definition messageDefinition : VectorPushRuleDefinition :=
  {| description := "Messages in group chats";
     ruleToVectorState := fun r =>
       if negb (enabled r) then Off
       else if (List.length (actions r) =? 2)%nat then Loud else On;
     vectorStateToActions := fun s =>
       match s with
       | On => Some [Notify]
       | Loud => Some [Notify; soundTweak]
       | Off => None
       end;
     syncedRuleIds := Some [RuleId.EncryptedMessage; ".m.rule.absent"] |}.

Definition encryptedDefinition : VectorPushRuleDefinition :=
  {| description := "Encrypted messages in group chats";
     ruleToVectorState := fun r =>
       if negb (enabled r) then Off
       else if (List.length (actions r) =? 3)%nat then Loud else On;
     vectorStateToActions := fun s =>
       match s with
       | On => Some [Notify]
       | Loud => Some [Notify; highlightTweak; soundTweak]
       | Off => None
       end;
     syncedRuleIds := None |}.

Definition definitions (id : string) : option VectorPushRuleDefinition :=
  if id =? RuleId.Message then Some messageDefinition
  else if id =? RuleId.EncryptedMessage then Some encryptedDefinition
  else None.

Definition masterRule (on : bool) : IPushRule := mkPushRule RuleId.Master on [] None.
Definition messageRule : IPushRule := mkPushRule RuleId.Message true [Notify] None.
Definition encryptedRule : IPushRule :=
  mkPushRule RuleId.EncryptedMessage true [Notify; soundTweak] None.

Definition message : IAnnotatedPushRule := annotate messageRule Underride.
Definition encrypted : IAnnotatedPushRule := annotate encryptedRule Underride.

Definition defaultRules : DefaultRules :=
  mkDefaultRules [annotate (masterRule false) Override] [message; encrypted] [] [] [].

(** An encrypted-message rule with three actions: its own definition reads
    it as Loud, the definition of the message rule as On. *)
Definition loudEncrypted : IAnnotatedPushRule :=
  annotate (mkPushRule RuleId.EncryptedMessage true
              [Notify; highlightTweak; soundTweak] None) Underride.

Definition defaultRulesLoudSibling : DefaultRules :=
  mkDefaultRules [annotate (masterRule false) Override] [message; loudEncrypted] [] [] [].

Definition keywordRule (word : string) (acts : list PushRuleAction) : IPushRule :=
  mkPushRule word true acts (Some word).

Definition disabledKeywordRule (word : string) (acts : list PushRuleAction)
  : IPushRule :=
  mkPushRule word false acts (Some word).

(** The rule table of the example server. *)
Definition ruleSets (inhibited : bool) (keywords : list IPushRule) : RuleSets :=
  [ (Override, [masterRule inhibited]);
    (ContentSpecific, keywords);
    (Underride, [messageRule; encryptedRule]) ].

Definition neverRejects (n : nat) : bool := false.
Definition rejectsAt (k n : nat) : bool := (n =? k)%nat.

Definition exampleServer (t : RuleSets) (rejects : nat -> bool) : Server :=
  mkServer t [] [mkThreepid Email "alice@example.org"] rejects [].

(** A client whose push processor knows the two message rules. *)
Definition exampleClient (unread : list Z) : Client :=
  mkClient
    (fun id => if id =? RuleId.Message then Some (Underride, messageRule)
               else if id =? RuleId.EncryptedMessage then Some (Underride, encryptedRule)
               else None)
    unread.

Definition exampleState (p : Phase) (inhibited : bool) (info : IContentRules) : IState :=
  mkState p (Some (annotate (masterRule inhibited) Override)) (Some info)
    (Some (fun c => match c with
                    | VectorGlobal | VectorMentions | VectorOther => Some []
                    | _ => None
                    end))
    (Some []) (Some []) true true true true false.

Definition exampleWorld (st : IState) (s : Server) (unread : list Z) : World :=
  mkWorld st s (exampleClient unread) [] [].

Definition messageRow : IVectorPushRule :=
  mkVectorPushRule RuleId.Message (Some message) "Messages in group chats" On (Some Loud).

Definition keywordsRadioRow : IVectorPushRule :=
  mkVectorPushRule KEYWORD_RULE_ID None "Messages containing keywords" On None.

Definition threeLoudKeywords : list IPushRule :=
  [ keywordRule "apple" (actionsFor Loud);
    keywordRule "banana" (actionsFor Loud);
    keywordRule "cherry" (actionsFor Loud) ].

Definition keywordInfo (s : VectorState) (l : list IPushRule) : IContentRules :=
  mkContentRules s (map (fun r => annotate r ContentSpecific) l) [].

(** The object literal [{ pattern: keyword }] with the fields it leaves
    out filled in. *)
Definition keywordOnly (keyword : string) : IAnnotatedPushRule :=
  mkRule "" ContentSpecific false [] (Some keyword).

Definition twoKeywords : list IPushRule :=
  [ keywordRule "apple" [Notify]; keywordRule "banana" [Notify] ].

(** The row of a rule that the table of definitions does not list. *)
Definition callRow : IVectorPushRule :=
  mkVectorPushRule RuleId.IncomingCall
    (Some (annotate (mkPushRule RuleId.IncomingCall true [Notify] None) Underride))
    "When I receive a call" On None.

(** The example world with the given keyword rules, in the state and on
    the server. *)
Definition keywordWorld (p : Phase) (s : VectorState) (keywords : list IPushRule)
    (rejects : nat -> bool) : World :=
  exampleWorld (exampleState p false (keywordInfo s keywords))
    (exampleServer (ruleSets false keywords) rejects) [].

End Examples.

(* ================================================================= *)
(** ** The component *)

Section Component.

(** What the component imports from [src/notifications] and
    [src/languageHandler], which are not among the sources:
    the table of rule definitions, [PushRuleVectorState.actionsFor],
    [PushRuleVectorState.contentRuleVectorStateKind],
    [ContentRules.parseContentRules] and the translation [_t]. *)
Variable VectorPushRulesDefinitions : string -> option VectorPushRuleDefinition.
Variable actionsFor : VectorState -> list PushRuleAction.
Variable contentRuleVectorStateKind : IAnnotatedPushRule -> VectorState.
Variable parseContentRules : RuleSets -> IContentRules.
Variable _t : string -> string.

(** *** refreshRules *)

(** One iteration of [for (const rule of defaultRules[category])]:
    an id without a definition makes [definition.ruleToVectorState]
    a TypeError. *)
Definition describeRule (defaultRules : DefaultRules) (r : IAnnotatedPushRule)
  : Outcome IVectorPushRule :=
  match VectorPushRulesDefinitions (rule_id r) with
  | None => Throw TypeError
  | Some definition =>
      let vectorState := ruleToVectorState definition r in
      Return {| ruleId := rule_id r;
                rule := Some r;
                vectorState := vectorState;
                syncedVectorState := maximumVectorState defaultRules r definition;
                vp_description := _t (description definition) |}
  end.

Fixpoint describeRules (defaultRules : DefaultRules) (rs : list IAnnotatedPushRule)
  : Outcome (list IVectorPushRule) :=
  match rs with
  | [] => Return []
  | r :: rs' =>
      match describeRule defaultRules r with
      | Throw e => Throw e
      | Return row =>
          match describeRules defaultRules rs' with
          | Throw e => Throw e
          | Return rows => Return (row :: rows)
          end
      end
  end.

Definition keywordsRow (info : IContentRules) : IVectorPushRule :=
  {| ruleId := KEYWORD_RULE_ID;
     rule := None;
     vp_description := _t "Messages containing keywords";
     vectorState := kw_vectorState info;
     syncedVectorState := None |}.

(** One iteration of [for (const category of vectorCategories)]. *)
Definition prepareCategory (defaultRules : DefaultRules) (info : IContentRules)
    (category : RuleClass) : Outcome (list IVectorPushRule) :=
  match describeRules defaultRules (rulesOf defaultRules category) with
  | Throw e => Throw e
  | Return rows =>
      (* Quickly sort the rules for display purposes *)
      let sorted := sortForDisplay rows in
      Return (if RuleClass_eqb category KEYWORD_RULE_CATEGORY
              then sorted ++ [keywordsRow info]
              else sorted)
  end.

(** [refreshRules] after the rule sets have arrived. *)
Definition prepareRules (ruleSets : RuleSets) : Outcome PreparedState :=
  let defaultRules := collectDefaultRules ruleSets in
  match master defaultRules with
  | [] =>
      (* XXX: Can this even happen? How do we safely recover? *)
      Throw (Failure "Failed to locate a master push rule")
  | master0 :: _ =>
      (* Parse keyword rules *)
      let info := parseContentRules ruleSets in
      (* Prepare rendering for all of our known rules *)
      match prepareCategory defaultRules info VectorGlobal with
      | Throw e => Throw e
      | Return g =>
          match prepareCategory defaultRules info VectorMentions with
          | Throw e => Throw e
          | Return m =>
              match prepareCategory defaultRules info VectorOther with
              | Throw e => Throw e
              | Return o =>
                  Return {| new_masterPushRule := master0;
                            new_vectorKeywordRuleInfo := info;
                            new_vectorPushRules := fun c =>
                              match c with
                              | VectorGlobal => Some g
                              | VectorMentions => Some m
                              | VectorOther => Some o
                              | _ => None
                              end |}
              end
          end
      end
  end.

Definition refreshRules : Async PreparedState :=
  ruleSets <- request GetPushRules pushRules ;;
  lift (prepareRules ruleSets).

Definition refreshPushers : Async (list IPusher) :=
  request GetPushers srv_pushers.

Definition refreshThreepids : Async (list IThreepid) :=
  request GetThreePids srv_threepids.

(** [Promise.all] of three settled promises. *)
Definition promiseAll {A B C} (a : Outcome A) (b : Outcome B) (c : Outcome C)
  : Async (A * B * C) :=
  match a, b, c with
  | Return x, Return y, Return z => ret (x, y, z)
  | Throw e, _, _ => throw e
  | _, Throw e, _ => throw e
  | _, _, Throw e => throw e
  end.

Definition readyState (n : PreparedState) (p : list IPusher) (t : list IThreepid)
    (s : IState) : IState :=
  mkState Ready (Some (new_masterPushRule n)) (Some (new_vectorKeywordRuleInfo n))
    (Some (new_vectorPushRules n)) (Some p) (Some t)
    (deviceNotificationsEnabled s) (desktopNotifications s) (desktopShowBody s)
    (audioNotifications s) (clearingNotifications s).

(** The three refreshes are started together, so all three requests are
    sent whatever their outcomes. *)
Definition refreshFromServer : Async unit :=
  tryCatch
    (r <- settle refreshRules ;;
     p <- settle refreshPushers ;;
     t <- settle refreshThreepids ;;
     newState <- promiseAll r p t ;;
     setState (readyState (fst (fst newState)) (snd (fst newState)) (snd newState)))
    (fun e =>
       loggerError "Error setting up notifications for settings: " ;;;
       setState (withPhase Error)).

Definition showSaveError : Async unit :=
  createErrorDialog (_t "Error saving notification preferences").

(** *** Mutations *)

Definition onMasterRuleChanged (checked : bool) : Async unit :=
  setState (withPhase Persisting) ;;;
  tryCatch
    (st <- getState ;;
     match masterPushRule st with
     | None => throw TypeError
     | Some masterRule =>
         await (SetPushRuleEnabled "global" (kind masterRule) (rule_id masterRule)
                  (negb checked)) ;;;
         refreshFromServer
     end)
    (fun e =>
       setState (withPhase Error) ;;;
       loggerError "Error updating master push rule:" ;;;
       showSaveError).

Definition setPushRuleActions (id : string) (k : PushRuleKind)
    (acts : option (list PushRuleAction)) : Async unit :=
  match acts with
  | None => await (SetPushRuleEnabled "global" k id false)
  | Some a =>
      await (SetPushRuleActions "global" k id a) ;;;
      await (SetPushRuleEnabled "global" k id true)
  end.

(** [ids.map(getPushRuleAndKindById).filter(Boolean)]. *)
Fixpoint existingRules (cli : Client) (ids : list string)
  : list (PushRuleKind * IPushRule) :=
  match ids with
  | [] => []
  | id :: ids' =>
      match getPushRuleAndKindById cli id with
      | Some kr => kr :: existingRules cli ids'
      | None => existingRules cli ids'
      end
  end.

(** Updated syncedRuleIds from rule definition.  If a rule does not
    exist it is ignored.  Synced rules are updated sequentially and stop
    at first error. *)
Definition updateSyncedRules (ids : option (list string))
    (acts : option (list PushRuleAction)) : Async unit :=
  cli <- getClient ;;
  (* get synced rules that exist for user *)
  match ids with
  | None => ret tt
  | Some l =>
      forOf (existingRules cli l)
        (fun kr => setPushRuleActions (pr_rule_id (snd kr)) (fst kr) acts)
  end.

(** The body of the loop over the keyword rules in [onRadioChecked]. *)
Definition updateKeywordRule (checkedState : VectorState) (r : IAnnotatedPushRule)
  : Async unit :=
  st <- getState ;;
  match vectorKeywordRuleInfo st with
  | None => throw TypeError
  | Some info =>
      let aggregateOff := VectorState_eqb (kw_vectorState info) Off in
      let acts_enabled :=
        match checkedState with
        | On =>
            (if negb (List.length (actions r) =? 1)%nat
             then Some (actionsFor checkedState) else None,
             if aggregateOff then Some true else None)
        | Loud =>
            (if negb (List.length (actions r) =? 3)%nat
             then Some (actionsFor checkedState) else None,
             if aggregateOff then Some true else None)
        | Off => (None, Some false)
        end in
      match fst acts_enabled with
      | Some acts => await (SetPushRuleActions "global" (kind r) (rule_id r) acts)
      | None => ret tt
      end ;;;
      match snd acts_enabled with
      | Some on => await (SetPushRuleEnabled "global" (kind r) (rule_id r) on)
      | None => ret tt
      end
  end.

Definition onRadioChecked (r : IVectorPushRule) (checkedState : VectorState)
  : Async unit :=
  setState (withPhase Persisting) ;;;
  tryCatch
    ((if ruleId r =? KEYWORD_RULE_ID then
        (* Update all the keywords *)
        st <- getState ;;
        match vectorKeywordRuleInfo st with
        | None => throw TypeError
        | Some info => forOf (kw_rules info) (updateKeywordRule checkedState)
        end
      else
        match VectorPushRulesDefinitions (ruleId r), rule r with
        | Some definition, Some target =>
            let acts := vectorStateToActions definition checkedState in
            setPushRuleActions (rule_id target) (kind target) acts ;;;
            updateSyncedRules (syncedRuleIds definition) acts
        | _, _ => throw TypeError
        end) ;;;
     refreshFromServer)
    (fun e =>
       setState (withPhase Error) ;;;
       loggerError "Error updating push rule:" ;;;
       showSaveError).

Definition hasPattern (word : string) (r : IAnnotatedPushRule) : bool :=
  optString_eqb (pattern r) (Some word).

(** The state whose actions a new keyword rule gets. *)
Definition newKeywordState (info : IContentRules)
    (originalRules : list IAnnotatedPushRule) : VectorState :=
  let ruleVectorState := kw_vectorState info in
  if VectorState_eqb ruleVectorState Off then
    (* When the current global keywords rule is OFF, we need to look at
       the flavor of existing rules to apply the same actions
       when creating the new rule. *)
    match originalRules with
    | first :: _ => contentRuleVectorStateKind first
    | [] => On (* default *)
    end
  else ruleVectorState.

Definition setKeywords (keywords : list string)
    (originalRules : list IAnnotatedPushRule) : Async unit :=
  tryCatch
    ((* De-duplicate and remove empties *)
     let diff := diffKeywords (map pattern originalRules) keywords in
     forOf (removed diff)
       (fun word =>
          forOf (filter (hasPattern word) originalRules)
            (fun r => await (DeletePushRule "global" (kind r) (rule_id r)))) ;;;
     st <- getState ;;
     match vectorKeywordRuleInfo st with
     | None => throw TypeError
     | Some info =>
         let ruleVectorState := newKeywordState info originalRules in
         let k := ContentSpecific in
         forOf (added diff)
           (fun word =>
              await (AddPushRule "global" k word (actionsFor ruleVectorState) word) ;;;
              if VectorState_eqb ruleVectorState Off
              then await (SetPushRuleEnabled "global" k word false)
              else ret tt) ;;;
         refreshFromServer
     end)
    (fun e =>
       setState (withPhase Error) ;;;
       loggerError "Error updating keyword push rules:" ;;;
       showSaveError).

(** *** Rendering *)

(** Caution: The master rule's enabled state is inverted from
    expectation.  When the master rule is *enabled* it means all other
    rules are *disabled* (or inhibited). *)
Definition isInhibited (st : IState) : bool :=
  match masterPushRule st with
  | Some m => enabled m
  | None => false
  end.

Definition persisting (st : IState) : bool := Phase_eqb (phase st) Persisting.

Definition masterSwitch (st : IState) : Element :=
  LabelledToggleSwitch "notif-master-switch" (negb (isInhibited st)) (persisting st).

Definition isEmail (t : IThreepid) : bool :=
  match medium t with
  | Email => true
  | Phone => false
  end.

Definition isEmailPusher (email : string) (p : IPusher) : bool :=
  optString_eqb (pusher_kind p) (Some "email") && (pushkey p =? email).

Definition renderTopSection (st : IState) : Outcome Element :=
  (* If all the rules are inhibited, don't show anything. *)
  if isInhibited st then Return (masterSwitch st)
  else
    let emails := filter isEmail (match threepids st with
                                  | Some l => l
                                  | None => []
                                  end) in
    match emails, pushers st with
    | _ :: _, None => Throw TypeError
    | _, ps =>
        let known := match ps with
                     | Some l => l
                     | None => []
                     end in
        let emailSwitches :=
          map (fun e => Some (LabelledToggleSwitch "notif-email-switch"
                                (existsb (isEmailPusher (address e)) known)
                                (persisting st))) emails in
        Return (Fragment
          ([ Some (masterSwitch st);
             Some (LabelledToggleSwitch "notif-device-switch"
                     (deviceNotificationsEnabled st) (persisting st));
             if deviceNotificationsEnabled st
             then Some (Fragment
                    [ Some (LabelledToggleSwitch "notif-setting-notificationsEnabled"
                              (desktopNotifications st) (persisting st));
                      Some (LabelledToggleSwitch "notif-setting-notificationBodyEnabled"
                              (desktopShowBody st) (persisting st));
                      Some (LabelledToggleSwitch "notif-setting-audioNotificationsEnabled"
                              (audioNotifications st) (persisting st)) ])
             else None ] ++ emailSwitches))
    end.

Definition makeRadio (st : IState) (r : IVectorPushRule) (s : VectorState) : Element :=
  StyledRadioButton (ruleId r) s
    (VectorState_eqb (match syncedVectorState r with
                      | Some v => v
                      | None => vectorState r
                      end) s)
    (persisting st).

Definition fieldsetRow (st : IState) (category : RuleClass) (r : IVectorPushRule)
  : Element :=
  Fieldset (RuleClass_value category ++ ruleId r)%string (vp_description r)
    [makeRadio st r Off; makeRadio st r On; makeRadio st r Loud].

Definition hasUnread (cli : Client) : bool :=
  existsb (fun n => (n >? 0)%Z) (unreadNotificationCounts cli).

Definition renderCategory (cli : Client) (st : IState) (category : RuleClass)
  : Outcome (option Element) :=
  if negb (RuleClass_eqb category VectorOther) && isInhibited st then
    Return None (* nothing to show for the section *)
  else
    let clearNotifsButton :=
      if RuleClass_eqb category VectorOther && hasUnread cli
      then Some (AccessibleButton "clear-notifications" (_t "Mark all as read")
                   (clearingNotifications st))
      else None in
    if RuleClass_eqb category VectorOther && isInhibited st then
      (* only render the utility buttons (if needed) *)
      match clearNotifsButton with
      | Some b => Return (Some (FloatingSection (_t "Other") [b]))
      | None => Return None
      end
    else
      let keywordComposer :=
        if RuleClass_eqb category VectorMentions
        then Some (TagComposer
                     (match vectorKeywordRuleInfo st with
                      | Some info => map pattern (kw_rules info)
                      | None => []
                      end)
                     (persisting st))
        else None in
      match vectorPushRules st with
      | None => Throw TypeError
      | Some table =>
          let fieldsetRows :=
            match table category with
            | Some rows => map (fieldsetRow st category) rows
            | None => []
            end in
          let section (sectionName : string) :=
            Return (Some (Fragment
              [ Some (Grid ("notif-section-" ++ RuleClass_value category)%string
                        sectionName fieldsetRows);
                clearNotifsButton;
                keywordComposer ])) in
          match category with
          | VectorGlobal => section (_t "Global")
          | VectorMentions => section (_t "Mentions & keywords")
          | VectorOther => section (_t "Other")
          | _ => Throw (Failure ("Developer error: Unnamed notifications section: "
                                   ++ RuleClass_value category)%string)
          end
      end.

Definition renderTargets (st : IState) : Outcome (option Element) :=
  if isInhibited st then Return None (* no targets if there's no notifications *)
  else
    match pushers st with
    | None => Throw TypeError
    | Some [] => Return None (* no targets to show *)
    | Some ps =>
        Return (Some (FloatingSection (_t "Notification targets")
                        (map (fun p => TargetRow (app_display_name p)
                                         (device_display_name p)) ps)))
    end.

Definition render (w : World) : Outcome Element :=
  let st := state w in
  match phase st with
  | Loading => Return Spinner
  | Error => Return ErrorMessage
  | _ =>
      match renderTopSection st with
      | Throw e => Throw e
      | Return top =>
          match renderCategory (client w) st VectorGlobal with
          | Throw e => Throw e
          | Return g =>
              match renderCategory (client w) st VectorMentions with
              | Throw e => Throw e
              | Return m =>
                  match renderCategory (client w) st VectorOther with
                  | Throw e => Throw e
                  | Return o =>
                      match renderTargets st with
                      | Throw e => Throw e
                      | Return t =>
                          Return (UserNotifSettings [Some top; g; m; o; t])
                      end
                  end
              end
          end
      end
  end.

(** *** The requests of each mutation, as lists *)

Definition refreshCalls : list Call := [GetPushRules; GetPushers; GetThreePids].

(** The requests of [setPushRuleActions]. *)
Definition ruleCalls (id : string) (k : PushRuleKind)
    (acts : option (list PushRuleAction)) : list Call :=
  match acts with
  | None => [SetPushRuleEnabled "global" k id false]
  | Some a => [SetPushRuleActions "global" k id a; SetPushRuleEnabled "global" k id true]
  end.

(** The requests of [updateSyncedRules]. *)
Definition syncedCalls (cli : Client) (ids : option (list string))
    (acts : option (list PushRuleAction)) : list Call :=
  match ids with
  | None => []
  | Some l =>
      flat_map (fun kr => ruleCalls (pr_rule_id (snd kr)) (fst kr) acts)
        (existingRules cli l)
  end.

(** The requests of the rule branch of [onRadioChecked]. *)
Definition radioCalls (cli : Client) (definition : VectorPushRuleDefinition)
    (target : IAnnotatedPushRule) (checkedState : VectorState) : list Call :=
  let acts := vectorStateToActions definition checkedState in
  ruleCalls (rule_id target) (kind target) acts
    ++ syncedCalls cli (syncedRuleIds definition) acts.

(** Whether the keyword loop rewrites the actions of [r], and whether
    and how it sets its enabled flag. *)
Definition rewritesActions (checkedState : VectorState) (r : IAnnotatedPushRule)
  : bool :=
  match checkedState with
  | On => negb (List.length (actions r) =? 1)%nat
  | Loud => negb (List.length (actions r) =? 3)%nat
  | Off => false
  end.

Definition setsEnabled (checkedState : VectorState) (info : IContentRules)
  : option bool :=
  match checkedState with
  | Off => Some false
  | _ => if VectorState_eqb (kw_vectorState info) Off then Some true else None
  end.

(** The requests of one iteration of the keyword loop. *)
Definition keywordRuleCalls (checkedState : VectorState) (info : IContentRules)
    (r : IAnnotatedPushRule) : list Call :=
  (if rewritesActions checkedState r
   then [SetPushRuleActions "global" (kind r) (rule_id r) (actionsFor checkedState)]
   else [])
  ++ match setsEnabled checkedState info with
     | Some on => [SetPushRuleEnabled "global" (kind r) (rule_id r) on]
     | None => []
     end.

Definition keywordCalls (checkedState : VectorState) (info : IContentRules)
  : list Call :=
  flat_map (keywordRuleCalls checkedState info) (kw_rules info).

(** The requests of [setKeywords]. *)
Definition deleteCalls (words : list string) (originalRules : list IAnnotatedPushRule)
  : list Call :=
  flat_map (fun word =>
              map (fun r => DeletePushRule "global" (kind r) (rule_id r))
                (filter (hasPattern word) originalRules)) words.

Definition addCalls (s : VectorState) (words : list string) : list Call :=
  flat_map (fun word =>
              AddPushRule "global" ContentSpecific word (actionsFor s) word
                :: (if VectorState_eqb s Off
                    then [SetPushRuleEnabled "global" ContentSpecific word false]
                    else [])) words.

Definition setKeywordsCalls (info : IContentRules) (keywords : list string)
    (originalRules : list IAnnotatedPushRule) : list Call :=
  let diff := diffKeywords (map pattern originalRules) keywords in
  deleteCalls (removed diff) originalRules
    ++ addCalls (newKeywordState info originalRules) (added diff).

(** *** Notions used to state what the methods do *)

(** The three categories [refreshRules] prepares rows for. *)
Definition isVectorCategory (c : RuleClass) : bool :=
  match c with
  | VectorGlobal | VectorMentions | VectorOther => true
  | _ => false
  end.

(** Whether the table of definitions has an entry for the rule. *)
Definition hasDefinition (r : IAnnotatedPushRule) : bool :=
  match VectorPushRulesDefinitions (rule_id r) with
  | Some _ => true
  | None => false
  end.

(** Whether [refreshRules] needs a definition for the rule: it does for
    the rules of the three vector categories. *)
Definition needsDefinition (r : IAnnotatedPushRule) : bool :=
  match categories (rule_id r) with
  | Some c => isVectorCategory c
  | None => false
  end.

(** [w'] differs from [w] at most in the server, which has received
    further requests. *)
Definition onlyRequests (w w' : World) : Prop :=
  state w' = state w
  /\ client w' = client w
  /\ dialogs w' = dialogs w
  /\ errorLog w' = errorLog w
  /\ rejects (server w') = rejects (server w)
  /\ srv_pushers (server w') = srv_pushers (server w)
  /\ srv_threepids (server w') = srv_threepids (server w)
  /\ exists sent, received (server w') = received (server w) ++ sent.

(** A computation that does nothing but send requests. *)
Definition sendsOnly {A} (m : Async A) : Prop :=
  forall w, onlyRequests w (snd (m w)).

(** A computation that does nothing but send requests and, when it
    returns, has ended with a refresh. *)
Definition endsWithRefresh (m : Async unit) : Prop :=
  forall w,
    match m w with
    | (Return _, w') =>
        exists w1, onlyRequests w w1 /\ w' = snd (refreshFromServer w1)
    | (Throw _, w') => onlyRequests w w'
    end.

(** The [catch] block of the three saving methods. *)
Definition saveFailed (label : string) : Async unit :=
  setState (withPhase Error) ;;; loggerError label ;;; showSaveError.

(** The state after a successful and after a failed refresh. *)
Definition refreshedState (w : World) : IState :=
  let s := server w in
  let n := List.length (received s) in
  if rejects s n || rejects s (S n) || rejects s (S (S n))
  then withPhase Error (state w)
  else match prepareRules (pushRules s) with
       | Return p => readyState p (srv_pushers s) (srv_threepids s) (state w)
       | Throw _ => withPhase Error (state w)
       end.

(** *** Editing the keyword tags *)

(** [{ ...this.state.vectorKeywordRuleInfo, rules }]. *)
Definition withKeywordRules (rules : list IAnnotatedPushRule) (info : IContentRules)
  : IContentRules :=
  mkContentRules (kw_vectorState info) rules (kw_externalRules info).

(** [{ phase: Phase.Persisting, vectorKeywordRuleInfo }]: the local echo. *)
Definition localEcho (info : IContentRules) (s : IState) : IState :=
  mkState Persisting (masterPushRule s) (Some info) (vectorPushRules s)
    (pushers s) (threepids s) (deviceNotificationsEnabled s)
    (desktopNotifications s) (desktopShowBody s) (audioNotifications s)
    (clearingNotifications s).

(** The callback of the two [setState] calls below.  [setKeywords] takes
    [string[]]; a pattern that is undefined is falsy and is dropped by
    the first statement of [setKeywords], so it is dropped here (see
    [truthyWords_fromSet]). *)
Definition keywordsChanged (originalRules : list IAnnotatedPushRule) : Async unit :=
  st <- getState ;;
  match vectorKeywordRuleInfo st with
  | None => throw TypeError
  | Some info => setKeywords (truthyWords (map pattern (kw_rules info))) originalRules
  end.

(** [keywordOnlyRule keyword] stands for the object literal
    [{ pattern: keyword }], cast to a rule: only its pattern is set, the
    other fields are left to the caller. *)
Definition onKeywordAdd (keywordOnlyRule : string -> IAnnotatedPushRule)
    (keyword : string) : Async unit :=
  st <- getState ;;
  match vectorKeywordRuleInfo st with
  | None => throw TypeError
  | Some info =>
      let originalRules := kw_rules info in
      (* We add the keyword immediately as a sort of local echo effect *)
      setState (localEcho (withKeywordRules (kw_rules info ++ [keywordOnlyRule keyword])
                             info)) ;;;
      keywordsChanged originalRules
  end.

Definition onKeywordRemove (keyword : string) : Async unit :=
  st <- getState ;;
  match vectorKeywordRuleInfo st with
  | None => throw TypeError
  | Some info =>
      let originalRules := kw_rules info in
      (* We remove the keyword immediately as a sort of local echo effect *)
      setState (localEcho
                  (withKeywordRules
                     (filter (fun r => negb (optString_eqb (pattern r) (Some keyword)))
                        (kw_rules info))
                     info)) ;;;
      keywordsChanged originalRules
  end.

(* =============================================================== *)
(** ** Properties of the loudest-state computation *)

Lemma loudness_range (s : VectorState) : (0 <= loudness s <= 2)%Z.
Proof. destruct s; vm_compute; split; discriminate. Qed.

Lemma loudness_inj (a b : VectorState) : loudness a = loudness b -> a = b.
Proof. destruct a, b; vm_compute; congruence. Qed.

Lemma VectorState_eqb_eq (a b : VectorState) : VectorState_eqb a b = true <-> a = b.
Proof. destruct a, b; simpl; split; congruence. Qed.

Lemma louder_Loud (x : VectorState) : louder Loud x = Loud.
Proof. destruct x; reflexivity. Qed.

Lemma louder_le_l (a b : VectorState) : VectorState_le a (louder a b).
Proof.
  unfold VectorState_le, louder.
  destruct (Z.gtb_spec (loudness b) (loudness a)); lia.
Qed.

Lemma louder_le_r (a b : VectorState) : VectorState_le b (louder a b).
Proof.
  unfold VectorState_le, louder.
  destruct (Z.gtb_spec (loudness b) (loudness a)); lia.
Qed.

Lemma loudest_le_start (l : list VectorState) :
  forall s, VectorState_le s (loudest s l).
Proof.
  unfold loudest, VectorState_le.
  induction l as [|x l IH]; intro s; simpl; [lia|].
  specialize (IH (louder s x)). pose proof (louder_le_l s x) as H.
  unfold VectorState_le in H. lia.
Qed.

Lemma loudest_le_member (l : list VectorState) :
  forall s x, In x l -> VectorState_le x (loudest s l).
Proof.
  induction l as [|y l IH]; intros s x [].
  - subst y. unfold loudest; simpl.
    pose proof (loudest_le_start l (louder s x)) as H1.
    pose proof (louder_le_r s x) as H2.
    unfold VectorState_le, loudest in *. lia.
  - unfold loudest; simpl. now apply IH.
Qed.

(** The loudest state is attained: it is the start or a member. *)
Lemma loudest_attained (l : list VectorState) :
  forall s, loudest s l = s \/ In (loudest s l) l.
Proof.
  induction l as [|y l IH]; intro s; [now left|].
  unfold loudest; simpl. destruct (IH (louder s y)) as [H|H].
  - unfold loudest in H. rewrite H. unfold louder.
    destruct (loudness y >? loudness s)%Z; auto.
  - right; right. exact H.
Qed.

(** One step of the fold, with and without the sibling in the table. *)
Lemma louderOf_found (R : DefaultRules) (d : VectorPushRuleDefinition)
    (s : VectorState) (id : string) (r : IAnnotatedPushRule) :
  findInDefaultRules id R = Some r ->
  louderOf R d s id = louder s (ruleToVectorState d r).
Proof.
  intro H. unfold louderOf. rewrite H.
  destruct (VectorState_eqb s Loud) eqn:E; [|reflexivity].
  apply VectorState_eqb_eq in E. subst s. now rewrite louder_Loud.
Qed.

Lemma louderOf_missing (R : DefaultRules) (d : VectorPushRuleDefinition)
    (s : VectorState) (id : string) :
  findInDefaultRules id R = None -> louderOf R d s id = s.
Proof.
  intro H. unfold louderOf. rewrite H. now destruct (VectorState_eqb s Loud).
Qed.

(** The short-circuiting fold is the maximum over the siblings found. *)
Lemma fold_louderOf (R : DefaultRules) (d : VectorPushRuleDefinition)
    (ids : list string) :
  forall s,
    fold_left (louderOf R d) ids s
    = loudest s (map (ruleToVectorState d) (resolvable R ids)).
Proof.
  induction ids as [|id ids IH]; intro s; [reflexivity|].
  simpl. destruct (findInDefaultRules id R) as [r|] eqn:E.
  - rewrite louderOf_found with (r := r) by exact E. simpl. apply IH.
  - rewrite louderOf_missing by exact E. apply IH.
Qed.

Lemma resolvable_In (R : DefaultRules) (ids : list string) (id : string)
    (r : IAnnotatedPushRule) :
  In id ids -> findInDefaultRules id R = Some r -> In r (resolvable R ids).
Proof.
  induction ids as [|i ids IH]; intros [] E; simpl.
  - subst i. rewrite E. now left.
  - destruct (findInDefaultRules i R); [right|]; now apply IH.
Qed.

Lemma maximumVectorState_fold (R : DefaultRules) (r : IAnnotatedPushRule)
    (d : VectorPushRuleDefinition) (ids : list string) :
  syncedRuleIds d = Some ids -> ids <> [] ->
  maximumVectorState R r d
  = Some (fold_left (louderOf R d) ids (ruleToVectorState d r)).
Proof.
  intros H Hne. unfold maximumVectorState. rewrite H.
  destruct ids; [congruence|reflexivity].
Qed.

(** C1 (as the code has it): for a rule with a non-empty [syncedRuleIds]
    list, every sibling found in the rule table is translated by the
    [ruleToVectorState] of the parent rule's definition, the one
    [maximumVectorState] is called with; the result is the loudest of the
    parent's state and of these sibling states. *)
Theorem maximumVectorState_uses_parent_definition
    (R : DefaultRules) (r : IAnnotatedPushRule)
    (d : VectorPushRuleDefinition) (ids : list string) :
  syncedRuleIds d = Some ids -> ids <> [] ->
  maximumVectorState R r d
  = Some (loudest (ruleToVectorState d r)
            (map (ruleToVectorState d) (resolvable R ids))).
Proof.
  intros H Hne. rewrite maximumVectorState_fold with (ids := ids) by assumption.
  now rewrite fold_louderOf.
Qed.

(** The order of the code, the positions in [OrderedVectorStates], is the
    order Off < On < Loud. *)
Lemma VectorState_le_specOrder (a b : VectorState) :
  VectorState_le a b <-> specOrder_leb a b = true.
Proof.
  unfold VectorState_le.
  destruct a, b; vm_compute; split; intro H;
    first [reflexivity | discriminate H | destruct (H eq_refl) | discriminate].
Qed.

(** C2 (amended): for a rule with a synced group the display state is, in
    the order Off < On < Loud, at least the rule's own state and at least
    the state that the definition of the parent rule, the one
    [maximumVectorState] is called with, gives every sibling found in the
    rule table; it is one of these states; and the ids that are not found
    contribute nothing: the fold over all ids is the fold over the ids
    that resolve.  (The state a sibling's own definition gives it is not
    consulted, and the display state can be below it.) *)
Theorem maximumVectorState_is_loudest
    (R : DefaultRules) (r : IAnnotatedPushRule)
    (d : VectorPushRuleDefinition) (ids : list string) :
  syncedRuleIds d = Some ids -> ids <> [] ->
  exists v,
    maximumVectorState R r d = Some v
    /\ specOrder_leb (ruleToVectorState d r) v = true
    /\ (forall id sibling,
          In id ids -> findInDefaultRules id R = Some sibling ->
          specOrder_leb (ruleToVectorState d sibling) v = true)
    /\ (v = ruleToVectorState d r
        \/ exists sibling, In sibling (resolvable R ids)
                           /\ v = ruleToVectorState d sibling)
    /\ v = fold_left (louderOf R d)
             (filter (fun id => match findInDefaultRules id R with
                                | Some _ => true
                                | None => false
                                end) ids)
             (ruleToVectorState d r).
Proof.
  intros H Hne. eexists. split; [apply maximumVectorState_fold with (ids := ids); assumption|].
  rewrite fold_louderOf. repeat split.
  - apply VectorState_le_specOrder, loudest_le_start.
  - intros id sibling Hin Hf. apply VectorState_le_specOrder, loudest_le_member.
    apply in_map. eapply resolvable_In; eauto.
  - destruct (loudest_attained (map (ruleToVectorState d) (resolvable R ids))
                (ruleToVectorState d r)) as [E|E]; [now left|right].
    apply in_map_iff in E. destruct E as [x [E1 E2]]. exists x. split; auto.
  - rewrite fold_louderOf. f_equal. f_equal.
    clear. induction ids as [|i ids IH]; [reflexivity|].
    simpl. destruct (findInDefaultRules i R) eqn:E; simpl; rewrite ?E; now rewrite IH.
Qed.

(* =============================================================== *)
(** ** Properties of the keyword diff *)

Lemma optString_eqb_eq (a b : option string) : optString_eqb a b = true <-> a = b.
Proof.
  destruct a as [x|], b as [y|]; simpl; try (split; congruence).
  rewrite String.eqb_eq. split; congruence.
Qed.

Section FromSet.
Context {A : Type} (eqb : A -> A -> bool).
Hypothesis eqb_eq : forall x y, eqb x y = true <-> x = y.

Lemma fromSet_In (l : list A) (x : A) : In x (fromSet eqb l) <-> In x l.
Proof.
  induction l as [|y l IH]; simpl; [tauto|].
  rewrite filter_In, IH. split.
  - intros [H|[H _]]; auto.
  - intros [H|H]; auto.
    destruct (eqb x y) eqn:E.
    + apply eqb_eq in E. auto.
    + right. split; auto.
Qed.

Lemma fromSet_NoDup (l : list A) : NoDup (fromSet eqb l).
Proof.
  induction l as [|y l IH]; simpl; constructor.
  - rewrite filter_In. intros [_ H].
    assert (E : eqb y y = true) by now apply eqb_eq.
    rewrite E in H. discriminate.
  - now apply NoDup_filter.
Qed.
End FromSet.

Lemma truthyWords_In (l : list (option string)) (w : string) :
  In w (truthyWords l) <-> In (Some w) l /\ w <> "".
Proof.
  induction l as [|[[|c s]|] l IH]; simpl.
  - tauto.
  - rewrite IH. split.
    + intros [H1 H2]; auto.
    + intros [[H|H] H2]; [congruence|auto].
  - rewrite IH. split.
    + intros [H|[H1 H2]]; [subst w; split; [now left|discriminate]|auto].
    + intros [[H|H] H2]; [left; congruence|auto].
  - rewrite IH. split.
    + intros [H1 H2]; auto.
    + intros [[H|H] H2]; [discriminate|auto].
Qed.

Lemma truthyWords_NoDup (l : list (option string)) :
  NoDup l -> NoDup (truthyWords l).
Proof.
  induction 1 as [|x l Hx Hl IH]; simpl; [constructor|].
  destruct x as [[|c s]|]; auto.
  constructor; auto. rewrite truthyWords_In. tauto.
Qed.

Lemma includes_In (a : list string) (i : string) : includes a i = true <-> In i a.
Proof.
  unfold includes. rewrite existsb_exists. split.
  - intros [x [H E]]. apply String.eqb_eq in E. now subst.
  - intro H. exists i. split; auto. apply String.eqb_refl.
Qed.

Lemma includes_false (a : list string) (i : string) :
  negb (includes a i) = true <-> ~ In i a.
Proof.
  rewrite <- includes_In. destruct (includes a i); simpl; split; congruence.
Qed.

Lemma NoDup_map_Some (l : list string) : NoDup l -> NoDup (map Some l).
Proof.
  induction 1 as [|x l Hx Hl IH]; simpl; constructor; auto.
  rewrite in_map_iff. intros [y [E H]]. congruence.
Qed.

Lemma diffKeywords_added (oldWords : list (option string)) (newWords : list string)
    (w : string) :
  In w (added (diffKeywords oldWords newWords))
  <-> In w newWords /\ w <> "" /\ ~ In (Some w) oldWords.
Proof.
  unfold diffKeywords, arrayDiff; simpl.
  rewrite filter_In, includes_false, !truthyWords_In.
  rewrite (fromSet_In optString_eqb optString_eqb_eq), in_map_iff.
  split.
  - intros [[[x [E H]] Hne] Hn]. inversion E; subst x.
    apply (proj1 (fromSet_In String.eqb String.eqb_eq _ _)) in H. tauto.
  - intros [Hin [Hne Hn]]. split; [split; auto|tauto].
    exists w. split; auto. now apply (proj2 (fromSet_In String.eqb String.eqb_eq _ _)).
Qed.

Lemma diffKeywords_removed (oldWords : list (option string)) (newWords : list string)
    (w : string) :
  In w (removed (diffKeywords oldWords newWords))
  <-> In (Some w) oldWords /\ w <> "" /\ ~ In w newWords.
Proof.
  unfold diffKeywords, arrayDiff; simpl.
  rewrite filter_In, includes_false, !truthyWords_In.
  rewrite (fromSet_In optString_eqb optString_eqb_eq), in_map_iff.
  split.
  - intros [[Hold Hne] Hn]. repeat split; auto.
    intro Hnew. apply Hn. split; auto.
    exists w. split; auto. now apply (proj2 (fromSet_In String.eqb String.eqb_eq _ _)).
  - intros [Hold [Hne Hn]]. split; [tauto|].
    intros [[x [E H]] _]. inversion E; subst x.
    now apply (proj1 (fromSet_In String.eqb String.eqb_eq _ _)) in H.
Qed.

(** C7: [diffKeywords] is a set diff of the two word lists once duplicates
    and empty strings are gone: a word is added exactly when it is a
    non-empty new word that is not an old word, removed exactly when it
    is a non-empty old word that is not a new word, and no word is
    reported twice; the two examples of the specification evaluate as
    stated. *)
Theorem diffKeywords_set_diff :
  diffKeywords [Some "a"; Some "b"] ["b"; "c"] = {| added := ["c"]; removed := ["a"] |}
  /\ diffKeywords [Some "a"; Some "a"] ["a"] = {| added := []; removed := [] |}
  /\ forall (oldWords : list (option string)) (newWords : list string),
       let diff := diffKeywords oldWords newWords in
       (forall w, In w (added diff)
                  <-> In w newWords /\ w <> "" /\ ~ In (Some w) oldWords)
       /\ (forall w, In w (removed diff)
                     <-> In (Some w) oldWords /\ w <> "" /\ ~ In w newWords)
       /\ NoDup (added diff) /\ NoDup (removed diff).
Proof.
  split; [reflexivity|]. split; [reflexivity|].
  intros oldWords newWords diff. subst diff.
  split; [intro w; apply diffKeywords_added|].
  split; [intro w; apply diffKeywords_removed|].
  unfold diffKeywords, arrayDiff; simpl. split.
  - apply NoDup_filter, truthyWords_NoDup, NoDup_map_Some.
    apply (fromSet_NoDup String.eqb String.eqb_eq).
  - apply NoDup_filter, truthyWords_NoDup.
    apply (fromSet_NoDup optString_eqb optString_eqb_eq).
Qed.

(* =============================================================== *)
(** ** Sequences of awaited requests *)

Lemma handle_Some (c : Call) (s s' : Server) :
  handle c s = Some s' ->
  received s' = received s ++ [c]
  /\ applyCall c (pushRules s) = Some (pushRules s')
  /\ rejects s' = rejects s
  /\ rejects s (List.length (received s)) = false.
Proof.
  unfold handle. destruct (rejects s (List.length (received s))); [discriminate|].
  destruct (applyCall c (pushRules s)) as [t|]; [|discriminate].
  intro H. inversion H; subst s'. simpl. auto.
Qed.

Lemma issue_nil (w : World) : issue [] w = (Return tt, w).
Proof. reflexivity. Qed.

Lemma issue_cons (c : Call) (cs : list Call) (w : World) :
  issue (c :: cs) w
  = match handle c (server w) with
    | Some s' => issue cs (withServer s' w)
    | None => (Throw (RequestRejected c), withServer (bounce c (server w)) w)
    end.
Proof.
  unfold issue; simpl. unfold bind, await, request.
  now destruct (handle c (server w)).
Qed.

Lemma issue_app (a b : list Call) :
  forall w, issue (a ++ b) w = (issue a ;;; issue b) w.
Proof.
  induction a as [|c a IH]; intro w.
  - reflexivity.
  - simpl. unfold bind in *. rewrite !issue_cons.
    destruct (handle c (server w)); [apply IH|reflexivity].
Qed.

Lemma withServer_idem (s s' : Server) (w : World) :
  withServer s' (withServer s w) = withServer s' w.
Proof. reflexivity. Qed.

(** Requests touch nothing but the server. *)
Lemma issue_frame (cs : list Call) :
  forall w, exists s', snd (issue cs w) = withServer s' w.
Proof.
  induction cs as [|c cs IH]; intro w.
  - exists (server w). now destruct w.
  - rewrite issue_cons. destruct (handle c (server w)) as [s1|].
    + destruct (IH (withServer s1 w)) as [s' E]. exists s'. now rewrite E.
    + now eexists.
Qed.

Lemma issue_state (cs : list Call) (w : World) : state (snd (issue cs w)) = state w.
Proof. destruct (issue_frame cs w) as [s' E]. now rewrite E. Qed.

(** A loop whose every iteration sends a list of requests sends their
    concatenation, as long as the iterations see the same state. *)
Lemma forOf_issue {A} (calls : A -> list Call) (body : A -> Async unit)
    (st0 : IState) (xs : list A) :
  (forall x w, state w = st0 -> body x w = issue (calls x) w) ->
  forall w, state w = st0 -> forOf xs body w = issue (flat_map calls xs) w.
Proof.
  intro Hbody. induction xs as [|x xs IH]; intros w Hst; [reflexivity|].
  simpl. rewrite issue_app. unfold bind. rewrite (Hbody x w Hst).
  pose proof (issue_state (calls x) w) as Hs.
  destruct (issue (calls x) w) as [[[]|e] w1]; [|reflexivity].
  apply IH. simpl in Hs. congruence.
Qed.

(** When no request is rejected, all are received, in order. *)
Lemma issue_accepted (cs : list Call) :
  forall w, firstRejected cs (server w) = None ->
  exists s',
    issue cs w = (Return tt, withServer s' w)
    /\ received s' = received (server w) ++ cs
    /\ applyAll cs (pushRules (server w)) = Some (pushRules s')
    /\ rejects s' = rejects (server w).
Proof.
  induction cs as [|c cs IH]; intros w H.
  - exists (server w). rewrite app_nil_r. destruct w; simpl; auto.
  - rewrite issue_cons. simpl in H.
    destruct (handle c (server w)) as [s1|] eqn:E; [|discriminate].
    destruct (firstRejected cs s1) eqn:F; [discriminate|].
    destruct (IH (withServer s1 w) F) as [s' [H1 [H2 [H3 H4]]]].
    apply handle_Some in E. destruct E as [E1 [E2 [E3 _]]].
    exists s'. simpl in *. rewrite E2. repeat split; auto.
    + rewrite H2, E1, <- app_assoc. reflexivity.
    + congruence.
Qed.

(** When the request at position [k] is the first to be rejected, the
    server has received the requests up to and including that one and no
    other, and its rule table is the result of the [k] accepted ones. *)
Lemma issue_rejected (cs : list Call) :
  forall w k, firstRejected cs (server w) = Some k ->
  exists s' c,
    nth_error cs k = Some c
    /\ issue cs w = (Throw (RequestRejected c), withServer s' w)
    /\ received s' = received (server w) ++ firstn (S k) cs
    /\ applyAll (firstn k cs) (pushRules (server w)) = Some (pushRules s').
Proof.
  induction cs as [|c cs IH]; intros w k H; [discriminate|].
  rewrite issue_cons. simpl in H.
  destruct (handle c (server w)) as [s1|] eqn:E.
  - destruct (firstRejected cs s1) as [j|] eqn:F; [|discriminate].
    inversion H; subst k.
    destruct (IH (withServer s1 w) j F) as [s' [c' [H1 [H2 [H3 H4]]]]].
    apply handle_Some in E. destruct E as [E1 [E2 _]].
    exists s', c'. simpl in *. rewrite E2. repeat split; auto.
    rewrite H3, E1, <- app_assoc. reflexivity.
  - inversion H; subst k. exists (bounce c (server w)), c. simpl. auto.
Qed.

(* =============================================================== *)
(** ** The refresh after a mutation *)

Lemma request_read {A} (c : Call) (payload : Server -> A) (w : World) :
  c = GetPushRules \/ c = GetPushers \/ c = GetThreePids ->
  exists o, request c payload w = (o, withServer (bounce c (server w)) w)
            /\ (rejects (server w) (List.length (received (server w))) = false ->
                o = Return (payload (bounce c (server w)))).
Proof.
  intro Hc. unfold request, handle.
  destruct (rejects (server w) (List.length (received (server w)))).
  - eexists. split; [reflexivity|discriminate].
  - destruct Hc as [->|[->| ->]]; simpl; eexists; split; reflexivity.
Qed.

(** The server after the three requests of a refresh. *)
Lemma refreshFromServer_spec (w : World) :
  exists st' log',
    refreshFromServer w
    = (Return tt,
       mkWorld st'
         (bounce GetThreePids (bounce GetPushers (bounce GetPushRules (server w))))
         (client w) (dialogs w) log')
    /\ (phase st' = Ready \/ phase st' = Error).
Proof.
  unfold refreshFromServer, tryCatch, bind, settle,
    refreshRules, refreshPushers, refreshThreepids, bind.
  destruct (request_read GetPushRules pushRules w) as [o1 [E1 _]]; auto.
  rewrite E1. clear E1.
  set (w1 := withServer (bounce GetPushRules (server w)) w).
  assert (exists o1', (let (o, w') :=
                         match o1 with
                         | Return a => lift (prepareRules a) w1
                         | Throw e => (Throw e, w1)
                         end in (Return o, w')) = (Return o1', w1)) as [o1' ->].
  { destruct o1; unfold lift; eexists; reflexivity. }
  destruct (request_read GetPushers srv_pushers w1) as [o2 [E2 _]]; auto.
  rewrite E2. clear E2.
  set (w2 := withServer (bounce GetPushers (server w1)) w1).
  destruct (request_read GetThreePids srv_threepids w2) as [o3 [E3 _]]; auto.
  rewrite E3. clear E3.
  destruct o1', o2, o3; simpl; eexists; eexists; split; try reflexivity; auto.
Qed.

Lemma refreshFromServer_received (w : World) :
  received (server (snd (refreshFromServer w))) = received (server w) ++ refreshCalls
  /\ pushRules (server (snd (refreshFromServer w))) = pushRules (server w)
  /\ dialogs (snd (refreshFromServer w)) = dialogs w
  /\ fst (refreshFromServer w) = Return tt.
Proof.
  destruct (refreshFromServer_spec w) as [st' [log' [E _]]]. rewrite E. simpl.
  rewrite <- !app_assoc. auto.
Qed.

(* =============================================================== *)
(** ** Saving: a mutation followed by a refresh, guarded by [try] *)

Section Saving.
Variable m : Async unit.
Variable plan : list Call.
Variable label : string.
Variable w : World.
Hypothesis m_plan : m w = (issue plan ;;; refreshFromServer) w.

Lemma saving_accepted :
  firstRejected plan (server w) = None ->
  let saved :=
    tryCatch m
      (fun e => setState (withPhase Error) ;;; loggerError label ;;; showSaveError) w in
    received (server (snd saved)) = received (server w) ++ plan ++ refreshCalls
    /\ applyAll plan (pushRules (server w)) = Some (pushRules (server (snd saved)))
    /\ dialogs (snd saved) = dialogs w
    /\ fst saved = Return tt.
Proof.
  intros H saved. subst saved. destruct (issue_accepted plan w H) as [s' [E [H1 [H2 _]]]].
  assert (Hm : m w = refreshFromServer (withServer s' w)).
  { rewrite m_plan. unfold bind. now rewrite E. }
  pose proof (refreshFromServer_received (withServer s' w)) as [R1 [R2 [R3 R4]]].
  unfold tryCatch. rewrite Hm.
  destruct (refreshFromServer (withServer s' w)) as [[[]|e] w2]; simpl in *;
    [|discriminate].
  rewrite R1, R2, H1, H2, <- app_assoc. auto.
Qed.

Lemma saving_rejected (k : nat) :
  firstRejected plan (server w) = Some k ->
  let saved :=
    tryCatch m
      (fun e => setState (withPhase Error) ;;; loggerError label ;;; showSaveError) w in
    received (server (snd saved)) = received (server w) ++ firstn (S k) plan
    /\ applyAll (firstn k plan) (pushRules (server w))
       = Some (pushRules (server (snd saved)))
    /\ phase (state (snd saved)) = Error
    /\ dialogs (snd saved) = dialogs w ++ [_t "Error saving notification preferences"]
    /\ fst saved = Return tt.
Proof.
  intros H saved. subst saved. destruct (issue_rejected plan w k H) as [s' [c [_ [E [H1 H2]]]]].
  assert (Hm : m w = (Throw (RequestRejected c), withServer s' w)).
  { rewrite m_plan. unfold bind. now rewrite E. }
  unfold tryCatch. rewrite Hm. simpl. auto.
Qed.
End Saving.

(* =============================================================== *)
(** ** The requests of each method *)

Lemma bind_ret_r (m : Async unit) (w : World) : (m ;;; ret tt) w = m w.
Proof. unfold bind, ret. destruct (m w) as [[[]|e] w']; reflexivity. Qed.

Lemma issue_one (c : Call) (w : World) : issue [c] w = await c w.
Proof. unfold issue; simpl. apply bind_ret_r. Qed.

Lemma issue_two (c1 c2 : Call) (w : World) :
  issue [c1; c2] w = (await c1 ;;; await c2) w.
Proof.
  unfold issue; simpl. unfold bind at 1. unfold bind at 2.
  destruct (await c1 w) as [[[]|e] w']; [apply bind_ret_r|reflexivity].
Qed.

Lemma setPushRuleActions_issue (id : string) (k : PushRuleKind)
    (acts : option (list PushRuleAction)) (w : World) :
  setPushRuleActions id k acts w = issue (ruleCalls id k acts) w.
Proof.
  destruct acts as [a|]; simpl; [now rewrite issue_two|now rewrite issue_one].
Qed.

Lemma updateSyncedRules_issue (ids : option (list string))
    (acts : option (list PushRuleAction)) (w : World) :
  updateSyncedRules ids acts w = issue (syncedCalls (client w) ids acts) w.
Proof.
  unfold updateSyncedRules, bind, getClient. destruct ids as [l|]; [|reflexivity].
  simpl. apply forOf_issue with (st0 := state w); [|reflexivity].
  intros x w' _. apply setPushRuleActions_issue.
Qed.

Lemma radio_issue (definition : VectorPushRuleDefinition)
    (target : IAnnotatedPushRule) (checkedState : VectorState) (w : World) :
  (setPushRuleActions (rule_id target) (kind target)
     (vectorStateToActions definition checkedState) ;;;
   updateSyncedRules (syncedRuleIds definition)
     (vectorStateToActions definition checkedState)) w
  = issue (radioCalls (client w) definition target checkedState) w.
Proof.
  unfold radioCalls. rewrite issue_app. unfold bind.
  rewrite setPushRuleActions_issue.
  destruct (issue_frame (ruleCalls (rule_id target) (kind target)
              (vectorStateToActions definition checkedState)) w) as [s' E].
  destruct (issue _ w) as [[[]|e] w1]; [|reflexivity].
  simpl in E. subst w1.
  exact (updateSyncedRules_issue _ _ (withServer s' w)).
Qed.

Lemma updateKeywordRule_issue (checkedState : VectorState) (info : IContentRules)
    (r : IAnnotatedPushRule) (w : World) :
  vectorKeywordRuleInfo (state w) = Some info ->
  updateKeywordRule checkedState r w = issue (keywordRuleCalls checkedState info r) w.
Proof.
  intro H. unfold updateKeywordRule, keywordRuleCalls, rewritesActions, setsEnabled.
  unfold bind at 1. unfold getState. rewrite H.
  destruct checkedState; simpl;
    repeat match goal with
           | |- context [negb ?b] => destruct b; simpl
           | |- context [VectorState_eqb ?a ?b] => destruct (VectorState_eqb a b); simpl
           end;
    rewrite ?issue_two, ?issue_one, ?issue_nil; try reflexivity;
    unfold bind, ret;
    match goal with
    | |- context [await ?c w] => destruct (await c w) as [[[]|e] w1]; reflexivity
    end.
Qed.

Lemma keywords_issue (checkedState : VectorState) (info : IContentRules) (w : World) :
  vectorKeywordRuleInfo (state w) = Some info ->
  forOf (kw_rules info) (updateKeywordRule checkedState) w
  = issue (keywordCalls checkedState info) w.
Proof.
  intro H. unfold keywordCalls.
  apply forOf_issue with (st0 := state w); [|reflexivity].
  intros x w' E. apply updateKeywordRule_issue. now rewrite E.
Qed.

Lemma forOf_await {A} (f : A -> Call) (xs : list A) :
  forall w, forOf xs (fun x => await (f x)) w = issue (map f xs) w.
Proof.
  unfold issue. induction xs as [|x xs IH]; intro w; simpl; [reflexivity|].
  unfold bind. destruct (await (f x) w) as [[[]|e] w1]; [apply IH|reflexivity].
Qed.

Lemma deletes_issue (words : list string) (originalRules : list IAnnotatedPushRule)
    (w : World) :
  forOf words
    (fun word =>
       forOf (filter (hasPattern word) originalRules)
         (fun r => await (DeletePushRule "global" (kind r) (rule_id r)))) w
  = issue (deleteCalls words originalRules) w.
Proof.
  unfold deleteCalls. apply forOf_issue with (st0 := state w); [|reflexivity].
  intros word w1 _. apply forOf_await.
Qed.

Lemma bind_issue {B} (m : Async unit) (cs : list Call) (k k' : unit -> Async B)
    (w : World) :
  m w = issue cs w ->
  (forall w1, state w1 = state w -> client w1 = client w -> k tt w1 = k' tt w1) ->
  bind m k w = bind (issue cs) k' w.
Proof.
  intros Hm Hk. unfold bind. rewrite Hm.
  destruct (issue_frame cs w) as [s' E].
  destruct (issue cs w) as [[[]|e] w1]; [|reflexivity].
  simpl in E. subst w1. now apply Hk.
Qed.

Lemma issue_app_bind {B} (a b : list Call) (k : unit -> Async B) (w : World) :
  bind (issue (a ++ b)) k w = bind (issue a) (fun _ => bind (issue b) k) w.
Proof.
  unfold bind at 1 2. rewrite issue_app. unfold bind at 1.
  destruct (issue a w) as [[[]|e] w1]; reflexivity.
Qed.

Lemma adds_issue (s : VectorState) (words : list string) (w : World) :
  forOf words
    (fun word =>
       await (AddPushRule "global" ContentSpecific word (actionsFor s) word) ;;;
       if VectorState_eqb s Off
       then await (SetPushRuleEnabled "global" ContentSpecific word false)
       else ret tt) w
  = issue (addCalls s words) w.
Proof.
  unfold addCalls. apply forOf_issue with (st0 := state w); [|reflexivity].
  intros word w1 _. destruct (VectorState_eqb s Off).
  - now rewrite issue_two.
  - rewrite issue_one. apply bind_ret_r.
Qed.

(** The guarded body of [setKeywords]. *)
Lemma setKeywords_body (keywords : list string)
    (originalRules : list IAnnotatedPushRule) (info : IContentRules) (w : World) :
  vectorKeywordRuleInfo (state w) = Some info ->
  (let diff := diffKeywords (map pattern originalRules) keywords in
   forOf (removed diff)
     (fun word =>
        forOf (filter (hasPattern word) originalRules)
          (fun r => await (DeletePushRule "global" (kind r) (rule_id r)))) ;;;
   st <- getState ;;
   match vectorKeywordRuleInfo st with
   | None => throw TypeError
   | Some info =>
       let ruleVectorState := newKeywordState info originalRules in
       let k := ContentSpecific in
       forOf (added diff)
         (fun word =>
            await (AddPushRule "global" k word (actionsFor ruleVectorState) word) ;;;
            if VectorState_eqb ruleVectorState Off
            then await (SetPushRuleEnabled "global" k word false)
            else ret tt) ;;;
       refreshFromServer
   end) w
  = (issue (setKeywordsCalls info keywords originalRules) ;;; refreshFromServer) w.
Proof.
  intro H. cbv zeta. unfold setKeywordsCalls.
  set (diff := diffKeywords (map pattern originalRules) keywords).
  rewrite issue_app_bind.
  apply bind_issue; [apply deletes_issue|].
  intros w1 Hs _. unfold bind at 1. unfold getState. rewrite Hs, H.
  apply bind_issue; [apply adds_issue|reflexivity].
Qed.

(** The guarded body of [onRadioChecked], for the keywords row and for
    the row of a rule. *)
Lemma onRadioChecked_keywords_body (r : IVectorPushRule) (checkedState : VectorState)
    (info : IContentRules) (w : World) :
  (ruleId r =? KEYWORD_RULE_ID) = true ->
  vectorKeywordRuleInfo (state w) = Some info ->
  ((if ruleId r =? KEYWORD_RULE_ID then
      st <- getState ;;
      match vectorKeywordRuleInfo st with
      | None => throw TypeError
      | Some info => forOf (kw_rules info) (updateKeywordRule checkedState)
      end
    else
      match VectorPushRulesDefinitions (ruleId r), rule r with
      | Some definition, Some target =>
          let acts := vectorStateToActions definition checkedState in
          setPushRuleActions (rule_id target) (kind target) acts ;;;
          updateSyncedRules (syncedRuleIds definition) acts
      | _, _ => throw TypeError
      end) ;;;
   refreshFromServer) w
  = (issue (keywordCalls checkedState info) ;;; refreshFromServer) w.
Proof.
  intros Hk H. rewrite Hk. apply bind_issue; [|reflexivity].
  unfold bind, getState. rewrite H. now apply keywords_issue.
Qed.

Lemma onRadioChecked_rule_body (r : IVectorPushRule) (checkedState : VectorState)
    (definition : VectorPushRuleDefinition) (target : IAnnotatedPushRule)
    (w : World) :
  (ruleId r =? KEYWORD_RULE_ID) = false ->
  VectorPushRulesDefinitions (ruleId r) = Some definition ->
  rule r = Some target ->
  ((if ruleId r =? KEYWORD_RULE_ID then
      st <- getState ;;
      match vectorKeywordRuleInfo st with
      | None => throw TypeError
      | Some info => forOf (kw_rules info) (updateKeywordRule checkedState)
      end
    else
      match VectorPushRulesDefinitions (ruleId r), rule r with
      | Some definition, Some target =>
          let acts := vectorStateToActions definition checkedState in
          setPushRuleActions (rule_id target) (kind target) acts ;;;
          updateSyncedRules (syncedRuleIds definition) acts
      | _, _ => throw TypeError
      end) ;;;
   refreshFromServer) w
  = (issue (radioCalls (client w) definition target checkedState) ;;;
     refreshFromServer) w.
Proof.
  intros Hk Hd Ht. rewrite Hk, Hd, Ht. cbv zeta.
  apply bind_issue; [apply radio_issue|reflexivity].
Qed.

(* =============================================================== *)
(** ** Applying a state to a rule and its synced rules *)

(** C3: on the row of a rule, [onRadioChecked] sends the requests of the
    rule itself and then, for every synced rule that exists for the user
    and in the order of [syncedRuleIds], the same requests
    ([setPushRuleActions]: set the actions, then enable; or the single
    disable when the state has no actions).  If none is rejected they are
    all received, followed by the refresh.  If the request at position [k]
    is the first to be rejected, the server has received exactly the
    requests up to and including that one: no later sibling is touched,
    the rule table is the one the [k] accepted requests produced (nothing
    is undone), the phase is Error and the save-error dialog is shown. *)
Theorem onRadioChecked_synced_rules_stop_at_first_failure
    (r : IVectorPushRule) (checkedState : VectorState)
    (definition : VectorPushRuleDefinition) (target : IAnnotatedPushRule)
    (w : World) :
  (ruleId r =? KEYWORD_RULE_ID) = false ->
  VectorPushRulesDefinitions (ruleId r) = Some definition ->
  rule r = Some target ->
  let acts := vectorStateToActions definition checkedState in
  let siblings := match syncedRuleIds definition with
                  | Some ids => existingRules (client w) ids
                  | None => []
                  end in
  let plan := ruleCalls (rule_id target) (kind target) acts
              ++ flat_map (fun kr => ruleCalls (pr_rule_id (snd kr)) (fst kr) acts)
                   siblings in
  let w' := snd (onRadioChecked r checkedState w) in
  match firstRejected plan (server w) with
  | None =>
      received (server w') = received (server w) ++ plan ++ refreshCalls
      /\ applyAll plan (pushRules (server w)) = Some (pushRules (server w'))
      /\ dialogs w' = dialogs w
  | Some k =>
      received (server w') = received (server w) ++ firstn (S k) plan
      /\ applyAll (firstn k plan) (pushRules (server w))
         = Some (pushRules (server w'))
      /\ phase (state w') = Error
      /\ dialogs w' = dialogs w ++ [_t "Error saving notification preferences"]
  end.
Proof.
  intros Hk Hd Ht acts siblings plan w'.
  assert (Hplan : plan = radioCalls (client w) definition target checkedState).
  { subst plan siblings acts. unfold radioCalls, syncedCalls.
    now destruct (syncedRuleIds definition). }
  set (w1 := mkWorld (withPhase Persisting (state w)) (server w) (client w)
               (dialogs w) (errorLog w)).
  pose proof (onRadioChecked_rule_body r checkedState definition target w1 Hk Hd Ht)
    as Hbody.
  change (client w1) with (client w) in Hbody. rewrite <- Hplan in Hbody.
  destruct (firstRejected plan (server w)) as [k|] eqn:F.
  - destruct (saving_rejected _ plan "Error updating push rule:" w1 Hbody k F)
      as [H1 [H2 [H3 [H4 _]]]].
    repeat split; assumption.
  - destruct (saving_accepted _ plan "Error updating push rule:" w1 Hbody F)
      as [H1 [H2 [H3 _]]].
    repeat split; assumption.
Qed.

(* =============================================================== *)
(** ** The keywords row *)

(** C5: on the keywords row with target On or Loud, and when no request
    is rejected, each keyword rule contributes, in order: a rewrite of
    its actions exactly when its action count is not the canonical one
    (1 for On, 3 for Loud), then an explicit enable exactly when the
    aggregate state was Off. *)
Theorem onRadioChecked_keywords_rewrites_and_enables
    (r : IVectorPushRule) (checkedState : VectorState)
    (info : IContentRules) (w : World) :
  (ruleId r =? KEYWORD_RULE_ID) = true ->
  vectorKeywordRuleInfo (state w) = Some info ->
  checkedState <> Off ->
  let canonical := match checkedState with
                   | Loud => 3
                   | _ => 1
                   end in
  let sentFor (kr : IAnnotatedPushRule) :=
    (if (List.length (actions kr) =? canonical)%nat then []
     else [SetPushRuleActions "global" (kind kr) (rule_id kr) (actionsFor checkedState)])
    ++ (if VectorState_eqb (kw_vectorState info) Off
        then [SetPushRuleEnabled "global" (kind kr) (rule_id kr) true]
        else []) in
  let plan := flat_map sentFor (kw_rules info) in
  firstRejected plan (server w) = None ->
  let w' := snd (onRadioChecked r checkedState w) in
  received (server w') = received (server w) ++ plan ++ refreshCalls
  /\ applyAll plan (pushRules (server w)) = Some (pushRules (server w')).
Proof.
  intros Hk Hi Hoff canonical sentFor plan F w'.
  assert (Hplan : plan = keywordCalls checkedState info).
  { subst plan sentFor canonical. unfold keywordCalls.
    apply flat_map_ext. intro kr.
    unfold keywordRuleCalls, rewritesActions, setsEnabled.
    destruct checkedState; [congruence| |];
      destruct (List.length (actions kr) =? _)%nat;
      destruct (VectorState_eqb (kw_vectorState info) Off); reflexivity. }
  set (w1 := mkWorld (withPhase Persisting (state w)) (server w) (client w)
               (dialogs w) (errorLog w)).
  pose proof (onRadioChecked_keywords_body r checkedState info w1 Hk Hi) as Hbody.
  rewrite <- Hplan in Hbody.
  destruct (saving_accepted _ plan "Error updating push rule:" w1 Hbody F)
    as [H1 [H2 _]].
  split; assumption.
Qed.

(** C6: the requests of the keywords row are sent one after another and
    stop at the first rejection.  If the request at position [k] is the
    first to be rejected (the second request is [k = 1]), the server has
    received exactly the first [k + 1] requests, so the third and all
    later ones are never sent; the rule table is the one the [k] accepted
    requests produced; the phase is Error and the save-error dialog is
    shown. *)
Theorem onRadioChecked_keywords_halts_at_first_failure
    (r : IVectorPushRule) (checkedState : VectorState)
    (info : IContentRules) (w : World) (k : nat) :
  (ruleId r =? KEYWORD_RULE_ID) = true ->
  vectorKeywordRuleInfo (state w) = Some info ->
  let plan := keywordCalls checkedState info in
  firstRejected plan (server w) = Some k ->
  let w' := snd (onRadioChecked r checkedState w) in
  received (server w') = received (server w) ++ firstn (S k) plan
  /\ List.length (received (server w')) = List.length (received (server w)) + S k
  /\ applyAll (firstn k plan) (pushRules (server w)) = Some (pushRules (server w'))
  /\ phase (state w') = Error
  /\ dialogs w' = dialogs w ++ [_t "Error saving notification preferences"]
  /\ fst (onRadioChecked r checkedState w) = Return tt.
Proof.
  intros Hk Hi plan F w'.
  set (w1 := mkWorld (withPhase Persisting (state w)) (server w) (client w)
               (dialogs w) (errorLog w)).
  pose proof (onRadioChecked_keywords_body r checkedState info w1 Hk Hi) as Hbody.
  destruct (saving_rejected _ plan "Error updating push rule:" w1 Hbody k F)
    as [H1 [H2 [H3 [H4 H5]]]].
  destruct (issue_rejected plan w k F) as [_ [c [Hn _]]].
  repeat split; try assumption.
  subst w'. change (onRadioChecked r checkedState w)
    with (tryCatch
            ((if ruleId r =? KEYWORD_RULE_ID then
                st <- getState ;;
                match vectorKeywordRuleInfo st with
                | None => throw TypeError
                | Some info => forOf (kw_rules info) (updateKeywordRule checkedState)
                end
              else
                match VectorPushRulesDefinitions (ruleId r), rule r with
                | Some definition, Some target =>
                    let acts := vectorStateToActions definition checkedState in
                    setPushRuleActions (rule_id target) (kind target) acts ;;;
                    updateSyncedRules (syncedRuleIds definition) acts
                | _, _ => throw TypeError
                end) ;;;
             refreshFromServer)
            (fun e =>
               setState (withPhase Error) ;;;
               loggerError "Error updating push rule:" ;;;
               showSaveError) w1).
  rewrite H1, length_app, length_firstn.
  assert (k < List.length plan) by (apply nth_error_Some; congruence).
  change (server w1) with (server w). lia.
Qed.

(** X26: the same for [setKeywords]: deletions, then additions, one request
    after another, stopping at the first rejection.  Exactly the requests
    up to the rejected one reach the server, the accepted ones stay
    applied, the phase is Error and the save-error dialog is shown. *)
Theorem setKeywords_halts_at_first_failure
    (keywords : list string) (originalRules : list IAnnotatedPushRule)
    (info : IContentRules) (w : World) (k : nat) :
  vectorKeywordRuleInfo (state w) = Some info ->
  let plan := setKeywordsCalls info keywords originalRules in
  firstRejected plan (server w) = Some k ->
  let w' := snd (setKeywords keywords originalRules w) in
  received (server w') = received (server w) ++ firstn (S k) plan
  /\ applyAll (firstn k plan) (pushRules (server w)) = Some (pushRules (server w'))
  /\ phase (state w') = Error
  /\ dialogs w' = dialogs w ++ [_t "Error saving notification preferences"].
Proof.
  intros Hi plan F w'.
  pose proof (setKeywords_body keywords originalRules info w Hi) as Hbody.
  destruct (saving_rejected _ plan "Error updating keyword push rules:" w Hbody k F)
    as [H1 [H2 [H3 [H4 _]]]].
  repeat split; assumption.
Qed.

Theorem setKeywords_accepted
    (keywords : list string) (originalRules : list IAnnotatedPushRule)
    (info : IContentRules) (w : World) :
  vectorKeywordRuleInfo (state w) = Some info ->
  let plan := setKeywordsCalls info keywords originalRules in
  firstRejected plan (server w) = None ->
  let w' := snd (setKeywords keywords originalRules w) in
  received (server w') = received (server w) ++ plan ++ refreshCalls
  /\ applyAll plan (pushRules (server w)) = Some (pushRules (server w')).
Proof.
  intros Hi plan F w'.
  pose proof (setKeywords_body keywords originalRules info w Hi) as Hbody.
  destruct (saving_accepted _ plan "Error updating keyword push rules:" w Hbody F)
    as [H1 [H2 _]].
  split; assumption.
Qed.

(** With no keyword rule to take the flavor from, the state of a new
    keyword rule is never Off, so the disable that follows
    [addPushRule] in [setKeywords] is never sent. *)
Lemma newKeywordState_without_rules (info : IContentRules) :
  VectorState_eqb (newKeywordState info []) Off = false
  /\ (kw_vectorState info = Off -> newKeywordState info [] = On).
Proof.
  unfold newKeywordState. destruct (kw_vectorState info); simpl; split; congruence.
Qed.

Theorem setKeywords_without_rules_never_disables
    (keywords : list string) (info : IContentRules) :
  setKeywordsCalls info keywords []
  = map (fun word => AddPushRule "global" ContentSpecific word
                       (actionsFor (newKeywordState info [])) word)
      (added (diffKeywords [] keywords)).
Proof.
  unfold setKeywordsCalls, deleteCalls, addCalls. simpl.
  destruct (newKeywordState_without_rules info) as [E _]. rewrite E.
  induction (filter _ _) as [|x l IH]; [reflexivity|]. simpl. now rewrite IH.
Qed.

(** [setKeywords] sends a disable only when the state it creates the new
    rules with is Off; from an aggregate Off that state is the flavor of
    the first existing rule, or On when there is none. *)
Lemma setKeywordsCalls_disable (keywords : list string)
    (originalRules : list IAnnotatedPushRule) (info : IContentRules)
    (scope : string) (k : PushRuleKind) (id : string) (on : bool) :
  In (SetPushRuleEnabled scope k id on) (setKeywordsCalls info keywords originalRules) ->
  newKeywordState info originalRules = Off
  /\ (kw_vectorState info = Off ->
      exists first rest, originalRules = first :: rest
                         /\ contentRuleVectorStateKind first = Off).
Proof.
  unfold setKeywordsCalls. rewrite in_app_iff. intros [H|H].
  - unfold deleteCalls in H. apply in_flat_map in H. destruct H as [word [_ H]].
    apply in_map_iff in H. destruct H as [r [E _]]. discriminate.
  - unfold addCalls in H. apply in_flat_map in H. destruct H as [word [_ H]].
    destruct H as [E|H]; [discriminate|].
    destruct (VectorState_eqb (newKeywordState info originalRules) Off) eqn:E;
      [|destruct H].
    apply VectorState_eqb_eq in E. split; [exact E|].
    intro Hoff. unfold newKeywordState in E. rewrite Hoff in E. simpl in E.
    destruct originalRules as [|first rest]; [discriminate|eauto].
Qed.

(* =============================================================== *)
(** ** Disabling a rule *)

Lemma PushRuleKind_eqb_refl (k : PushRuleKind) : PushRuleKind_eqb k k = true.
Proof. now destruct k. Qed.

Lemma rulesOfKind_set (k : PushRuleKind) (l : list IPushRule) (t : RuleSets) :
  rulesOfKind k (setRulesOfKind k l t) = l.
Proof.
  induction t as [|[k' l'] t IH]; simpl.
  - now rewrite PushRuleKind_eqb_refl.
  - destruct (PushRuleKind_eqb k' k) eqn:E; simpl; rewrite E; auto.
Qed.

Lemma find_updateRule (f : IPushRule -> IPushRule) (id : string) (l : list IPushRule) :
  (forall r, pr_rule_id (f r) = pr_rule_id r) ->
  find (fun r => pr_rule_id r =? id) (updateRule f id l)
  = option_map f (find (fun r => pr_rule_id r =? id) l).
Proof.
  intro Hf. induction l as [|r l IH]; [reflexivity|].
  simpl. destruct (pr_rule_id r =? id) eqn:E.
  - now rewrite Hf, E.
  - now rewrite E.
Qed.

Lemma hasRule_find (id : string) (l : list IPushRule) :
  hasRule id l = true -> exists r, find (fun r => pr_rule_id r =? id) l = Some r.
Proof.
  induction l as [|r l IH]; simpl; [discriminate|].
  destruct (pr_rule_id r =? id); [eauto|exact IH].
Qed.

(** An accepted [setPushRuleEnabled] changes the enabled flag of the
    stored rule and nothing else of it. *)
Lemma applyCall_SetPushRuleEnabled (scope : string) (k : PushRuleKind) (id : string)
    (on : bool) (t t' : RuleSets) :
  applyCall (SetPushRuleEnabled scope k id on) t = Some t' ->
  exists r, storedRule k id t = Some r
            /\ storedRule k id t'
               = Some (mkPushRule (pr_rule_id r) on (pr_actions r) (pr_pattern r)).
Proof.
  unfold applyCall, storedRule.
  destruct (hasRule id (rulesOfKind k t)) eqn:E; [|discriminate].
  intro H. inversion H; subst t'. clear H.
  destruct (hasRule_find id _ E) as [r Hr]. exists r. split; [exact Hr|].
  rewrite rulesOfKind_set, find_updateRule by reflexivity. now rewrite Hr.
Qed.

(** C4: [setPushRuleActions] without actions (the target state maps to no
    actions) sends the single request that disables the rule, and no
    [setPushRuleActions] request.  When the server accepts it, the stored
    rule has [enabled = false] and the actions (and id and pattern) it
    had before; when it rejects it, the rule table is unchanged. *)
Theorem setPushRuleActions_without_actions_only_disables
    (id : string) (k : PushRuleKind) (w : World) :
  let disable := SetPushRuleEnabled "global" k id false in
  let result := setPushRuleActions id k None w in
  received (server (snd result)) = received (server w) ++ [disable]
  /\ match fst result with
     | Return _ =>
         exists r,
           storedRule k id (pushRules (server w)) = Some r
           /\ storedRule k id (pushRules (server (snd result)))
              = Some (mkPushRule (pr_rule_id r) false (pr_actions r) (pr_pattern r))
     | Throw _ => pushRules (server (snd result)) = pushRules (server w)
     end.
Proof.
  intros disable result. subst result disable. simpl. unfold await, request.
  destruct (handle _ (server w)) as [s'|] eqn:E; simpl.
  - apply handle_Some in E. destruct E as [E1 [E2 _]]. split; [exact E1|].
    now apply applyCall_SetPushRuleEnabled with (scope := "global").
  - auto.
Qed.

(* =============================================================== *)
(** ** A refresh without a master rule *)

Lemma categories_Master (id : string) :
  categories id = Some Master -> id = RuleId.Master.
Proof.
  unfold categories.
  destruct (id =? RuleId.Master) eqn:E; [intros _; now apply String.eqb_eq|].
  repeat match goal with
         | |- context [if ?b then _ else _] => destruct b; try discriminate
         end.
Qed.

Lemma collectRule_master (k : PushRuleKind) (d : DefaultRules) (r : IPushRule) :
  pr_rule_id r <> RuleId.Master -> master (collectRule k d r) = master d.
Proof.
  intro H. unfold collectRule. simpl.
  destruct (startsWithDot (pr_rule_id r)); [|reflexivity].
  destruct (categories (pr_rule_id r)) as [c|] eqn:E; [|reflexivity].
  destruct c; try reflexivity. apply categories_Master in E. contradiction.
Qed.

Lemma collectDefaultRules_master (ruleSets : RuleSets) :
  (forall k rs r, In (k, rs) ruleSets -> In r rs -> pr_rule_id r <> RuleId.Master) ->
  master (collectDefaultRules ruleSets) = [].
Proof.
  unfold collectDefaultRules.
  assert (G : forall d, master d = [] ->
              (forall k rs r, In (k, rs) ruleSets -> In r rs ->
                              pr_rule_id r <> RuleId.Master) ->
              master (fold_left (fun d kr => fold_left (collectRule (fst kr)) (snd kr) d)
                        ruleSets d) = []).
  { induction ruleSets as [|[k rs] t IH]; intros d Hd H; [exact Hd|].
    simpl. apply IH.
    - assert (Hrs : forall r, In r rs -> pr_rule_id r <> RuleId.Master)
        by (intros r Hr; apply (H k rs r); [now left|exact Hr]).
      clear H IH. revert d Hd. induction rs as [|r rs IHrs]; intros d Hd; [exact Hd|].
      simpl. apply IHrs.
      + intros r' Hr'. apply Hrs. now right.
      + rewrite collectRule_master; [exact Hd|]. apply Hrs. now left.
    - intros k' rs' r' Hin. apply (H k' rs' r'). now right. }
  intro H. now apply G.
Qed.

Lemma refreshRules_frame (w : World) :
  exists o, refreshRules w = (o, withServer (bounce GetPushRules (server w)) w)
            /\ (forall e, prepareRules (pushRules (server w)) = Throw e ->
                          exists e', o = Throw e')
            /\ (rejects (server w) (List.length (received (server w))) = false ->
                o = prepareRules (pushRules (server w))).
Proof.
  unfold refreshRules, bind.
  destruct (request_read GetPushRules pushRules w) as [o1 [E1 E2]]; auto.
  rewrite E1. destruct o1 as [a|e]; unfold lift.
  - destruct (rejects (server w) (List.length (received (server w)))) eqn:R.
    + unfold request, handle in E1. rewrite R in E1. discriminate.
    + specialize (E2 eq_refl). inversion E2; subst a. simpl.
      eexists. split; [reflexivity|]. split; eauto.
  - eexists. split; [reflexivity|]. split; [eauto|].
    intro R. specialize (E2 R). discriminate.
Qed.

(** A refresh whose rule refresh throws ends in the Error phase. *)
Lemma refreshFromServer_rules_throw (w : World) (e : Exception) :
  fst (refreshRules w) = Throw e ->
  fst (refreshFromServer w) = Return tt
  /\ phase (state (snd (refreshFromServer w))) = Error.
Proof.
  intro H. unfold refreshFromServer, tryCatch, bind, settle.
  destruct (refreshRules w) as [o1 w1]. simpl in H. subst o1.
  destruct (refreshPushers w1) as [o2 w2].
  destruct (refreshThreepids w2) as [o3 w3].
  destruct o2, o3; simpl; auto.
Qed.

(** C8: if no fetched rule is the master rule, [refreshRules] throws
    "Failed to locate a master push rule" (or the rejection of the fetch
    itself): it never resolves; and [refreshFromServer] catches the
    exception and leaves the component in the Error phase, not Ready. *)
Theorem refreshRules_without_master_raises (w : World) :
  (forall k rs r, In (k, rs) (pushRules (server w)) -> In r rs ->
                  pr_rule_id r <> RuleId.Master) ->
  prepareRules (pushRules (server w))
  = Throw (Failure "Failed to locate a master push rule")
  /\ (exists e, fst (refreshRules w) = Throw e)
  /\ (rejects (server w) (List.length (received (server w))) = false ->
      fst (refreshRules w) = Throw (Failure "Failed to locate a master push rule"))
  /\ fst (refreshFromServer w) = Return tt
  /\ phase (state (snd (refreshFromServer w))) = Error.
Proof.
  intro H.
  assert (P : prepareRules (pushRules (server w))
              = Throw (Failure "Failed to locate a master push rule")).
  { unfold prepareRules. now rewrite collectDefaultRules_master. }
  destruct (refreshRules_frame w) as [o [E [T A]]].
  destruct (T _ P) as [e' He'].
  assert (F : fst (refreshRules w) = Throw e') by (rewrite E; exact He').
  split; [exact P|]. split; [eauto|]. split.
  - intro R. rewrite E. simpl. rewrite (A R). exact P.
  - now apply refreshFromServer_rules_throw with (e := e').
Qed.

(* =============================================================== *)
(** ** Rendering while inhibited *)

(** C9 (as the code has it): while the master rule is enabled, the top
    section is the master switch alone, no category renders its grid of
    rule rows and no targets are rendered; the Other category still
    renders its floating section with the "Mark all as read" button when
    some room has unread notifications, and nothing otherwise.  In the
    Ready and Persisting phases the rendered output is made of exactly
    these. *)
Theorem inhibited_renders_master_switch_and_utility_button (w : World) :
  isInhibited (state w) = true ->
  let st := state w in
  let otherSection :=
    if hasUnread (client w)
    then Some (FloatingSection (_t "Other")
                 [AccessibleButton "clear-notifications" (_t "Mark all as read")
                    (clearingNotifications st)])
    else None in
  renderTopSection st = Return (masterSwitch st)
  /\ (forall category,
        renderCategory (client w) st category
        = Return (if RuleClass_eqb category VectorOther then otherSection else None))
  /\ renderTargets st = Return None
  /\ (phase st = Ready \/ phase st = Persisting ->
      render w
      = Return (UserNotifSettings
                  [Some (masterSwitch st); None; None; otherSection; None])).
Proof.
  intros H st otherSection. subst st otherSection.
  assert (T : renderTopSection (state w) = Return (masterSwitch (state w)))
    by (unfold renderTopSection; now rewrite H).
  assert (C : forall category,
             renderCategory (client w) (state w) category
             = Return (if RuleClass_eqb category VectorOther
                       then if hasUnread (client w)
                            then Some (FloatingSection (_t "Other")
                                   [AccessibleButton "clear-notifications"
                                      (_t "Mark all as read")
                                      (clearingNotifications (state w))])
                            else None
                       else None)).
  { intro category. unfold renderCategory. rewrite H.
    destruct category; simpl; try reflexivity.
    now destruct (hasUnread (client w)). }
  assert (G : renderTargets (state w) = Return None)
    by (unfold renderTargets; now rewrite H).
  repeat split; auto.
  intro P. unfold render. rewrite T, !C, G. simpl.
  destruct P as [P|P]; now rewrite P.
Qed.

(* =============================================================== *)
(** ** Looking a rule up in the default rules *)

Lemma findRule_Some (id : string) (l : list IAnnotatedPushRule) (r : IAnnotatedPushRule) :
  findRule id l = Some r -> In r l /\ rule_id r = id.
Proof.
  unfold findRule. intro H. apply find_some in H. destruct H as [H1 H2].
  split; [exact H1|]. now apply String.eqb_eq.
Qed.

Lemma findRule_None (id : string) (l : list IAnnotatedPushRule) :
  findRule id l = None <-> forall r, In r l -> rule_id r <> id.
Proof.
  unfold findRule. split.
  - intros H r Hr E. apply (find_none _ _ H) in Hr. simpl in Hr.
    apply String.eqb_neq in Hr. contradiction.
  - intro H. induction l as [|x l IH]; [reflexivity|].
    simpl. destruct (rule_id x =? id) eqn:E.
    + apply String.eqb_eq in E. exfalso. apply (H x); [now left|exact E].
    + apply IH. intros r Hr. apply H. now right.
Qed.

Lemma findInCategories_Some (id : string) (R : DefaultRules) (cs : list RuleClass)
    (r : IAnnotatedPushRule) :
  findInCategories id R cs = Some r ->
  rule_id r = id /\ exists c, In c cs /\ In r (rulesOf R c).
Proof.
  induction cs as [|c cs IH]; simpl; [discriminate|].
  destruct (findRule id (rulesOf R c)) as [x|] eqn:E.
  - intro H. inversion H; subst x. apply findRule_Some in E. destruct E as [E1 E2].
    split; [exact E2|]. exists c. split; [now left|exact E1].
  - intro H. destruct (IH H) as [H1 [c' [H2 H3]]].
    split; [exact H1|]. exists c'. split; [now right|exact H3].
Qed.

Lemma findInCategories_None (id : string) (R : DefaultRules) (cs : list RuleClass) :
  findInCategories id R cs = None <->
  forall c r, In c cs -> In r (rulesOf R c) -> rule_id r <> id.
Proof.
  induction cs as [|c cs IH]; simpl.
  - split; [intros _ c r []|reflexivity].
  - destruct (findRule id (rulesOf R c)) as [x|] eqn:E.
    + split; [discriminate|]. intro H. exfalso.
      apply findRule_Some in E. destruct E as [E1 E2].
      apply (H c x); auto.
    + rewrite IH. split.
      * intros H c' r [<-|Hc] Hr; [|now apply (H c')].
        now apply (proj1 (findRule_None id (rulesOf R c)) E).
      * intros H c' r Hc. apply H. now right.
Qed.

Lemma categoriesInOrder_all (c : RuleClass) : In c categoriesInOrder.
Proof. destruct c; simpl; tauto. Qed.

(** X1: [findInDefaultRules] returns a rule of some category whose id is
    the one asked for, and returns nothing exactly when no category holds
    a rule with that id. *)
Theorem findInDefaultRules_sound_complete (id : string) (R : DefaultRules) :
  (forall r, findInDefaultRules id R = Some r ->
             rule_id r = id /\ exists c, In r (rulesOf R c))
  /\ (findInDefaultRules id R = None <->
      forall c r, In r (rulesOf R c) -> rule_id r <> id).
Proof.
  unfold findInDefaultRules. split.
  - intros r H. apply findInCategories_Some in H.
    destruct H as [H1 [c [_ H2]]]. eauto.
  - rewrite findInCategories_None. split.
    + intros H c r. apply H, categoriesInOrder_all.
    + intros H c r _. apply H.
Qed.

(* =============================================================== *)
(** ** More on the loudest state *)

Lemma louder_swap (s x y : VectorState) :
  louder (louder s x) y = louder (louder s y) x.
Proof. destruct s, x, y; reflexivity. Qed.

Lemma loudest_Permutation (l l' : list VectorState) :
  Permutation l l' -> forall s, loudest s l = loudest s l'.
Proof.
  unfold loudest. induction 1 as [|x l l' _ IH|x y l|l l' l'' _ IH1 _ IH2]; intro s; simpl.
  - reflexivity.
  - apply IH.
  - now rewrite louder_swap.
  - now rewrite IH1.
Qed.

Lemma resolvable_Permutation (R : DefaultRules) (ids ids' : list string) :
  Permutation ids ids' -> Permutation (resolvable R ids) (resolvable R ids').
Proof.
  induction 1 as [|x l l' _ IH|x y l|l l' l'' _ IH1 _ IH2]; simpl.
  - constructor.
  - destruct (findInDefaultRules x R); [now constructor|exact IH].
  - destruct (findInDefaultRules x R), (findInDefaultRules y R);
      try apply Permutation_refl. constructor.
  - now transitivity (resolvable R l').
Qed.

(** X2: the display state of a rule does not depend on the order in which
    its definition lists the synced rule ids. *)
Theorem maximumVectorState_order_irrelevant
    (R : DefaultRules) (r : IAnnotatedPushRule) (d : VectorPushRuleDefinition)
    (ids ids' : list string) :
  syncedRuleIds d = Some ids ->
  Permutation ids ids' ->
  maximumVectorState R r d
  = maximumVectorState R r
      (mkDefinition (description d) (ruleToVectorState d) (vectorStateToActions d)
         (Some ids')).
Proof.
  intros H P. unfold maximumVectorState. rewrite H. simpl.
  destruct ids as [|i ids].
  - apply Permutation_nil in P. now subst ids'.
  - destruct ids' as [|i' ids'].
    + apply Permutation_sym, Permutation_nil in P. discriminate.
    + f_equal. rewrite !fold_louderOf. cbn [ruleToVectorState].
      apply loudest_Permutation, Permutation_map.
      now apply resolvable_Permutation.
Qed.

Lemma loudness_Loud (s : VectorState) : (loudness s <= loudness Loud)%Z.
Proof. destruct s; vm_compute; discriminate. Qed.

Lemma loudness_Off (s : VectorState) : (loudness Off <= loudness s)%Z.
Proof. destruct s; vm_compute; discriminate. Qed.

(** X3: the display state of a rule with synced rules is Loud exactly when
    the rule itself or a sibling found in the rule table is Loud, and Off
    exactly when the rule and all the siblings found are Off. *)
Theorem maximumVectorState_extremes
    (R : DefaultRules) (r : IAnnotatedPushRule) (d : VectorPushRuleDefinition)
    (ids : list string) :
  syncedRuleIds d = Some ids -> ids <> [] ->
  (maximumVectorState R r d = Some Loud <->
   ruleToVectorState d r = Loud
   \/ exists sibling, In sibling (resolvable R ids)
                      /\ ruleToVectorState d sibling = Loud)
  /\ (maximumVectorState R r d = Some Off <->
      ruleToVectorState d r = Off
      /\ forall sibling, In sibling (resolvable R ids) ->
                         ruleToVectorState d sibling = Off).
Proof.
  intros H Hne. rewrite maximumVectorState_fold with (ids := ids) by assumption.
  rewrite fold_louderOf.
  remember (ruleToVectorState d r) as own eqn:Hown.
  remember (map (ruleToVectorState d) (resolvable R ids)) as l eqn:Hl.
  pose proof (loudest_le_start l own) as Hs.
  pose proof (loudest_le_member l own) as Hm.
  pose proof (loudest_attained l own) as Ha.
  unfold VectorState_le in *.
  assert (Hin : forall x, In x l <-> exists sibling, In sibling (resolvable R ids)
                                                     /\ ruleToVectorState d sibling = x).
  { intro x. subst l. rewrite in_map_iff. split; intros [y [A B]]; eauto. }
  clear Hown Hl. split; split.
  - intro E. assert (E' : loudest own l = Loud) by congruence.
    destruct Ha as [Ha|Ha].
    + left. now rewrite <- Ha.
    + right. apply Hin. now rewrite E' in Ha.
  - intros [E|[sibling [Hs1 Hs2]]]; f_equal; apply loudness_inj.
    + subst own. pose proof (loudness_Loud (loudest Loud l)). lia.
    + pose proof (loudness_Loud (loudest own l)).
      assert (Hl : In Loud l) by (apply Hin; eauto).
      specialize (Hm Loud Hl). lia.
  - intro E. assert (E' : loudest own l = Off) by congruence. split.
    + apply loudness_inj. pose proof (loudness_Off own). rewrite E' in Hs. lia.
    + intros sibling Hsib. apply loudness_inj.
      assert (Hl : In (ruleToVectorState d sibling) l) by (apply Hin; eauto).
      specialize (Hm _ Hl). rewrite E' in Hm.
      pose proof (loudness_Off (ruleToVectorState d sibling)). lia.
  - intros [E1 E2]. f_equal. destruct Ha as [Ha|Ha]; [congruence|].
    apply Hin in Ha. destruct Ha as [sibling [A B]]. rewrite <- B. now apply E2.
Qed.

(* =============================================================== *)
(** ** What a refresh collects *)

Lemma RuleClass_eqb_eq (a b : RuleClass) : RuleClass_eqb a b = true <-> a = b.
Proof. destruct a, b; simpl; split; congruence. Qed.

Lemma rulesOf_pushRule (d : DefaultRules) (c' : RuleClass) (r : IAnnotatedPushRule)
    (c : RuleClass) :
  rulesOf (pushRule d c' r) c
  = rulesOf d c ++ (if RuleClass_eqb c' c then [r] else []).
Proof. destruct c', c; simpl; now rewrite ?app_nil_r. Qed.

Lemma rulesOf_collectRule (k : PushRuleKind) (d : DefaultRules) (r : IPushRule)
    (c : RuleClass) :
  rulesOf (collectRule k d r) c
  = rulesOf d c ++ filter (filedUnder c) [annotate r k].
Proof.
  unfold collectRule, filedUnder, categoryOf. simpl.
  destruct (startsWithDot (pr_rule_id r)); simpl; [|now rewrite app_nil_r].
  rewrite rulesOf_pushRule. reflexivity.
Qed.

Lemma rulesOf_collectKind (k : PushRuleKind) (rs : list IPushRule) (c : RuleClass) :
  forall d,
    rulesOf (fold_left (collectRule k) rs d) c
    = rulesOf d c ++ filter (filedUnder c) (map (fun r => annotate r k) rs).
Proof.
  induction rs as [|r rs IH]; intro d; [simpl; now rewrite app_nil_r|].
  change (fold_left (collectRule k) (r :: rs) d)
    with (fold_left (collectRule k) rs (collectRule k d r)).
  rewrite IH, rulesOf_collectRule, <- app_assoc.
  change (map (fun r0 => annotate r0 k) (r :: rs))
    with ([annotate r k] ++ map (fun r0 => annotate r0 k) rs).
  now rewrite filter_app.
Qed.

Lemma rulesOf_collect (global : RuleSets) (c : RuleClass) :
  forall d,
    rulesOf (fold_left (fun d kr => fold_left (collectRule (fst kr)) (snd kr) d)
               global d) c
    = rulesOf d c ++ filter (filedUnder c) (annotatedRules global).
Proof.
  induction global as [|[k rs] t IH]; intro d; simpl; [now rewrite app_nil_r|].
  rewrite IH, rulesOf_collectKind, <- app_assoc.
  unfold annotatedRules. simpl. now rewrite filter_app.
Qed.

Lemma collectDefaultRules_rulesOf (global : RuleSets) (c : RuleClass) :
  rulesOf (collectDefaultRules global) c
  = filter (filedUnder c) (annotatedRules global).
Proof.
  unfold collectDefaultRules. rewrite rulesOf_collect. now destruct c.
Qed.

Lemma annotatedRules_In (global : RuleSets) (r : IAnnotatedPushRule) :
  In r (annotatedRules global)
  <-> exists k l raw, In (k, l) global /\ In raw l /\ r = annotate raw k.
Proof.
  unfold annotatedRules. rewrite in_flat_map. split.
  - intros [[k l] [H1 H2]]. simpl in H2. apply in_map_iff in H2.
    destruct H2 as [raw [E H2]]. exists k, l, raw. auto.
  - intros [k [l [raw [H1 [H2 E]]]]]. exists (k, l). split; [exact H1|].
    simpl. apply in_map_iff. exists raw. auto.
Qed.

(** X4: [refreshRules] files every fetched rule whose id starts with a dot
    under the category of its id (Other when the id is not in the table),
    keeps the order of the response within a category, and drops every
    rule whose id does not start with a dot. *)
Theorem collectDefaultRules_files_dotted_rules (global : RuleSets) :
  (forall c, rulesOf (collectDefaultRules global) c
             = filter (filedUnder c) (annotatedRules global))
  /\ (forall c r, In r (rulesOf (collectDefaultRules global) c) ->
                  startsWithDot (rule_id r) = true
                  /\ categoryOf (rule_id r) = c
                  /\ exists k l raw, In (k, l) global /\ In raw l /\ r = annotate raw k)
  /\ (forall r, In r (annotatedRules global) ->
                startsWithDot (rule_id r) = false ->
                forall c, ~ In r (rulesOf (collectDefaultRules global) c)).
Proof.
  split; [apply collectDefaultRules_rulesOf|]. split.
  - intros c r. rewrite collectDefaultRules_rulesOf, filter_In.
    unfold filedUnder. rewrite andb_true_iff, RuleClass_eqb_eq.
    intros [H1 [H2 H3]]. repeat split; auto. now apply annotatedRules_In.
  - intros r _ Hdot c. rewrite collectDefaultRules_rulesOf, filter_In.
    unfold filedUnder. rewrite Hdot. simpl. intros [_ H]. discriminate.
Qed.

Lemma categories_dotted (id : string) (c : RuleClass) :
  categories id = Some c -> startsWithDot id = true.
Proof.
  unfold categories.
  repeat match goal with
         | |- context [if ?x =? ?y then _ else _] =>
             let E := fresh "E" in
             destruct (x =? y) eqn:E;
             [apply String.eqb_eq in E; subst; intros _; reflexivity|]
         end.
  discriminate.
Qed.

Lemma filedUnder_known (c : RuleClass) (r : IAnnotatedPushRule) :
  c <> Other -> filedUnder c r = true <-> categories (rule_id r) = Some c.
Proof.
  intro Hc. unfold filedUnder, categoryOf.
  rewrite andb_true_iff, RuleClass_eqb_eq. split.
  - intros [_ H]. destruct (categories (rule_id r)); congruence.
  - intro H. split; [now apply categories_dotted with (c := c)|now rewrite H].
Qed.

Lemma categories_Master_iff (id : string) :
  categories id = Some Master <-> id = RuleId.Master.
Proof.
  split; [apply categories_Master|]. intros ->. reflexivity.
Qed.

Lemma master_collect (global : RuleSets) :
  master (collectDefaultRules global)
  = filter (fun r => rule_id r =? RuleId.Master) (annotatedRules global).
Proof.
  change (master (collectDefaultRules global))
    with (rulesOf (collectDefaultRules global) Master).
  rewrite collectDefaultRules_rulesOf. apply filter_ext. intro r.
  destruct (rule_id r =? RuleId.Master) eqn:E.
  - apply filedUnder_known; [discriminate|].
    apply categories_Master_iff. now apply String.eqb_eq.
  - destruct (filedUnder Master r) eqn:F; [|reflexivity].
    apply filedUnder_known in F; [|discriminate].
    apply categories_Master_iff in F. apply String.eqb_neq in E. contradiction.
Qed.

Lemma find_filter_head {A} (p : A -> bool) (l : list A) :
  find p l = match filter p l with
             | [] => None
             | x :: _ => Some x
             end.
Proof.
  induction l as [|x l IH]; [reflexivity|]. simpl. now destruct (p x).
Qed.

(* =============================================================== *)
(** ** The display order of the rows *)

Lemma insertForDisplay_Permutation (a : IVectorPushRule) (l : list IVectorPushRule) :
  Permutation (insertForDisplay a l) (a :: l).
Proof.
  induction l as [|b l IH]; simpl; [apply Permutation_refl|].
  destruct (displayIndex (ruleId a) - displayIndex (ruleId b) <=? 0)%Z.
  - apply Permutation_refl.
  - rewrite IH. apply perm_swap.
Qed.

Lemma insertForDisplay_sorted (a : IVectorPushRule) (l : list IVectorPushRule) :
  StronglySorted displayOrdered l -> StronglySorted displayOrdered (insertForDisplay a l).
Proof.
  induction 1 as [|b l Hl IH Hb]; simpl.
  - constructor; constructor.
  - destruct (Z.leb_spec (displayIndex (ruleId a) - displayIndex (ruleId b)) 0).
    + constructor; [now constructor|].
      constructor; [unfold displayOrdered; lia|].
      rewrite Forall_forall in *. intros x Hx. specialize (Hb x Hx).
      unfold displayOrdered in *. lia.
    + constructor; [exact IH|].
      rewrite Forall_forall in *. intros x Hx.
      apply (Permutation_in _ (insertForDisplay_Permutation a l)) in Hx.
      destruct Hx as [<-|Hx]; [unfold displayOrdered; lia|now apply Hb].
Qed.

Lemma insertForDisplay_stable (k : Z) (a : IVectorPushRule) (l : list IVectorPushRule) :
  filter (fun x => (displayIndex (ruleId x) =? k)%Z) (insertForDisplay a l)
  = filter (fun x => (displayIndex (ruleId x) =? k)%Z) (a :: l).
Proof.
  induction l as [|b l IH]; [reflexivity|].
  simpl insertForDisplay.
  destruct (Z.leb_spec (displayIndex (ruleId a) - displayIndex (ruleId b)) 0);
    [reflexivity|].
  simpl in *. rewrite IH.
  destruct (Z.eqb_spec (displayIndex (ruleId b)) k),
           (Z.eqb_spec (displayIndex (ruleId a)) k); try reflexivity. lia.
Qed.

Lemma sortForDisplay_Permutation (l : list IVectorPushRule) :
  Permutation (sortForDisplay l) l.
Proof.
  unfold sortForDisplay. induction l as [|a l IH]; simpl; [constructor|].
  rewrite insertForDisplay_Permutation. now constructor.
Qed.

Lemma sortForDisplay_sorted (l : list IVectorPushRule) :
  StronglySorted displayOrdered (sortForDisplay l).
Proof.
  unfold sortForDisplay. induction l as [|a l IH]; simpl; [constructor|].
  now apply insertForDisplay_sorted.
Qed.

Lemma sortForDisplay_stable (k : Z) (l : list IVectorPushRule) :
  filter (fun x => (displayIndex (ruleId x) =? k)%Z) (sortForDisplay l)
  = filter (fun x => (displayIndex (ruleId x) =? k)%Z) l.
Proof.
  unfold sortForDisplay. induction l as [|a l IH]; [reflexivity|].
  simpl fold_right. rewrite insertForDisplay_stable. simpl. now rewrite IH.
Qed.

(** X5: the sort of [refreshRules] only reorders the rows, puts them in
    the order of [RULE_DISPLAY_ORDER] with the unknown ids last, and is
    stable: rows with the same position keep their relative order. *)
Theorem sortForDisplay_sorted_stable_permutation (l : list IVectorPushRule) :
  Permutation (sortForDisplay l) l
  /\ StronglySorted displayOrdered (sortForDisplay l)
  /\ forall k, filter (fun x => (displayIndex (ruleId x) =? k)%Z) (sortForDisplay l)
               = filter (fun x => (displayIndex (ruleId x) =? k)%Z) l.
Proof.
  split; [apply sortForDisplay_Permutation|].
  split; [apply sortForDisplay_sorted|].
  intro k. apply sortForDisplay_stable.
Qed.

(* =============================================================== *)
(** ** The outcome of [refreshRules] *)

Lemma describeRules_cases (R : DefaultRules) (rs : list IAnnotatedPushRule) :
  (forallb hasDefinition rs = true
   /\ exists rows, describeRules R rs = Return rows
                   /\ Forall2 (fun r row => describeRule R r = Return row) rs rows)
  \/ (forallb hasDefinition rs = false /\ describeRules R rs = Throw TypeError).
Proof.
  induction rs as [|r rs IH]; simpl.
  - left. split; [reflexivity|]. exists []. split; [reflexivity|constructor].
  - unfold hasDefinition at 1 3. unfold describeRule at 1 3.
    destruct (VectorPushRulesDefinitions (rule_id r)) as [d|] eqn:E; simpl.
    + destruct IH as [[H [rows [H1 H2]]]|[H H1]]; rewrite H, H1.
      * left. split; [reflexivity|]. eexists. split; [reflexivity|].
        constructor; [|exact H2]. unfold describeRule. now rewrite E.
      * right. split; reflexivity.
    + right. split; reflexivity.
Qed.

Lemma prepareCategory_cases (R : DefaultRules) (info : IContentRules) (c : RuleClass) :
  (forallb hasDefinition (rulesOf R c) = true
   /\ exists rows,
        Forall2 (fun r row => describeRule R r = Return row) (rulesOf R c) rows
        /\ prepareCategory R info c
           = Return (sortForDisplay rows
                       ++ (if RuleClass_eqb c KEYWORD_RULE_CATEGORY
                           then [keywordsRow info] else [])))
  \/ (forallb hasDefinition (rulesOf R c) = false
      /\ prepareCategory R info c = Throw TypeError).
Proof.
  unfold prepareCategory.
  destruct (describeRules_cases R (rulesOf R c)) as [[H [rows [H1 H2]]]|[H H1]];
    rewrite H1.
  - left. split; [exact H|]. exists rows. split; [exact H2|].
    destruct (RuleClass_eqb c KEYWORD_RULE_CATEGORY); now rewrite ?app_nil_r.
  - right. auto.
Qed.

Lemma forallb_needed (global : RuleSets) :
  forallb (fun r => implb (needsDefinition r) (hasDefinition r)) (annotatedRules global)
  = forallb hasDefinition (rulesOf (collectDefaultRules global) VectorGlobal)
    && forallb hasDefinition (rulesOf (collectDefaultRules global) VectorMentions)
    && forallb hasDefinition (rulesOf (collectDefaultRules global) VectorOther).
Proof.
  rewrite !collectDefaultRules_rulesOf.
  induction (annotatedRules global) as [|r l IH]; [reflexivity|].
  simpl. rewrite IH. clear IH.
  assert (K : forall c, c <> Other ->
                filedUnder c r = match categories (rule_id r) with
                                 | Some c' => RuleClass_eqb c' c
                                 | None => false
                                 end).
  { intros c Hc. destruct (filedUnder c r) eqn:F.
    - apply filedUnder_known in F; [|exact Hc]. rewrite F.
      symmetry. now apply RuleClass_eqb_eq.
    - destruct (categories (rule_id r)) as [c'|] eqn:E; [|reflexivity].
      destruct (RuleClass_eqb c' c) eqn:E'; [|reflexivity].
      apply RuleClass_eqb_eq in E'. subst c'.
      apply (filedUnder_known c r Hc) in E. congruence. }
  rewrite (K VectorGlobal), (K VectorMentions), (K VectorOther) by discriminate.
  unfold needsDefinition.
  destruct (categories (rule_id r)) as [[]|]; simpl;
    destruct (hasDefinition r); simpl;
    repeat match goal with
           | |- context [forallb ?f ?l] => destruct (forallb f l); simpl
           end; reflexivity.
Qed.

(** X6: the outcome of [refreshRules] once the rules have arrived.
    Without a fetched rule with id [.m.rule.master] it throws "Failed to
    locate a master push rule"; otherwise, if a fetched rule of one of the
    three vector categories has no entry in the table of definitions, it
    throws a TypeError; otherwise it resolves, and the master rule of the
    new state is the first fetched rule with the master id. *)
Theorem prepareRules_outcome (global : RuleSets) :
  match find (fun r => rule_id r =? RuleId.Master) (annotatedRules global) with
  | None =>
      prepareRules global = Throw (Failure "Failed to locate a master push rule")
  | Some m =>
      if forallb (fun r => implb (needsDefinition r) (hasDefinition r))
           (annotatedRules global)
      then exists n, prepareRules global = Return n
                     /\ new_masterPushRule n = m
                     /\ new_vectorKeywordRuleInfo n = parseContentRules global
      else prepareRules global = Throw TypeError
  end.
Proof.
  rewrite find_filter_head, <- master_collect, forallb_needed.
  unfold prepareRules.
  destruct (master (collectDefaultRules global)) as [|m ms]; [reflexivity|].
  set (R := collectDefaultRules global). set (info := parseContentRules global).
  destruct (prepareCategory_cases R info VectorGlobal) as [[G [g [_ Eg]]]|[G Eg]];
    rewrite G, Eg; [|reflexivity].
  destruct (prepareCategory_cases R info VectorMentions) as [[M [ms' [_ Em]]]|[M Em]];
    rewrite M, Em; [|reflexivity].
  destruct (prepareCategory_cases R info VectorOther) as [[O [o [_ Eo]]]|[O Eo]];
    rewrite O, Eo; [|reflexivity].
  simpl. eexists. split; [reflexivity|]. split; reflexivity.
Qed.

(** X7: when [refreshRules] resolves, each of the three vector categories
    has one row per rule filed under it (the row ids are a permutation of
    the rule ids), the rows are in display order, every row carries the
    rule, the state its own definition gives the rule, the loudest state
    of its synced rules and the translated description of the definition,
    and the keywords row is the last row of the mentions category and of
    no other. *)
Theorem prepareRules_rows (global : RuleSets) (n : PreparedState) (c : RuleClass) :
  prepareRules global = Return n ->
  isVectorCategory c = true ->
  let R := collectDefaultRules global in
  exists rows,
    new_vectorPushRules n c
    = Some (rows ++ (if RuleClass_eqb c VectorMentions
                     then [keywordsRow (parseContentRules global)] else []))
    /\ Permutation (map ruleId rows) (map rule_id (rulesOf R c))
    /\ StronglySorted displayOrdered rows
    /\ Forall (fun row =>
                 exists r d,
                   In r (rulesOf R c)
                   /\ VectorPushRulesDefinitions (rule_id r) = Some d
                   /\ rule row = Some r
                   /\ ruleId row = rule_id r
                   /\ vectorState row = ruleToVectorState d r
                   /\ syncedVectorState row = maximumVectorState R r d
                   /\ vp_description row = _t (description d)) rows.
Proof.
  intros H Hc R. unfold prepareRules in H. fold R in H.
  destruct (master R) as [|m ms]; [discriminate|].
  set (info := parseContentRules global) in *.
  assert (K : forall c',
             forall rows',
               Forall2 (fun r row => describeRule R r = Return row) (rulesOf R c') rows' ->
               Permutation (map ruleId (sortForDisplay rows')) (map rule_id (rulesOf R c'))
               /\ StronglySorted displayOrdered (sortForDisplay rows')
               /\ Forall (fun row =>
                            exists r d,
                              In r (rulesOf R c')
                              /\ VectorPushRulesDefinitions (rule_id r) = Some d
                              /\ rule row = Some r
                              /\ ruleId row = rule_id r
                              /\ vectorState row = ruleToVectorState d r
                              /\ syncedVectorState row = maximumVectorState R r d
                              /\ vp_description row = _t (description d))
                    (sortForDisplay rows')).
  { intros c' rows' F. split; [|split; [apply sortForDisplay_sorted|]].
    - rewrite (Permutation_map ruleId (sortForDisplay_Permutation rows')).
      clear -F. induction F as [|r row l l' E F IH]; simpl; [constructor|].
      unfold describeRule in E.
      destruct (VectorPushRulesDefinitions (rule_id r)); [|discriminate].
      inversion E; subst row. simpl. now constructor.
    - rewrite Forall_forall. intros row Hrow.
      apply (Permutation_in _ (sortForDisplay_Permutation rows')) in Hrow.
      clear -F Hrow. induction F as [|r row' l l' E F IH]; [destruct Hrow|].
      destruct Hrow as [<-|Hrow].
      + unfold describeRule in E.
        destruct (VectorPushRulesDefinitions (rule_id r)) as [d|] eqn:D; [|discriminate].
        inversion E; subst row'. exists r, d. simpl. repeat split; auto; now left.
      + destruct (IH Hrow) as [r' [d [H1 H2]]]. exists r', d. split; [now right|exact H2]. }
  destruct (prepareCategory_cases R info VectorGlobal) as [[_ [g [Fg Eg]]]|[_ Eg]];
    rewrite Eg in H; [|discriminate].
  destruct (prepareCategory_cases R info VectorMentions) as [[_ [ms' [Fm Em]]]|[_ Em]];
    rewrite Em in H; [|discriminate].
  destruct (prepareCategory_cases R info VectorOther) as [[_ [o [Fo Eo]]]|[_ Eo]];
    rewrite Eo in H; [|discriminate].
  inversion H; subst n. clear H. simpl.
  destruct c; try discriminate; simpl.
  - exists (sortForDisplay g). split; [reflexivity|]. exact (K _ _ Fg).
  - exists (sortForDisplay ms'). split; [reflexivity|]. exact (K _ _ Fm).
  - exists (sortForDisplay o). split; [reflexivity|]. exact (K _ _ Fo).
Qed.

(* =============================================================== *)
(** ** Computations that only send requests *)

Lemma onlyRequests_refl (w : World) : onlyRequests w w.
Proof.
  unfold onlyRequests. repeat split; try reflexivity.
  exists []. now rewrite app_nil_r.
Qed.

Lemma onlyRequests_trans (w1 w2 w3 : World) :
  onlyRequests w1 w2 -> onlyRequests w2 w3 -> onlyRequests w1 w3.
Proof.
  unfold onlyRequests.
  intros [A1 [A2 [A3 [A4 [A5 [A6 [A7 [s1 A8]]]]]]]]
         [B1 [B2 [B3 [B4 [B5 [B6 [B7 [s2 B8]]]]]]]].
  repeat split; try congruence.
  exists (s1 ++ s2). now rewrite B8, A8, app_assoc.
Qed.

Lemma sendsOnly_ret {A} (a : A) : sendsOnly (ret a).
Proof. intro w. apply onlyRequests_refl. Qed.

Lemma sendsOnly_throw {A} (e : Exception) : sendsOnly (@throw A e).
Proof. intro w. apply onlyRequests_refl. Qed.

Lemma sendsOnly_getState : sendsOnly getState.
Proof. intro w. apply onlyRequests_refl. Qed.

Lemma sendsOnly_getClient : sendsOnly getClient.
Proof. intro w. apply onlyRequests_refl. Qed.

Lemma sendsOnly_request {A} (c : Call) (payload : Server -> A) :
  sendsOnly (request c payload).
Proof.
  intro w. unfold request, handle.
  destruct (rejects (server w) (List.length (received (server w)))).
  - unfold onlyRequests. simpl. repeat split; eauto.
  - destruct (applyCall c (pushRules (server w)));
      unfold onlyRequests; simpl; repeat split; eauto.
Qed.

Lemma sendsOnly_await (c : Call) : sendsOnly (await c).
Proof. apply sendsOnly_request. Qed.

Lemma sendsOnly_bind {A B} (m : Async A) (k : A -> Async B) :
  sendsOnly m -> (forall a, sendsOnly (k a)) -> sendsOnly (bind m k).
Proof.
  intros Hm Hk w. unfold bind. specialize (Hm w).
  destruct (m w) as [[a|e] w1]; simpl in *; [|exact Hm].
  apply onlyRequests_trans with (w2 := w1); [exact Hm|apply Hk].
Qed.

Lemma sendsOnly_forOf {A} (xs : list A) (body : A -> Async unit) :
  (forall x, sendsOnly (body x)) -> sendsOnly (forOf xs body).
Proof.
  intro H. induction xs as [|x xs IH]; simpl.
  - apply sendsOnly_ret.
  - apply sendsOnly_bind; [apply H|intros _; exact IH].
Qed.

Ltac sends :=
  repeat first
    [ apply sendsOnly_ret | apply sendsOnly_throw | apply sendsOnly_await
    | apply sendsOnly_getState | apply sendsOnly_getClient
    | apply sendsOnly_request
    | apply sendsOnly_bind; [|intro]
    | apply sendsOnly_forOf; intro
    | match goal with
      | |- sendsOnly (match ?x with _ => _ end) => destruct x
      | |- sendsOnly (let _ := _ in _) => cbv zeta
      end ].

Lemma sendsOnly_setPushRuleActions (id : string) (k : PushRuleKind)
    (acts : option (list PushRuleAction)) :
  sendsOnly (setPushRuleActions id k acts).
Proof. unfold setPushRuleActions. sends. Qed.

Lemma sendsOnly_updateSyncedRules (ids : option (list string))
    (acts : option (list PushRuleAction)) :
  sendsOnly (updateSyncedRules ids acts).
Proof.
  unfold updateSyncedRules. sends; apply sendsOnly_setPushRuleActions.
Qed.

Lemma sendsOnly_updateKeywordRule (checkedState : VectorState) (r : IAnnotatedPushRule) :
  sendsOnly (updateKeywordRule checkedState r).
Proof. unfold updateKeywordRule. sends. Qed.

Lemma endsWithRefresh_refresh (m : Async unit) :
  sendsOnly m -> endsWithRefresh (m ;;; refreshFromServer).
Proof.
  intros Hm w. unfold bind. specialize (Hm w).
  destruct (m w) as [[[]|e] w1]; simpl in *; [|exact Hm].
  pose proof (refreshFromServer_received w1) as [_ [_ [_ R]]].
  destruct (refreshFromServer w1) as [[[]|e] w2] eqn:E; simpl in R; [|discriminate].
  exists w1. split; [exact Hm|]. now rewrite E.
Qed.

Lemma endsWithRefresh_bind {A} (m : Async A) (k : A -> Async unit) :
  sendsOnly m -> (forall a, endsWithRefresh (k a)) -> endsWithRefresh (bind m k).
Proof.
  intros Hm Hk w. unfold bind. specialize (Hm w).
  destruct (m w) as [[a|e] w1]; simpl in *; [|exact Hm].
  specialize (Hk a w1). destruct (k a w1) as [[[]|e] w2].
  - destruct Hk as [w' [H1 H2]]. exists w'. split; [|exact H2].
    now apply onlyRequests_trans with (w2 := w1).
  - now apply onlyRequests_trans with (w2 := w1).
Qed.

Lemma endsWithRefresh_throw (e : Exception) : endsWithRefresh (throw e).
Proof. intro w. apply onlyRequests_refl. Qed.

(* =============================================================== *)
(** ** The outcome of a refresh *)

Lemma request_read_eq {A} (c : Call) (payload : Server -> A) (w : World) :
  c = GetPushRules \/ c = GetPushers \/ c = GetThreePids ->
  request c payload w
  = (if rejects (server w) (List.length (received (server w)))
     then Throw (RequestRejected c)
     else Return (payload (bounce c (server w))),
     withServer (bounce c (server w)) w).
Proof.
  intro Hc. unfold request, handle.
  destruct (rejects (server w) (List.length (received (server w)))); [reflexivity|].
  destruct Hc as [->|[->| ->]]; reflexivity.
Qed.

Lemma refreshFromServer_eq (w : World) :
  refreshFromServer w
  = (Return tt,
     mkWorld (refreshedState w)
       (bounce GetThreePids (bounce GetPushers (bounce GetPushRules (server w))))
       (client w) (dialogs w)
       (if Phase_eqb (phase (refreshedState w)) Ready then errorLog w
        else errorLog w ++ ["Error setting up notifications for settings: "])).
Proof.
  unfold refreshFromServer, tryCatch, bind, settle,
    refreshRules, refreshPushers, refreshThreepids, bind, refreshedState.
  rewrite (request_read_eq GetPushRules pushRules w) by auto.
  set (w1 := withServer (bounce GetPushRules (server w)) w).
  set (w2 := withServer (bounce GetPushers (server w1)) w1).
  set (n := List.length (received (server w))).
  assert (L1 : List.length (received (server w1)) = S n).
  { subst w1 n. simpl. rewrite length_app. simpl. now rewrite Nat.add_1_r. }
  assert (L2 : List.length (received (server w2)) = S (S n)).
  { subst w2 w1 n. simpl. rewrite !length_app. simpl. now rewrite !Nat.add_1_r. }
  assert (Q2 : request GetPushers srv_pushers w1
               = (if rejects (server w) (S n)
                  then Throw (RequestRejected GetPushers)
                  else Return (srv_pushers (server w)), w2)).
  { rewrite (request_read_eq GetPushers srv_pushers w1) by auto. now rewrite L1. }
  assert (Q3 : request GetThreePids srv_threepids w2
               = (if rejects (server w) (S (S n))
                  then Throw (RequestRejected GetThreePids)
                  else Return (srv_threepids (server w)),
                  withServer (bounce GetThreePids (server w2)) w2)).
  { rewrite (request_read_eq GetThreePids srv_threepids w2) by auto. now rewrite L2. }
  destruct (rejects (server w) n) eqn:R1; simpl.
  - rewrite Q2, Q3.
    destruct (rejects (server w) (S n)), (rejects (server w) (S (S n))); reflexivity.
  - unfold lift. rewrite Q2, Q3.
    destruct (prepareRules (pushRules (server w))) as [p|e];
      destruct (rejects (server w) (S n)), (rejects (server w) (S (S n)));
      reflexivity.
Qed.

(** X8: [refreshFromServer] never throws and always sends its three
    requests, whatever their outcomes; it changes neither the rule table
    nor the dialogs.  If the three are accepted and [refreshRules]
    resolves, the new state is Ready with the fetched master rule, rows,
    pushers and third-party ids, and the device settings it had; in every
    other case only the phase changes, to Error, and the rules shown
    before stay in the state. *)
Theorem refreshFromServer_outcome (w : World) :
  let s := server w in
  let n := List.length (received s) in
  let w' := snd (refreshFromServer w) in
  fst (refreshFromServer w) = Return tt
  /\ received (server w') = received s ++ [GetPushRules; GetPushers; GetThreePids]
  /\ pushRules (server w') = pushRules s
  /\ dialogs w' = dialogs w
  /\ (if rejects s n || rejects s (S n) || rejects s (S (S n))
      then state w' = withPhase Error (state w)
      else match prepareRules (pushRules s) with
           | Return p =>
               state w'
               = mkState Ready (Some (new_masterPushRule p))
                   (Some (new_vectorKeywordRuleInfo p)) (Some (new_vectorPushRules p))
                   (Some (srv_pushers s)) (Some (srv_threepids s))
                   (deviceNotificationsEnabled (state w)) (desktopNotifications (state w))
                   (desktopShowBody (state w)) (audioNotifications (state w))
                   (clearingNotifications (state w))
           | Throw _ => state w' = withPhase Error (state w)
           end).
Proof.
  intros s n w'. subst w'. rewrite refreshFromServer_eq. simpl.
  split; [reflexivity|]. split; [now rewrite <- !app_assoc|].
  split; [reflexivity|]. split; [reflexivity|].
  unfold refreshedState. fold s. fold n.
  destruct (rejects s n || rejects s (S n) || rejects s (S (S n))); [reflexivity|].
  now destruct (prepareRules (pushRules s)).
Qed.

Lemma refreshedState_phase (w : World) :
  phase (refreshedState w) = Ready \/ phase (refreshedState w) = Error.
Proof.
  unfold refreshedState.
  destruct (_ || _); [now right|].
  destruct (prepareRules _); [now left|now right].
Qed.

(* =============================================================== *)
(** ** The saving methods always settle *)

Lemma guarded_settles (m : Async unit) (label : string) (w : World) :
  endsWithRefresh m ->
  let r := tryCatch m (fun _ => saveFailed label) w in
  fst r = Return tt
  /\ (phase (state (snd r)) = Ready \/ phase (state (snd r)) = Error)
  /\ (dialogs (snd r) = dialogs w
      \/ (dialogs (snd r) = dialogs w ++ [_t "Error saving notification preferences"]
          /\ phase (state (snd r)) = Error))
  /\ client (snd r) = client w
  /\ exists sent, received (server (snd r)) = received (server w) ++ sent.
Proof.
  intros Hm r. subst r. unfold tryCatch. specialize (Hm w).
  destruct (m w) as [[[]|e] w1].
  - destruct Hm as [w0 [[A1 [A2 [A3 [A4 [A5 [A6 [A7 [sent A8]]]]]]]] E]].
    subst w1. rewrite refreshFromServer_eq. simpl.
    split; [reflexivity|]. split; [apply refreshedState_phase|].
    split; [now left|]. split; [exact A2|].
    exists (sent ++ [GetPushRules; GetPushers; GetThreePids]).
    rewrite A8, <- !app_assoc. reflexivity.
  - destruct Hm as [A1 [A2 [A3 [A4 [A5 [A6 [A7 [sent A8]]]]]]]].
    simpl. split; [reflexivity|]. split; [now right|].
    split; [right; split; [now rewrite A3|reflexivity]|].
    split; [exact A2|]. now exists sent.
Qed.

Lemma endsWithRefresh_onRadioChecked (r : IVectorPushRule) (checkedState : VectorState) :
  endsWithRefresh
    ((if ruleId r =? KEYWORD_RULE_ID then
        st <- getState ;;
        match vectorKeywordRuleInfo st with
        | None => throw TypeError
        | Some info => forOf (kw_rules info) (updateKeywordRule checkedState)
        end
      else
        match VectorPushRulesDefinitions (ruleId r), rule r with
        | Some definition, Some target =>
            let acts := vectorStateToActions definition checkedState in
            setPushRuleActions (rule_id target) (kind target) acts ;;;
            updateSyncedRules (syncedRuleIds definition) acts
        | _, _ => throw TypeError
        end) ;;;
     refreshFromServer).
Proof.
  apply endsWithRefresh_refresh.
  destruct (ruleId r =? KEYWORD_RULE_ID).
  - sends; apply sendsOnly_updateKeywordRule.
  - destruct (VectorPushRulesDefinitions (ruleId r)) as [d|];
      [destruct (rule r) as [target|]|]; sends;
      first [apply sendsOnly_setPushRuleActions|apply sendsOnly_updateSyncedRules].
Qed.

Lemma endsWithRefresh_setKeywords (keywords : list string)
    (originalRules : list IAnnotatedPushRule) :
  endsWithRefresh
    (let diff := diffKeywords (map pattern originalRules) keywords in
     forOf (removed diff)
       (fun word =>
          forOf (filter (hasPattern word) originalRules)
            (fun r => await (DeletePushRule "global" (kind r) (rule_id r)))) ;;;
     st <- getState ;;
     match vectorKeywordRuleInfo st with
     | None => throw TypeError
     | Some info =>
         let ruleVectorState := newKeywordState info originalRules in
         let k := ContentSpecific in
         forOf (added diff)
           (fun word =>
              await (AddPushRule "global" k word (actionsFor ruleVectorState) word) ;;;
              if VectorState_eqb ruleVectorState Off
              then await (SetPushRuleEnabled "global" k word false)
              else ret tt) ;;;
         refreshFromServer
     end).
Proof.
  cbv zeta. apply endsWithRefresh_bind; [sends|]. intros _.
  apply endsWithRefresh_bind; [sends|]. intro st.
  destruct (vectorKeywordRuleInfo st); [|apply endsWithRefresh_throw].
  apply endsWithRefresh_refresh. sends.
Qed.

Lemma endsWithRefresh_onMasterRuleChanged (checked : bool) :
  endsWithRefresh
    (st <- getState ;;
     match masterPushRule st with
     | None => throw TypeError
     | Some masterRule =>
         await (SetPushRuleEnabled "global" (kind masterRule) (rule_id masterRule)
                  (negb checked)) ;;;
         refreshFromServer
     end).
Proof.
  apply endsWithRefresh_bind; [sends|]. intro st.
  destruct (masterPushRule st); [|apply endsWithRefresh_throw].
  apply endsWithRefresh_refresh. sends.
Qed.

(** X9: [onRadioChecked], [setKeywords] and [onMasterRuleChanged] never
    throw, whatever their arguments and whatever the server rejects, and
    never leave the component in the Persisting phase: they end in Ready or
    in Error.  They show at most one dialog, the save-error dialog, and
    only when they end in Error; the requests the server had received
    before are still there, followed by the new ones. *)
Theorem saving_methods_always_settle (w : World) :
  let settled (r : Outcome unit * World) :=
    fst r = Return tt
    /\ (phase (state (snd r)) = Ready \/ phase (state (snd r)) = Error)
    /\ (dialogs (snd r) = dialogs w
        \/ (dialogs (snd r) = dialogs w ++ [_t "Error saving notification preferences"]
            /\ phase (state (snd r)) = Error))
    /\ exists sent, received (server (snd r)) = received (server w) ++ sent in
  (forall row checkedState, settled (onRadioChecked row checkedState w))
  /\ (forall keywords originalRules, settled (setKeywords keywords originalRules w))
  /\ (forall checked, settled (onMasterRuleChanged checked w)).
Proof.
  intro settled. subst settled. cbv beta.
  set (w1 := mkWorld (withPhase Persisting (state w)) (server w) (client w)
               (dialogs w) (errorLog w)).
  split; [|split].
  - intros row checkedState.
    destruct (guarded_settles _ "Error updating push rule:" w1
                (endsWithRefresh_onRadioChecked row checkedState))
      as [H1 [H2 [H3 [_ H5]]]].
    repeat split; assumption.
  - intros keywords originalRules.
    destruct (guarded_settles _ "Error updating keyword push rules:" w
                (endsWithRefresh_setKeywords keywords originalRules))
      as [H1 [H2 [H3 [_ H5]]]].
    repeat split; assumption.
  - intro checked.
    destruct (guarded_settles _ "Error updating master push rule:" w1
                (endsWithRefresh_onMasterRuleChanged checked))
      as [H1 [H2 [H3 [_ H5]]]].
    repeat split; assumption.
Qed.

(* =============================================================== *)
(** ** The stored rules after a request *)

Lemma PushRuleKind_eqb_eq (a b : PushRuleKind) : PushRuleKind_eqb a b = true <-> a = b.
Proof. destruct a, b; simpl; split; congruence. Qed.

Lemma rulesOfKind_set_other (k k' : PushRuleKind) (l : list IPushRule) (t : RuleSets) :
  PushRuleKind_eqb k' k = false ->
  rulesOfKind k' (setRulesOfKind k l t) = rulesOfKind k' t.
Proof.
  intro H.
  assert (H' : PushRuleKind_eqb k k' = false) by (destruct k, k'; simpl in *; congruence).
  induction t as [|[k0 l0] t IH]; simpl.
  - now rewrite H'.
  - destruct (PushRuleKind_eqb k0 k) eqn:E; simpl.
    + apply PushRuleKind_eqb_eq in E. subst k0. now rewrite H'.
    + destruct (PushRuleKind_eqb k0 k'); [reflexivity|exact IH].
Qed.

Lemma find_map_preserving (g : IPushRule -> IPushRule) (id : string) (l : list IPushRule) :
  (forall r, pr_rule_id (g r) = pr_rule_id r) ->
  find (fun r => pr_rule_id r =? id) (map g l)
  = option_map g (find (fun r => pr_rule_id r =? id) l).
Proof.
  intro Hg. induction l as [|r l IH]; [reflexivity|].
  simpl. rewrite Hg. now destruct (pr_rule_id r =? id).
Qed.

Lemma find_rule_id (id : string) (l : list IPushRule) (r : IPushRule) :
  find (fun r => pr_rule_id r =? id) l = Some r -> pr_rule_id r = id.
Proof. intro H. apply find_some in H. now apply String.eqb_eq. Qed.

(** The stored rules after an accepted update of the rule [(k, id)]. *)
Lemma storedRule_update (f : IPushRule -> IPushRule) (k : PushRuleKind) (id : string)
    (t : RuleSets) (k' : PushRuleKind) (id' : string) :
  (forall r, pr_rule_id (f r) = pr_rule_id r) ->
  storedRule k' id' (setRulesOfKind k (updateRule f id (rulesOfKind k t)) t)
  = option_map (fun r => if PushRuleKind_eqb k' k && (id' =? id) then f r else r)
      (storedRule k' id' t).
Proof.
  intro Hf. unfold storedRule.
  destruct (PushRuleKind_eqb k' k) eqn:E; simpl.
  - apply PushRuleKind_eqb_eq in E. subst k'. rewrite rulesOfKind_set.
    unfold updateRule. rewrite find_map_preserving.
    + destruct (find _ (rulesOfKind k t)) as [r|] eqn:F; [|reflexivity].
      simpl. apply find_rule_id in F. now rewrite F.
    + intro r. destruct (pr_rule_id r =? id); [apply Hf|reflexivity].
  - rewrite rulesOfKind_set_other by exact E.
    now destruct (find _ (rulesOfKind k' t)).
Qed.

Lemma applyCall_SetPushRuleEnabled_all (scope : string) (k : PushRuleKind) (id : string)
    (on : bool) (t t' : RuleSets) :
  applyCall (SetPushRuleEnabled scope k id on) t = Some t' ->
  forall k' id',
    storedRule k' id' t'
    = option_map (fun r => if PushRuleKind_eqb k' k && (id' =? id)
                           then mkPushRule (pr_rule_id r) on (pr_actions r) (pr_pattern r)
                           else r)
        (storedRule k' id' t).
Proof.
  simpl. destruct (hasRule id (rulesOfKind k t)); [|discriminate].
  intro H. inversion H; subst t'. intros k' id'.
  now rewrite storedRule_update.
Qed.

Lemma applyCall_SetPushRuleActions_all (scope : string) (k : PushRuleKind) (id : string)
    (acts : list PushRuleAction) (t t' : RuleSets) :
  applyCall (SetPushRuleActions scope k id acts) t = Some t' ->
  (exists r, storedRule k id t = Some r)
  /\ forall k' id',
       storedRule k' id' t'
       = option_map (fun r => if PushRuleKind_eqb k' k && (id' =? id)
                              then mkPushRule (pr_rule_id r) (pr_enabled r) acts
                                     (pr_pattern r)
                              else r)
           (storedRule k' id' t).
Proof.
  simpl. destruct (hasRule id (rulesOfKind k t)) eqn:E; [|discriminate].
  intro H. inversion H; subst t'. split.
  - now apply hasRule_find.
  - intros k' id'. now rewrite storedRule_update.
Qed.

(* =============================================================== *)
(** ** Setting the actions of a rule *)

(** X10: [setPushRuleActions] with actions first rewrites the actions and
    then enables the rule.  If the rewrite is rejected the enable is never
    sent and the rule table is unchanged; if only the enable is rejected
    the rule keeps its new actions and its old enabled flag; if both are
    accepted the stored rule has the new actions and is enabled, with the
    id and pattern it had. *)
Theorem setPushRuleActions_with_actions (id : string) (k : PushRuleKind)
    (acts : list PushRuleAction) (w : World) :
  let rewrite := SetPushRuleActions "global" k id acts in
  let enable := SetPushRuleEnabled "global" k id true in
  let result := setPushRuleActions id k (Some acts) w in
  let t := pushRules (server w) in
  let t' := pushRules (server (snd result)) in
  match handle rewrite (server w) with
  | None =>
      fst result = Throw (RequestRejected rewrite)
      /\ received (server (snd result)) = received (server w) ++ [rewrite]
      /\ t' = t
  | Some s1 =>
      received (server (snd result)) = received (server w) ++ [rewrite; enable]
      /\ exists r,
           storedRule k id t = Some r
           /\ if rejects (server w) (S (List.length (received (server w))))
              then fst result = Throw (RequestRejected enable)
                   /\ storedRule k id t'
                      = Some (mkPushRule (pr_rule_id r) (pr_enabled r) acts (pr_pattern r))
              else fst result = Return tt
                   /\ storedRule k id t'
                      = Some (mkPushRule (pr_rule_id r) true acts (pr_pattern r))
  end.
Proof.
  cbv zeta. unfold setPushRuleActions, bind, await, request.
  destruct (handle (SetPushRuleActions "global" k id acts) (server w)) as [s1|] eqn:E1;
    simpl; [|auto].
  pose proof (handle_Some _ _ _ E1) as [R1 [A1 [J1 _]]].
  destruct (applyCall_SetPushRuleActions_all _ _ _ _ _ _ A1) as [[r Hr] S1].
  assert (Hs1 : storedRule k id (pushRules s1)
                = Some (mkPushRule (pr_rule_id r) (pr_enabled r) acts (pr_pattern r))).
  { rewrite S1, Hr. simpl. now rewrite PushRuleKind_eqb_refl, String.eqb_refl. }
  assert (L1 : List.length (received s1) = S (List.length (received (server w)))).
  { rewrite R1, length_app. simpl. now rewrite Nat.add_1_r. }
  unfold handle. rewrite L1, J1.
  destruct (rejects (server w) (S (List.length (received (server w))))).
  - simpl. split; [now rewrite R1, <- app_assoc|]. exists r. auto.
  - assert (A2 : exists t2, applyCall (SetPushRuleEnabled "global" k id true) (pushRules s1)
                            = Some t2).
    { simpl. unfold storedRule in Hs1.
      destruct (hasRule id (rulesOfKind k (pushRules s1))) eqn:Hh; [eauto|].
      exfalso. unfold hasRule in Hh.
      apply find_some in Hs1. destruct Hs1 as [Hin Hid].
      assert (existsb (fun r0 => pr_rule_id r0 =? id) (rulesOfKind k (pushRules s1)) = true)
        by (apply existsb_exists; eauto).
      congruence. }
    destruct A2 as [t2 A2]. rewrite A2. simpl.
    split; [now rewrite R1, <- app_assoc|]. exists r. split; [exact Hr|].
    split; [reflexivity|].
    rewrite (applyCall_SetPushRuleEnabled_all _ _ _ _ _ _ A2), Hs1. simpl.
    now rewrite PushRuleKind_eqb_refl, String.eqb_refl.
Qed.

(* =============================================================== *)
(** ** Toggling the master rule *)

(** X11: [onMasterRuleChanged] sends the master rule the inverse of the
    switch: checking the switch disables the rule.  If the request is
    rejected nothing else is sent, the rule table is unchanged, the phase
    is Error and the save-error dialog is shown; if it is accepted the
    stored master rule has [enabled = !checked] and the refresh follows.
    Without a master rule in the state no request is sent at all. *)
Theorem onMasterRuleChanged_inverts_switch (checked : bool) (w : World) :
  let w' := snd (onMasterRuleChanged checked w) in
  match masterPushRule (state w) with
  | None =>
      server w' = server w /\ phase (state w') = Error
      /\ dialogs w' = dialogs w ++ [_t "Error saving notification preferences"]
  | Some m =>
      let toggle := SetPushRuleEnabled "global" (kind m) (rule_id m) (negb checked) in
      match handle toggle (server w) with
      | None =>
          received (server w') = received (server w) ++ [toggle]
          /\ pushRules (server w') = pushRules (server w)
          /\ phase (state w') = Error
          /\ dialogs w' = dialogs w ++ [_t "Error saving notification preferences"]
      | Some _ =>
          received (server w')
          = received (server w) ++ [toggle; GetPushRules; GetPushers; GetThreePids]
          /\ (exists r,
                storedRule (kind m) (rule_id m) (pushRules (server w)) = Some r
                /\ storedRule (kind m) (rule_id m) (pushRules (server w'))
                   = Some (mkPushRule (pr_rule_id r) (negb checked) (pr_actions r)
                             (pr_pattern r)))
          /\ dialogs w' = dialogs w
      end
  end.
Proof.
  cbv zeta.
  set (w1 := mkWorld (withPhase Persisting (state w)) (server w) (client w)
               (dialogs w) (errorLog w)).
  change (onMasterRuleChanged checked w)
    with (tryCatch
            (st <- getState ;;
             match masterPushRule st with
             | None => throw TypeError
             | Some masterRule =>
                 await (SetPushRuleEnabled "global" (kind masterRule)
                          (rule_id masterRule) (negb checked)) ;;;
                 refreshFromServer
             end)
            (fun e =>
               setState (withPhase Error) ;;;
               loggerError "Error updating master push rule:" ;;;
               showSaveError) w1).
  destruct (masterPushRule (state w)) as [m|] eqn:Hm.
  - set (toggle := SetPushRuleEnabled "global" (kind m) (rule_id m) (negb checked)).
    assert (Hbody : (st <- getState ;;
                     match masterPushRule st with
                     | None => throw TypeError
                     | Some masterRule =>
                         await (SetPushRuleEnabled "global" (kind masterRule)
                                  (rule_id masterRule) (negb checked)) ;;;
                         refreshFromServer
                     end) w1
                    = (issue [toggle] ;;; refreshFromServer) w1).
    { unfold bind at 1. unfold getState. simpl. rewrite Hm.
      apply bind_issue; [now rewrite issue_one|reflexivity]. }
    destruct (handle toggle (server w)) as [s1|] eqn:E.
    + assert (F : firstRejected [toggle] (server w1) = None) by (simpl; now rewrite E).
      destruct (saving_accepted _ [toggle] "Error updating master push rule:" w1 Hbody F)
        as [H1 [H2 [H3 _]]].
      split; [exact H1|]. split; [|exact H3].
      pose proof (handle_Some _ _ _ E) as [_ [A _]].
      change (server w1) with (server w) in H2. cbn [applyAll] in H2.
      rewrite A in H2. inversion H2 as [H2'].
      destruct (applyCall_SetPushRuleEnabled _ _ _ _ _ _ A) as [r [Hr1 Hr2]].
      exists r. split; [exact Hr1|exact Hr2].
    + assert (F : firstRejected [toggle] (server w1) = Some 0) by (simpl; now rewrite E).
      destruct (saving_rejected _ [toggle] "Error updating master push rule:" w1 Hbody 0 F)
        as [H1 [H2 [H3 [H4 _]]]].
      cbn [firstn applyAll] in H2. inversion H2 as [H2'].
      repeat split; auto.
  - match goal with
    | |- context [tryCatch ?m ?h w1] =>
        assert (B : m w1 = (Throw TypeError, w1))
          by (unfold bind, getState; simpl; now rewrite Hm)
    end.
    unfold tryCatch. rewrite B. simpl. repeat split; reflexivity.
Qed.

(* =============================================================== *)
(** ** Synced rules that do not exist, rows that cannot be saved *)

Lemma In_firstn {A} (n : nat) (l : list A) (x : A) : In x (firstn n l) -> In x l.
Proof.
  intro H. rewrite <- (firstn_skipn n l). apply in_or_app. now left.
Qed.

Lemma existingRules_In (cli : Client) (ids : list string) (kr : PushRuleKind * IPushRule) :
  In kr (existingRules cli ids)
  <-> exists id, In id ids /\ getPushRuleAndKindById cli id = Some kr.
Proof.
  induction ids as [|i ids IH]; simpl.
  - split; [intros []|intros [id [[] _]]].
  - destruct (getPushRuleAndKindById cli i) as [x|] eqn:E; simpl; rewrite ?IH.
    + split.
      * intros [<-|[id [H1 H2]]]; eauto.
      * intros [id [[<-|H1] H2]]; [left; congruence|right; eauto].
    + split.
      * intros [id [H1 H2]]; eauto.
      * intros [id [[<-|H1] H2]]; [congruence|eauto].
Qed.

(** X12: [updateSyncedRules] ignores the synced ids that the push
    processor does not know: every request it sends is one of the
    requests of [setPushRuleActions] for a rule the processor returned
    for one of the ids; without ids, or when none of them exists, it
    sends nothing and returns. *)
Theorem updateSyncedRules_ignores_missing_rules
    (ids : option (list string)) (acts : option (list PushRuleAction)) (w : World) :
  let result := updateSyncedRules ids acts w in
  (exists sent,
     received (server (snd result)) = received (server w) ++ sent
     /\ forall c, In c sent ->
          exists l id k r,
            ids = Some l /\ In id l
            /\ getPushRuleAndKindById (client w) id = Some (k, r)
            /\ In c (ruleCalls (pr_rule_id r) k acts))
  /\ ((forall l id, ids = Some l -> In id l ->
                    getPushRuleAndKindById (client w) id = None) ->
      result = (Return tt, w)).
Proof.
  cbv zeta. rewrite updateSyncedRules_issue. split.
  - assert (P : forall c, In c (syncedCalls (client w) ids acts) ->
                  exists l id k r,
                    ids = Some l /\ In id l
                    /\ getPushRuleAndKindById (client w) id = Some (k, r)
                    /\ In c (ruleCalls (pr_rule_id r) k acts)).
    { intros c Hc. unfold syncedCalls in Hc. destruct ids as [l|]; [|destruct Hc].
      apply in_flat_map in Hc. destruct Hc as [[k r] [H1 H2]].
      apply existingRules_In in H1. destruct H1 as [id [H3 H4]].
      exists l, id, k, r. auto. }
    destruct (firstRejected (syncedCalls (client w) ids acts) (server w)) as [k|] eqn:F.
    + destruct (issue_rejected _ w k F) as [s' [c [_ [E [H1 _]]]]].
      rewrite E. simpl. eexists. split; [exact H1|].
      intros c' Hc'. apply P. now apply In_firstn in Hc'.
    + destruct (issue_accepted _ w F) as [s' [E [H1 _]]].
      rewrite E. simpl. eexists. split; [exact H1|exact P].
  - intro H.
    assert (E : syncedCalls (client w) ids acts = []).
    { unfold syncedCalls. destruct ids as [l|]; [|reflexivity].
      assert (E : existingRules (client w) l = []).
      { destruct (existingRules (client w) l) as [|kr t] eqn:X; [reflexivity|].
        assert (Hin : In kr (existingRules (client w) l)) by (rewrite X; now left).
        apply existingRules_In in Hin. destruct Hin as [id [H1 H2]].
        rewrite (H l id eq_refl H1) in H2. discriminate. }
      now rewrite E. }
    rewrite E. reflexivity.
Qed.

(** X13: a row that cannot be saved sends nothing.  On the row of a rule
    without an entry in the table of definitions, or without a rule, and
    on the keywords row when the state has no keyword rules, the server
    receives no request: [onRadioChecked] catches the TypeError, ends in
    the Error phase and shows the save-error dialog. *)
Theorem onRadioChecked_unsaveable_row_sends_nothing
    (row : IVectorPushRule) (checkedState : VectorState) (w : World) :
  (if ruleId row =? KEYWORD_RULE_ID
   then vectorKeywordRuleInfo (state w) = None
   else VectorPushRulesDefinitions (ruleId row) = None \/ rule row = None) ->
  let result := onRadioChecked row checkedState w in
  fst result = Return tt
  /\ server (snd result) = server w
  /\ phase (state (snd result)) = Error
  /\ dialogs (snd result) = dialogs w ++ [_t "Error saving notification preferences"].
Proof.
  intros H result. subst result.
  set (w1 := mkWorld (withPhase Persisting (state w)) (server w) (client w)
               (dialogs w) (errorLog w)).
  change (onRadioChecked row checkedState w)
    with (tryCatch
            ((if ruleId row =? KEYWORD_RULE_ID then
                st <- getState ;;
                match vectorKeywordRuleInfo st with
                | None => throw TypeError
                | Some info => forOf (kw_rules info) (updateKeywordRule checkedState)
                end
              else
                match VectorPushRulesDefinitions (ruleId row), rule row with
                | Some definition, Some target =>
                    let acts := vectorStateToActions definition checkedState in
                    setPushRuleActions (rule_id target) (kind target) acts ;;;
                    updateSyncedRules (syncedRuleIds definition) acts
                | _, _ => throw TypeError
                end) ;;;
             refreshFromServer)
            (fun e =>
               setState (withPhase Error) ;;;
               loggerError "Error updating push rule:" ;;;
               showSaveError) w1).
  match goal with
  | |- context [tryCatch ?m ?h w1] =>
      assert (B : m w1 = (Throw TypeError, w1))
  end.
  { destruct (ruleId row =? KEYWORD_RULE_ID).
    - unfold bind, getState. simpl. now rewrite H.
    - unfold bind. destruct H as [H|H]; rewrite H; [reflexivity|].
      now destruct (VectorPushRulesDefinitions (ruleId row)). }
  cbv zeta in B. unfold tryCatch. rewrite B. simpl. repeat split; reflexivity.
Qed.

(* =============================================================== *)
(** ** The keywords row: Off, and a target already reached *)

Lemma applyAll_disables (l : list IAnnotatedPushRule) :
  forall t t',
    applyAll (map (fun r => SetPushRuleEnabled "global" (kind r) (rule_id r) false) l) t
    = Some t' ->
    (forall k id, option_map pr_actions (storedRule k id t')
                  = option_map pr_actions (storedRule k id t))
    /\ (forall k id sr, storedRule k id t = Some sr -> pr_enabled sr = false ->
                        exists sr', storedRule k id t' = Some sr'
                                    /\ pr_enabled sr' = false)
    /\ (forall r, In r l ->
                  exists sr, storedRule (kind r) (rule_id r) t' = Some sr
                             /\ pr_enabled sr = false).
Proof.
  induction l as [|r l IH]; intros t t' H; simpl in H.
  - inversion H; subst t'. repeat split; eauto. intros r [].
  - destruct (hasRule (rule_id r) (rulesOfKind (kind r) t)) eqn:Hh; [|discriminate].
    set (t1 := setRulesOfKind (kind r)
                 (updateRule (fun r0 => mkPushRule (pr_rule_id r0) false (pr_actions r0)
                                          (pr_pattern r0))
                    (rule_id r) (rulesOfKind (kind r) t)) t) in *.
    assert (A : applyCall (SetPushRuleEnabled "global" (kind r) (rule_id r) false) t
                = Some t1) by (simpl; now rewrite Hh).
    pose proof (applyCall_SetPushRuleEnabled_all _ _ _ _ _ _ A) as S.
    destruct (IH t1 t' H) as [I1 [I2 I3]].
    assert (P2 : forall k id sr, storedRule k id t = Some sr -> pr_enabled sr = false ->
                   exists sr', storedRule k id t' = Some sr' /\ pr_enabled sr' = false).
    { intros k id sr Hs He. apply (I2 k id
        (if PushRuleKind_eqb k (kind r) && (id =? rule_id r)
         then mkPushRule (pr_rule_id sr) false (pr_actions sr) (pr_pattern sr) else sr)).
      - now rewrite S, Hs.
      - now destruct (PushRuleKind_eqb k (kind r) && (id =? rule_id r)). }
    repeat split.
    + intros k id. rewrite I1, S.
      destruct (storedRule k id t) as [sr|]; [|reflexivity]. simpl.
      now destruct (PushRuleKind_eqb k (kind r) && (id =? rule_id r)).
    + exact P2.
    + intros r' [<-|Hr']; [|now apply I3].
      destruct (applyCall_SetPushRuleEnabled _ _ _ _ _ _ A) as [sr [Hs1 Hs2]].
      now apply (I2 _ _ _ Hs2).
Qed.

(** X14: setting the keywords row to Off sends every keyword rule a
    disable, in order, and never rewrites actions: whatever is rejected,
    the stored actions of every rule are what they were; and when nothing
    is rejected every keyword rule ends disabled. *)
Theorem onRadioChecked_keywords_off_only_disables
    (row : IVectorPushRule) (info : IContentRules) (w : World) :
  (ruleId row =? KEYWORD_RULE_ID) = true ->
  vectorKeywordRuleInfo (state w) = Some info ->
  let disables := map (fun r => SetPushRuleEnabled "global" (kind r) (rule_id r) false)
                    (kw_rules info) in
  let w' := snd (onRadioChecked row Off w) in
  (forall k id, option_map pr_actions (storedRule k id (pushRules (server w')))
                = option_map pr_actions (storedRule k id (pushRules (server w))))
  /\ match firstRejected disables (server w) with
     | Some j => received (server w') = received (server w) ++ firstn (S j) disables
     | None =>
         received (server w')
         = received (server w) ++ disables ++ [GetPushRules; GetPushers; GetThreePids]
         /\ forall r, In r (kw_rules info) ->
                      exists sr, storedRule (kind r) (rule_id r) (pushRules (server w'))
                                 = Some sr
                                 /\ pr_enabled sr = false
     end.
Proof.
  intros Hk Hi disables w'.
  assert (Hplan : disables = keywordCalls Off info).
  { subst disables. unfold keywordCalls. rewrite flat_map_concat_map.
    induction (kw_rules info) as [|r l IH]; [reflexivity|].
    simpl. now rewrite <- IH. }
  set (w1 := mkWorld (withPhase Persisting (state w)) (server w) (client w)
               (dialogs w) (errorLog w)).
  pose proof (onRadioChecked_keywords_body row Off info w1 Hk Hi) as Hbody.
  rewrite <- Hplan in Hbody.
  destruct (firstRejected disables (server w)) as [j|] eqn:F.
  - destruct (saving_rejected _ disables "Error updating push rule:" w1 Hbody j F)
      as [H1 [H2 _]].
    split; [|exact H1].
    subst disables. rewrite firstn_map in H2.
    destruct (applyAll_disables _ _ _ H2) as [A _]. exact A.
  - destruct (saving_accepted _ disables "Error updating push rule:" w1 Hbody F)
      as [H1 [H2 _]].
    destruct (applyAll_disables _ _ _ H2) as [A [_ C]].
    split; [exact A|]. split; [exact H1|exact C].
Qed.

(** X15: a target the keyword rules already have costs no mutation: on the
    keywords row with target On (or Loud), when every keyword rule has
    exactly one action (three actions) and the aggregate state is not Off,
    [onRadioChecked] only refreshes. *)
Theorem onRadioChecked_keywords_already_set
    (row : IVectorPushRule) (checkedState : VectorState)
    (info : IContentRules) (w : World) :
  (ruleId row =? KEYWORD_RULE_ID) = true ->
  vectorKeywordRuleInfo (state w) = Some info ->
  checkedState <> Off ->
  kw_vectorState info <> Off ->
  (forall r, In r (kw_rules info) ->
             List.length (actions r) = match checkedState with
                                       | Loud => 3
                                       | _ => 1
                                       end) ->
  let w' := snd (onRadioChecked row checkedState w) in
  received (server w') = received (server w) ++ [GetPushRules; GetPushers; GetThreePids]
  /\ pushRules (server w') = pushRules (server w).
Proof.
  intros Hk Hi Hc Ho Hall w'.
  assert (Hplan : keywordCalls checkedState info = []).
  { unfold keywordCalls. induction (kw_rules info) as [|r l IH]; [reflexivity|].
    simpl. rewrite IH by (intros r' Hr'; apply Hall; now right).
    rewrite app_nil_r. unfold keywordRuleCalls, rewritesActions, setsEnabled.
    specialize (Hall r (or_introl eq_refl)).
    assert (E : VectorState_eqb (kw_vectorState info) Off = false)
      by (destruct (kw_vectorState info); simpl; congruence).
    rewrite E. destruct checkedState; [congruence| |]; rewrite Hall; reflexivity. }
  set (w1 := mkWorld (withPhase Persisting (state w)) (server w) (client w)
               (dialogs w) (errorLog w)).
  pose proof (onRadioChecked_keywords_body row checkedState info w1 Hk Hi) as Hbody.
  rewrite Hplan in Hbody.
  destruct (saving_accepted _ [] "Error updating push rule:" w1 Hbody eq_refl)
    as [H1 [H2 _]].
  split; [exact H1|]. simpl in H2. now inversion H2.
Qed.

(* =============================================================== *)
(** ** What [setKeywords] sends *)

Lemma deleteCalls_In (words : list string) (originalRules : list IAnnotatedPushRule)
    (c : Call) :
  In c (deleteCalls words originalRules)
  <-> exists word r, In word words /\ In r originalRules
                     /\ pattern r = Some word
                     /\ c = DeletePushRule "global" (kind r) (rule_id r).
Proof.
  unfold deleteCalls. rewrite in_flat_map. split.
  - intros [word [H1 H2]]. apply in_map_iff in H2. destruct H2 as [r [E H2]].
    apply filter_In in H2. destruct H2 as [H2 H3].
    unfold hasPattern in H3. apply optString_eqb_eq in H3. exists word, r. auto.
  - intros [word [r [H1 [H2 [H3 E]]]]]. exists word. split; [exact H1|].
    apply in_map_iff. exists r. split; [now symmetry|].
    apply filter_In. split; [exact H2|].
    unfold hasPattern. now apply optString_eqb_eq.
Qed.

Lemma addCalls_In (s : VectorState) (words : list string) (c : Call) :
  In c (addCalls s words)
  <-> exists word, In word words
                   /\ (c = AddPushRule "global" ContentSpecific word (actionsFor s) word
                       \/ (s = Off
                           /\ c = SetPushRuleEnabled "global" ContentSpecific word false)).
Proof.
  unfold addCalls. rewrite in_flat_map. split.
  - intros [word [H1 [H2|H2]]]; [exists word; auto|].
    destruct (VectorState_eqb s Off) eqn:E; [|destruct H2].
    apply VectorState_eqb_eq in E. destruct H2 as [H2|[]]. exists word. auto.
  - intros [word [H1 [H2|[H2 H3]]]]; exists word; (split; [exact H1|]).
    + now left.
    + subst s. right. now left.
Qed.

Lemma saving_sent (m : Async unit) (plan : list Call) (label : string) (w : World) :
  m w = (issue plan ;;; refreshFromServer) w ->
  let saved := tryCatch m (fun e => setState (withPhase Error) ;;; loggerError label ;;;
                                    showSaveError) w in
  match firstRejected plan (server w) with
  | Some k => received (server (snd saved)) = received (server w) ++ firstn (S k) plan
  | None => received (server (snd saved)) = received (server w) ++ plan ++ refreshCalls
  end.
Proof.
  intros Hm saved. subst saved.
  destruct (firstRejected plan (server w)) as [k|] eqn:F.
  - now destruct (saving_rejected m plan label w Hm k F) as [H _].
  - now destruct (saving_accepted m plan label w Hm F) as [H _].
Qed.

Lemma saving_rejected_state (m : Async unit) (plan : list Call) (label : string)
    (w : World) (k : nat) :
  m w = (issue plan ;;; refreshFromServer) w ->
  firstRejected plan (server w) = Some k ->
  state (snd (tryCatch m (fun e => setState (withPhase Error) ;;; loggerError label ;;;
                                   showSaveError) w))
  = withPhase Error (state w).
Proof.
  intros Hm F. destruct (issue_rejected plan w k F) as [s' [c [_ [E _]]]].
  assert (B : m w = (Throw (RequestRejected c), withServer s' w)).
  { rewrite Hm. unfold bind. now rewrite E. }
  unfold tryCatch. rewrite B. reflexivity.
Qed.

(** X16: when the tag list holds the same non-empty words as the patterns
    of the existing keyword rules, in any order and with any repetitions,
    [setKeywords] creates and deletes nothing: it only refreshes. *)
Theorem setKeywords_same_words_only_refreshes
    (keywords : list string) (originalRules : list IAnnotatedPushRule)
    (info : IContentRules) (w : World) :
  vectorKeywordRuleInfo (state w) = Some info ->
  (forall word, word <> "" ->
                (In word keywords <-> In (Some word) (map pattern originalRules))) ->
  let w' := snd (setKeywords keywords originalRules w) in
  received (server w') = received (server w) ++ [GetPushRules; GetPushers; GetThreePids]
  /\ pushRules (server w') = pushRules (server w).
Proof.
  intros Hi Hsame w'.
  assert (Hplan : setKeywordsCalls info keywords originalRules = []).
  { unfold setKeywordsCalls.
    assert (A : added (diffKeywords (map pattern originalRules) keywords) = []).
    { destruct (added _) as [|x l] eqn:E; [reflexivity|]. exfalso.
      assert (Hx : In x (added (diffKeywords (map pattern originalRules) keywords)))
        by (rewrite E; now left).
      apply diffKeywords_added in Hx. destruct Hx as [H1 [H2 H3]].
      apply H3. now apply Hsame. }
    assert (B : removed (diffKeywords (map pattern originalRules) keywords) = []).
    { destruct (removed _) as [|x l] eqn:E; [reflexivity|]. exfalso.
      assert (Hx : In x (removed (diffKeywords (map pattern originalRules) keywords)))
        by (rewrite E; now left).
      apply diffKeywords_removed in Hx. destruct Hx as [H1 [H2 H3]].
      apply H3. now apply Hsame. }
    now rewrite A, B. }
  pose proof (setKeywords_body keywords originalRules info w Hi) as Hbody.
  rewrite Hplan in Hbody.
  destruct (saving_accepted _ [] "Error updating keyword push rules:" w Hbody eq_refl)
    as [H1 [H2 _]].
  split; [exact H1|]. simpl in H2. now inversion H2.
Qed.

(** X17: what [setKeywords] never sends.  Whatever the server rejects,
    every deletion it sends is for an existing rule whose non-empty
    pattern is no longer in the tag list, every creation is a content rule
    for a non-empty word of the tag list that no existing rule has as its
    pattern (with the word as rule id), every enable-flag request is a
    disable of such a new word, and it never rewrites the actions of a
    rule. *)
Theorem setKeywords_sends_only_the_difference
    (keywords : list string) (originalRules : list IAnnotatedPushRule)
    (info : IContentRules) (w : World) :
  vectorKeywordRuleInfo (state w) = Some info ->
  let w' := snd (setKeywords keywords originalRules w) in
  let isNew (word : string) :=
    In word keywords /\ word <> "" /\ ~ In (Some word) (map pattern originalRules) in
  exists sent,
    received (server w') = received (server w) ++ sent
    /\ forall c, In c sent ->
         match c with
         | DeletePushRule scope k id =>
             exists r word,
               In r originalRules /\ kind r = k /\ rule_id r = id
               /\ pattern r = Some word /\ word <> "" /\ ~ In word keywords
         | AddPushRule scope k id acts pat =>
             k = ContentSpecific /\ id = pat /\ isNew pat
             /\ acts = actionsFor (newKeywordState info originalRules)
         | SetPushRuleEnabled scope k id on =>
             k = ContentSpecific /\ on = false /\ isNew id
         | SetPushRuleActions _ _ _ _ => False
         | GetPushRules | GetPushers | GetThreePids => True
         end.
Proof.
  intros Hi w' isNew.
  set (plan := setKeywordsCalls info keywords originalRules).
  assert (P : forall c, In c (plan ++ refreshCalls) ->
                match c with
                | DeletePushRule scope k id =>
                    exists r word,
                      In r originalRules /\ kind r = k /\ rule_id r = id
                      /\ pattern r = Some word /\ word <> "" /\ ~ In word keywords
                | AddPushRule scope k id acts pat =>
                    k = ContentSpecific /\ id = pat /\ isNew pat
                    /\ acts = actionsFor (newKeywordState info originalRules)
                | SetPushRuleEnabled scope k id on =>
                    k = ContentSpecific /\ on = false /\ isNew id
                | SetPushRuleActions _ _ _ _ => False
                | GetPushRules | GetPushers | GetThreePids => True
                end).
  { intros c Hc. apply in_app_or in Hc. destruct Hc as [Hc|Hc].
    - subst plan. unfold setKeywordsCalls in Hc. apply in_app_or in Hc.
      destruct Hc as [Hc|Hc].
      + apply deleteCalls_In in Hc. destruct Hc as [word [r [H1 [H2 [H3 ->]]]]].
        apply diffKeywords_removed in H1. destruct H1 as [_ [H4 H5]].
        exists r, word. repeat split; auto.
      + apply addCalls_In in Hc. destruct Hc as [word [H1 H2]].
        apply diffKeywords_added in H1. destruct H1 as [H1 [H3 H4]].
        destruct H2 as [->|[_ ->]]; subst isNew; simpl; repeat split; auto.
    - destruct Hc as [<-|[<-|[<-|[]]]]; exact I. }
  pose proof (setKeywords_body keywords originalRules info w Hi) as Hbody.
  pose proof (saving_sent _ plan "Error updating keyword push rules:" w Hbody) as Hsent.
  cbv zeta in Hsent. fold plan in Hsent.
  destruct (firstRejected plan (server w)) as [k|].
  - exists (firstn (S k) plan). split; [exact Hsent|].
    intros c Hc. apply P. apply in_or_app. left. now apply In_firstn in Hc.
  - exists (plan ++ refreshCalls). split; [exact Hsent|exact P].
Qed.

(** X18: what [setKeywords] does not forget.  When no request is rejected,
    a deletion has been sent for every existing rule whose non-empty
    pattern is no longer in the tag list, and a creation for every
    non-empty word of the tag list that no existing rule has as its
    pattern; all the deletions precede all the creations. *)
Theorem setKeywords_sends_the_whole_difference
    (keywords : list string) (originalRules : list IAnnotatedPushRule)
    (info : IContentRules) (w : World) :
  vectorKeywordRuleInfo (state w) = Some info ->
  firstRejected (setKeywordsCalls info keywords originalRules) (server w) = None ->
  let w' := snd (setKeywords keywords originalRules w) in
  exists deletions creations,
    received (server w')
    = received (server w) ++ deletions ++ creations
        ++ [GetPushRules; GetPushers; GetThreePids]
    /\ (forall c, In c deletions -> exists k id, c = DeletePushRule "global" k id)
    /\ (forall c, In c creations -> forall scope k id, c <> DeletePushRule scope k id)
    /\ (forall r word,
          In r originalRules -> pattern r = Some word -> word <> "" ->
          ~ In word keywords ->
          In (DeletePushRule "global" (kind r) (rule_id r)) deletions)
    /\ (forall word,
          In word keywords -> word <> "" ->
          ~ In (Some word) (map pattern originalRules) ->
          In (AddPushRule "global" ContentSpecific word
                (actionsFor (newKeywordState info originalRules)) word) creations).
Proof.
  intros Hi F w'.
  pose proof (setKeywords_body keywords originalRules info w Hi) as Hbody.
  destruct (saving_accepted _ _ "Error updating keyword push rules:" w Hbody F)
    as [H1 _].
  exists (deleteCalls (removed (diffKeywords (map pattern originalRules) keywords))
            originalRules),
         (addCalls (newKeywordState info originalRules)
            (added (diffKeywords (map pattern originalRules) keywords))).
  split; [|repeat split].
  - unfold setKeywordsCalls in H1. rewrite <- !app_assoc in H1. exact H1.
  - intros c Hc. apply deleteCalls_In in Hc.
    destruct Hc as [word [r [_ [_ [_ ->]]]]]. eauto.
  - intros c Hc scope k id. apply addCalls_In in Hc.
    destruct Hc as [word [_ [->|[_ ->]]]]; discriminate.
  - intros r word Hr Hp Hne Hn. apply deleteCalls_In. exists word, r.
    repeat split; auto. apply diffKeywords_removed. repeat split; auto.
    apply in_map_iff. exists r. auto.
  - intros word Hin Hne Hn. apply addCalls_In. exists word. split; [|now left].
    apply diffKeywords_added. auto.
Qed.

(* =============================================================== *)
(** ** Adding and removing a keyword tag *)

Lemma truthyWords_filter_Some (p : string -> bool) (l : list string) :
  truthyWords (map Some (filter p l)) = filter p (truthyWords (map Some l)).
Proof.
  induction l as [|x l IH]; [reflexivity|]. simpl.
  destruct (p x) eqn:E; destruct x as [|c s]; simpl; rewrite ?E, IH; reflexivity.
Qed.

Lemma truthyWords_filter_opt (s : string) (l : list (option string)) :
  truthyWords (filter (fun y => negb (optString_eqb y (Some s))) l)
  = filter (fun w => negb (w =? s)) (truthyWords l).
Proof.
  induction l as [|y l IH]; [reflexivity|].
  cbn [filter]. destruct y as [[|c x]|]; cbn [optString_eqb].
  - destruct ("" =? s); cbn [negb truthyWords]; exact IH.
  - destruct (String c x =? s) eqn:E; cbn [negb truthyWords filter];
      rewrite ?E; cbn [negb]; now rewrite IH.
  - cbn [negb truthyWords]. exact IH.
Qed.

Lemma truthyWords_filter_falsy (x : option string) (l : list (option string)) :
  truthyWords [x] = [] ->
  truthyWords (filter (fun y => negb (optString_eqb y x)) l) = truthyWords l.
Proof.
  intro Hx. induction l as [|y l IH]; [reflexivity|]. simpl.
  destruct (optString_eqb y x) eqn:E; simpl.
  - apply optString_eqb_eq in E. subst y.
    destruct x as [[|c s]|]; simpl in *; try discriminate; exact IH.
  - destruct y as [[|c s]|]; simpl; now rewrite IH.
Qed.

(** Dropping the undefined and empty words before or after the
    de-duplication gives the same words. *)
Lemma truthyWords_fromSet (l : list (option string)) :
  truthyWords (map Some (fromSet String.eqb (truthyWords l)))
  = truthyWords (fromSet optString_eqb l).
Proof.
  induction l as [|x l IH]; [reflexivity|].
  destruct x as [[|c s]|].
  - simpl. rewrite (truthyWords_filter_falsy (Some "")) by reflexivity. exact IH.
  - change (truthyWords (Some (String c s) :: l)) with (String c s :: truthyWords l).
    simpl fromSet. simpl map. simpl truthyWords.
    rewrite truthyWords_filter_Some, truthyWords_filter_opt, IH. reflexivity.
  - simpl. rewrite (truthyWords_filter_falsy None) by reflexivity. exact IH.
Qed.

Lemma NoDup_at_most (l : list string) (k : string) (b : bool) :
  NoDup l -> (forall x, In x l <-> x = k /\ b = true) ->
  l = if b then [k] else [].
Proof.
  intros Hn H. destruct l as [|x l].
  - destruct b; [|reflexivity]. exfalso. apply (proj2 (H k)); auto.
  - destruct (proj1 (H x) (or_introl eq_refl)) as [-> ->].
    destruct l as [|y l]; [reflexivity|]. exfalso.
    destruct (proj1 (H y) (or_intror (or_introl eq_refl))) as [-> _].
    inversion Hn as [|? ? Hx _]. apply Hx. now left.
Qed.

Lemma no_members {A} (l : list A) : (forall x, ~ In x l) -> l = [].
Proof.
  intro H. destruct l as [|x l]; [reflexivity|]. exfalso. apply (H x). now left.
Qed.

Lemma diffKeywords_NoDup (oldWords : list (option string)) (newWords : list string) :
  NoDup (added (diffKeywords oldWords newWords))
  /\ NoDup (removed (diffKeywords oldWords newWords)).
Proof.
  unfold diffKeywords, arrayDiff; simpl. split.
  - apply NoDup_filter, truthyWords_NoDup, NoDup_map_Some.
    apply (fromSet_NoDup String.eqb String.eqb_eq).
  - apply NoDup_filter, truthyWords_NoDup.
    apply (fromSet_NoDup optString_eqb optString_eqb_eq).
Qed.

Lemma existsb_hasPattern (keyword : string) (rules : list IAnnotatedPushRule) :
  existsb (hasPattern keyword) rules = true <-> In (Some keyword) (map pattern rules).
Proof.
  rewrite existsb_exists, in_map_iff. unfold hasPattern.
  split; intros [r [H1 H2]]; exists r.
  - apply optString_eqb_eq in H2. auto.
  - split; [exact H2|]. now apply optString_eqb_eq.
Qed.

(** The difference [onKeywordRemove] hands to [setKeywords]. *)
Lemma diffKeywords_remove (keyword : string) (rules : list IAnnotatedPushRule) :
  let kept := filter (fun r => negb (optString_eqb (pattern r) (Some keyword))) rules in
  let diff := diffKeywords (map pattern rules) (truthyWords (map pattern kept)) in
  added diff = []
  /\ removed diff = if negb (keyword =? "") && existsb (hasPattern keyword) rules
                    then [keyword] else [].
Proof.
  intros kept diff.
  assert (K : forall x, In x (truthyWords (map pattern kept))
                        <-> In (Some x) (map pattern rules) /\ x <> keyword /\ x <> "").
  { intro x. rewrite truthyWords_In. subst kept. rewrite !in_map_iff. split.
    - intros [[r [E H]] Hne]. apply filter_In in H. destruct H as [H1 H2].
      split; [eauto|]. split; [|exact Hne]. intros ->.
      rewrite E in H2. simpl in H2. rewrite String.eqb_refl in H2. discriminate.
    - intros [[r [E H]] [Hk Hne]]. split; [|exact Hne]. exists r. split; [exact E|].
      apply filter_In. split; [exact H|]. rewrite E. simpl.
      apply String.eqb_neq in Hk. now rewrite Hk. }
  subst diff. split.
  - apply no_members. intros x Hx. apply diffKeywords_added in Hx.
    destruct Hx as [H1 [_ H3]]. apply K in H1. tauto.
  - apply NoDup_at_most; [apply diffKeywords_NoDup|].
    intro x. rewrite diffKeywords_removed, K, andb_true_iff, negb_true_iff,
      existsb_hasPattern, String.eqb_neq.
    split.
    + intros [H1 [H2 H3]]. destruct (string_dec x keyword) as [->|N]; tauto.
    + intros [-> [H1 H2]]. tauto.
Qed.

(** The difference [onKeywordAdd] hands to [setKeywords]. *)
Lemma diffKeywords_add (keyword : string) (rules : list IAnnotatedPushRule)
    (echo : IAnnotatedPushRule) :
  pattern echo = Some keyword ->
  let diff := diffKeywords (map pattern rules)
                (truthyWords (map pattern (rules ++ [echo]))) in
  removed diff = []
  /\ added diff = if negb (keyword =? "") && negb (existsb (hasPattern keyword) rules)
                  then [keyword] else [].
Proof.
  intros He diff.
  assert (K : forall x, In x (truthyWords (map pattern (rules ++ [echo])))
                        <-> (In (Some x) (map pattern rules) \/ x = keyword) /\ x <> "").
  { intro x. rewrite truthyWords_In, map_app, in_app_iff. simpl. rewrite He.
    split; intros [[H|H] Hne]; split; auto.
    - destruct H as [H|[]]. right. congruence.
    - right. left. congruence. }
  subst diff. split.
  - apply no_members. intros x Hx. apply diffKeywords_removed in Hx.
    destruct Hx as [H1 [H2 H3]]. apply H3, K. auto.
  - apply NoDup_at_most; [apply diffKeywords_NoDup|].
    intro x. rewrite diffKeywords_added, K, andb_true_iff, !negb_true_iff,
      String.eqb_neq.
    rewrite <- not_true_iff_false, existsb_hasPattern.
    split.
    + intros [[[H1|H1] H2] [_ H3]]; [contradiction|]. subst x. tauto.
    + intros [-> [H1 H2]]. tauto.
Qed.

(** X19: removing a keyword tag deletes the rules that have the keyword as
    their pattern, one after another, and creates nothing; removing the
    empty tag sends no deletion at all.  The tag disappears from the state
    and the phase is Persisting before the first request; a rejected
    deletion stops the rest, ends in Error and shows the save-error
    dialog. *)
Theorem onKeywordRemove_deletes_the_rules_of_the_keyword
    (keyword : string) (info : IContentRules) (w : World) :
  vectorKeywordRuleInfo (state w) = Some info ->
  let deletions :=
    if keyword =? "" then []
    else map (fun r => DeletePushRule "global" (kind r) (rule_id r))
           (filter (hasPattern keyword) (kw_rules info)) in
  let w' := snd (onKeywordRemove keyword w) in
  match firstRejected deletions (server w) with
  | None =>
      received (server w')
      = received (server w) ++ deletions ++ [GetPushRules; GetPushers; GetThreePids]
  | Some k =>
      received (server w') = received (server w) ++ firstn (S k) deletions
      /\ phase (state w') = Error
      /\ dialogs w' = dialogs w ++ [_t "Error saving notification preferences"]
      /\ (exists info', vectorKeywordRuleInfo (state w') = Some info'
                        /\ forall r, In r (kw_rules info') -> pattern r <> Some keyword)
  end.
Proof.
  intros Hi deletions w'.
  set (kept := filter (fun r => negb (optString_eqb (pattern r) (Some keyword)))
                 (kw_rules info)).
  set (info' := withKeywordRules kept info).
  set (w2 := mkWorld (localEcho info' (state w)) (server w) (client w) (dialogs w)
               (errorLog w)).
  assert (E : onKeywordRemove keyword w
              = setKeywords (truthyWords (map pattern kept)) (kw_rules info) w2).
  { unfold onKeywordRemove, bind, getState. rewrite Hi. reflexivity. }
  assert (Hi2 : vectorKeywordRuleInfo (state w2) = Some info') by reflexivity.
  pose proof (setKeywords_body (truthyWords (map pattern kept)) (kw_rules info) info' w2 Hi2)
    as Hbody.
  assert (Hplan : setKeywordsCalls info' (truthyWords (map pattern kept)) (kw_rules info)
                  = deletions).
  { unfold setKeywordsCalls.
    destruct (diffKeywords_remove keyword (kw_rules info)) as [A B].
    cbv zeta in A, B. fold kept in A, B. rewrite A, B. subst deletions.
    unfold addCalls. simpl. rewrite app_nil_r.
    destruct (keyword =? ""); simpl; [reflexivity|].
    destruct (existsb (hasPattern keyword) (kw_rules info)) eqn:X; simpl.
    - unfold deleteCalls. simpl. now rewrite app_nil_r.
    - assert (F : filter (hasPattern keyword) (kw_rules info) = []).
      { apply no_members. intros r Hr. apply filter_In in Hr.
        assert (existsb (hasPattern keyword) (kw_rules info) = true)
          by (apply existsb_exists; exists r; exact Hr).
        congruence. }
      now rewrite F. }
  rewrite Hplan in Hbody. subst w'. rewrite E.
  destruct (firstRejected deletions (server w)) as [k|] eqn:F.
  - destruct (saving_rejected _ deletions "Error updating keyword push rules:" w2 Hbody k F)
      as [H1 [_ [H3 [H4 _]]]].
    split; [exact H1|]. split; [exact H3|]. split; [exact H4|].
    exists info'. split.
    + unfold setKeywords.
      now rewrite (saving_rejected_state _ deletions _ w2 k Hbody F).
    + intros r Hr. subst info' kept. simpl in Hr. apply filter_In in Hr.
      destruct Hr as [_ Hr]. intro Ep. rewrite Ep in Hr. simpl in Hr.
      rewrite String.eqb_refl in Hr. discriminate.
  - now destruct (saving_accepted _ deletions "Error updating keyword push rules:" w2
                    Hbody F) as [H1 _].
Qed.

(** X20: adding a keyword tag creates one content rule for it, with the
    keyword as rule id and pattern, and deletes nothing; adding the empty
    tag or a keyword that an existing rule already has as its pattern sends
    no creation at all.  A rejected request ends in Error and shows the
    save-error dialog. *)
Theorem onKeywordAdd_creates_the_rule_of_the_keyword
    (keywordOnlyRule : string -> IAnnotatedPushRule)
    (keyword : string) (info : IContentRules) (w : World) :
  pattern (keywordOnlyRule keyword) = Some keyword ->
  vectorKeywordRuleInfo (state w) = Some info ->
  let creations :=
    if (keyword =? "") || existsb (hasPattern keyword) (kw_rules info) then []
    else AddPushRule "global" ContentSpecific keyword
           (actionsFor (newKeywordState info (kw_rules info))) keyword
         :: (if VectorState_eqb (newKeywordState info (kw_rules info)) Off
             then [SetPushRuleEnabled "global" ContentSpecific keyword false]
             else []) in
  let w' := snd (onKeywordAdd keywordOnlyRule keyword w) in
  match firstRejected creations (server w) with
  | None =>
      received (server w')
      = received (server w) ++ creations ++ [GetPushRules; GetPushers; GetThreePids]
  | Some k =>
      received (server w') = received (server w) ++ firstn (S k) creations
      /\ phase (state w') = Error
      /\ dialogs w' = dialogs w ++ [_t "Error saving notification preferences"]
  end.
Proof.
  intros He Hi creations w'.
  set (info' := withKeywordRules (kw_rules info ++ [keywordOnlyRule keyword]) info).
  set (w2 := mkWorld (localEcho info' (state w)) (server w) (client w) (dialogs w)
               (errorLog w)).
  assert (E : onKeywordAdd keywordOnlyRule keyword w
              = setKeywords
                  (truthyWords (map pattern (kw_rules info ++ [keywordOnlyRule keyword])))
                  (kw_rules info) w2).
  { unfold onKeywordAdd, bind, getState. rewrite Hi. reflexivity. }
  assert (Hi2 : vectorKeywordRuleInfo (state w2) = Some info') by reflexivity.
  pose proof (setKeywords_body
                (truthyWords (map pattern (kw_rules info ++ [keywordOnlyRule keyword])))
                (kw_rules info) info' w2 Hi2) as Hbody.
  assert (Hplan : setKeywordsCalls info'
                    (truthyWords (map pattern (kw_rules info ++ [keywordOnlyRule keyword])))
                    (kw_rules info)
                  = creations).
  { unfold setKeywordsCalls.
    destruct (diffKeywords_add keyword (kw_rules info) (keywordOnlyRule keyword) He)
      as [A B].
    cbv zeta in A, B. rewrite A, B. subst creations.
    unfold deleteCalls. simpl.
    change (newKeywordState info' (kw_rules info))
      with (newKeywordState info (kw_rules info)).
    destruct (keyword =? ""); simpl; [reflexivity|].
    destruct (existsb (hasPattern keyword) (kw_rules info)); simpl; [reflexivity|].
    now rewrite app_nil_r. }
  rewrite Hplan in Hbody. subst w'. rewrite E.
  destruct (firstRejected creations (server w)) as [k|] eqn:F.
  - destruct (saving_rejected _ creations "Error updating keyword push rules:" w2 Hbody k F)
      as [H1 [_ [H3 [H4 _]]]].
    auto.
  - now destruct (saving_accepted _ creations "Error updating keyword push rules:" w2
                    Hbody F) as [H1 _].
Qed.

(* =============================================================== *)
(** ** What is rendered *)

Lemma makeRadio_checked (st : IState) (row : IVectorPushRule) (s : VectorState) :
  makeRadio st row s
  = StyledRadioButton (ruleId row) s
      (VectorState_eqb (match syncedVectorState row with
                        | Some v => v
                        | None => vectorState row
                        end) s)
      (persisting st).
Proof. reflexivity. Qed.

(** X21: the radio that is checked in the row of a rule is the one of the
    state the rule's own definition gives it when the definition lists no
    synced rules, and the one of the loudest state of the rule and its
    synced rules otherwise; the two other radios of the row are not
    checked. *)
Theorem row_checks_the_loudest_state
    (R : DefaultRules) (r : IAnnotatedPushRule) (d : VectorPushRuleDefinition)
    (row : IVectorPushRule) (st : IState) (s : VectorState) :
  VectorPushRulesDefinitions (rule_id r) = Some d ->
  describeRule R r = Return row ->
  let shown :=
    match syncedRuleIds d with
    | Some (i :: ids) =>
        loudest (ruleToVectorState d r)
          (map (ruleToVectorState d) (resolvable R (i :: ids)))
    | _ => ruleToVectorState d r
    end in
  exists checked,
    makeRadio st row s = StyledRadioButton (rule_id r) s checked (persisting st)
    /\ (checked = true <-> s = shown).
Proof.
  intros Hd Hrow shown. unfold describeRule in Hrow. rewrite Hd in Hrow.
  inversion Hrow; subst row. clear Hrow. unfold makeRadio. simpl.
  eexists. split; [reflexivity|].
  rewrite VectorState_eqb_eq. subst shown. unfold maximumVectorState.
  destruct (syncedRuleIds d) as [[|i ids]|]; try (split; congruence).
  rewrite fold_louderOf. split; congruence.
Qed.

Lemma Forall_flat_map {A B} (P : B -> Prop) (f : A -> list B) (l : list A) :
  (forall x, In x l -> Forall P (f x)) -> Forall P (flat_map f l).
Proof.
  intro H. induction l as [|x l IH]; simpl; [constructor|].
  apply Forall_app. split; [apply H; now left|].
  apply IH. intros y Hy. apply H. now right.
Qed.

Lemma renderTopSection_controls (st : IState) (e : Element) :
  renderTopSection st = Return e ->
  Forall (fun d => d = persisting st) (disabledControls e).
Proof.
  unfold renderTopSection. destruct (isInhibited st).
  - intro H. inversion H; subst e. repeat constructor.
  - set (emails := filter isEmail match threepids st with
                                  | Some l => l
                                  | None => []
                                  end).
    assert (G : forall known,
               Forall (fun d => d = persisting st)
                 (disabledControls
                    (Fragment
                       ([ Some (masterSwitch st);
                          Some (LabelledToggleSwitch "notif-device-switch"
                                  (deviceNotificationsEnabled st) (persisting st));
                          if deviceNotificationsEnabled st
                          then Some (Fragment
                                 [ Some (LabelledToggleSwitch
                                           "notif-setting-notificationsEnabled"
                                           (desktopNotifications st) (persisting st));
                                   Some (LabelledToggleSwitch
                                           "notif-setting-notificationBodyEnabled"
                                           (desktopShowBody st) (persisting st));
                                   Some (LabelledToggleSwitch
                                           "notif-setting-audioNotificationsEnabled"
                                           (audioNotifications st) (persisting st)) ])
                          else None ]
                        ++ map (fun e => Some (LabelledToggleSwitch "notif-email-switch"
                                                 (existsb (isEmailPusher (address e)) known)
                                                 (persisting st))) emails)))).
    { intro known. cbn [disabledControls]. rewrite flat_map_app. apply Forall_app. split.
      - destruct (deviceNotificationsEnabled st); simpl; repeat constructor.
      - apply Forall_flat_map. intros x Hx. apply in_map_iff in Hx.
        destruct Hx as [t [<- _]]. repeat constructor. }
    destruct emails as [|t ts] eqn:E; destruct (pushers st) as [ps|];
      intro H; cbv beta iota zeta in H; inversion H; subst e;
      first [exact (G ps)|exact (G [])].
Qed.

Lemma renderCategory_controls (cli : Client) (st : IState) (c : RuleClass)
    (e : Element) :
  renderCategory cli st c = Return (Some e) ->
  Forall (fun d => d = persisting st) (disabledControls e).
Proof.
  unfold renderCategory.
  destruct (negb (RuleClass_eqb c VectorOther) && isInhibited st); [discriminate|].
  destruct (RuleClass_eqb c VectorOther && isInhibited st).
  - destruct (RuleClass_eqb c VectorOther && hasUnread cli); [|discriminate].
    intro H. inversion H; subst e. constructor.
  - destruct (vectorPushRules st) as [table|]; [|discriminate].
    assert (G : forall name button,
               (forall b, button = Some b -> disabledControls b = []) ->
               Forall (fun d => d = persisting st)
                 (disabledControls
                    (Fragment
                       [ Some (Grid name
                                 (match c with
                                  | VectorGlobal => _t "Global"
                                  | VectorMentions => _t "Mentions & keywords"
                                  | _ => _t "Other"
                                  end)
                                 match table c with
                                 | Some rows => map (fieldsetRow st c) rows
                                 | None => []
                                 end);
                         button;
                         if RuleClass_eqb c VectorMentions
                         then Some (TagComposer
                                      match vectorKeywordRuleInfo st with
                                      | Some info => map pattern (kw_rules info)
                                      | None => []
                                      end (persisting st))
                         else None ]))).
    { intros name button Hb. cbn [disabledControls flat_map].
      repeat (apply Forall_app; split).
      - apply Forall_flat_map. intros x Hx.
        destruct (table c) as [rows|]; [|destruct Hx].
        apply in_map_iff in Hx. destruct Hx as [row [<- _]]. repeat constructor.
      - destruct button as [b|]; [rewrite (Hb b eq_refl)|]; constructor.
      - destruct (RuleClass_eqb c VectorMentions); repeat constructor.
      - constructor. }
    assert (B : forall b,
               (if RuleClass_eqb c VectorOther && hasUnread cli
                then Some (AccessibleButton "clear-notifications" (_t "Mark all as read")
                             (clearingNotifications st))
                else None) = Some b -> disabledControls b = []).
    { intros b Hb. destruct (RuleClass_eqb c VectorOther && hasUnread cli);
        inversion Hb. reflexivity. }
    destruct c; try discriminate; intro H; inversion H; subst e; apply G; exact B.
Qed.

Lemma renderTargets_controls (st : IState) (e : Element) :
  renderTargets st = Return (Some e) -> disabledControls e = [].
Proof.
  unfold renderTargets. destruct (isInhibited st); [discriminate|].
  destruct (pushers st) as [[|p ps]|]; try discriminate.
  intro H. inversion H; subst e. cbn [disabledControls].
  assert (G : forall l : list IPusher,
             flat_map disabledControls
               (map (fun p => TargetRow (app_display_name p) (device_display_name p)) l)
             = []).
  { induction l as [|x l IH]; [reflexivity|exact IH]. }
  apply G.
Qed.

(** X22: in everything [render] returns, each switch, radio button and
    the keyword composer is disabled exactly when the phase is Persisting:
    while a change is being saved no control accepts another one, and in
    the Ready phase none is disabled. *)
Theorem render_disables_controls_while_persisting (w : World) (e : Element) :
  render w = Return e ->
  Forall (fun disabled => disabled = Phase_eqb (phase (state w)) Persisting)
    (disabledControls e).
Proof.
  unfold render.
  assert (G : match renderTopSection (state w) with
              | Return top =>
                  match renderCategory (client w) (state w) VectorGlobal with
                  | Return g =>
                      match renderCategory (client w) (state w) VectorMentions with
                      | Return m =>
                          match renderCategory (client w) (state w) VectorOther with
                          | Return o =>
                              match renderTargets (state w) with
                              | Return t => Return (UserNotifSettings [Some top; g; m; o; t])
                              | Throw e0 => Throw e0
                              end
                          | Throw e0 => Throw e0
                          end
                      | Throw e0 => Throw e0
                      end
                  | Throw e0 => Throw e0
                  end
              | Throw e0 => Throw e0
              end = Return e ->
              Forall (fun disabled => disabled = persisting (state w))
                (disabledControls e)).
  { destruct (renderTopSection (state w)) as [top|] eqn:T; [|discriminate].
    destruct (renderCategory (client w) (state w) VectorGlobal) as [g|] eqn:Cg;
      [|discriminate].
    destruct (renderCategory (client w) (state w) VectorMentions) as [m|] eqn:Cm;
      [|discriminate].
    destruct (renderCategory (client w) (state w) VectorOther) as [o|] eqn:Co;
      [|discriminate].
    destruct (renderTargets (state w)) as [t|] eqn:Ct; [|discriminate].
    intro H. inversion H; subst e. cbn [disabledControls flat_map].
    repeat (apply Forall_app; split).
    - now apply renderTopSection_controls.
    - destruct g as [x|]; [now apply renderCategory_controls in Cg|constructor].
    - destruct m as [x|]; [now apply renderCategory_controls in Cm|constructor].
    - destruct o as [x|]; [now apply renderCategory_controls in Co|constructor].
    - destruct t as [x|]; [rewrite (renderTargets_controls _ _ Ct)|]; constructor.
    - constructor. }
  unfold persisting in G.
  destruct (phase (state w)); try exact G; intro H; inversion H; constructor.
Qed.

Lemma render_renderable (w : World) :
  renderable (state w) -> exists e, render w = Return e.
Proof.
  unfold renderable, render. intro H.
  destruct (phase (state w)) eqn:P; try (eexists; reflexivity);
    (destruct H as [H|[H|[H1 H2]]]; [discriminate|discriminate|]);
    destruct (pushers (state w)) as [ps|] eqn:Ps; try congruence;
    destruct (vectorPushRules (state w)) as [table|] eqn:V; try congruence.
  all: assert (T : exists top, renderTopSection (state w) = Return top)
         by (unfold renderTopSection; rewrite Ps;
             destruct (isInhibited (state w)); [eexists; reflexivity|];
             destruct (filter isEmail _); eexists; reflexivity).
  all: assert (C : forall c, isVectorCategory c = true ->
                     exists x, renderCategory (client w) (state w) c = Return x)
         by (intros c Hc; unfold renderCategory; rewrite V;
             destruct (negb (RuleClass_eqb c VectorOther) && isInhibited (state w));
             [eexists; reflexivity|];
             destruct (RuleClass_eqb c VectorOther && isInhibited (state w));
             [destruct (RuleClass_eqb c VectorOther && hasUnread (client w));
              eexists; reflexivity|];
             destruct c; try discriminate; eexists; reflexivity).
  all: assert (G : exists t, renderTargets (state w) = Return t)
         by (unfold renderTargets; rewrite Ps;
             destruct (isInhibited (state w)); [eexists; reflexivity|];
             destruct ps; eexists; reflexivity).
  all: destruct T as [top ->];
       destruct (C VectorGlobal eq_refl) as [g ->];
       destruct (C VectorMentions eq_refl) as [m ->];
       destruct (C VectorOther eq_refl) as [o ->];
       destruct G as [t ->]; eexists; reflexivity.
Qed.

Lemma renderable_refreshedState (w : World) : renderable (refreshedState w).
Proof.
  unfold renderable, refreshedState.
  destruct (_ || _); [right; now left|].
  destruct (prepareRules _); [|right; now left].
  right. right. simpl. split; discriminate.
Qed.

Lemma guarded_renderable (m : Async unit) (label : string) (w : World) :
  endsWithRefresh m ->
  renderable (state (snd (tryCatch m (fun _ => saveFailed label) w))).
Proof.
  intro Hm. unfold tryCatch. specialize (Hm w).
  destruct (m w) as [[[]|e] w1].
  - destruct Hm as [w0 [_ ->]]. rewrite refreshFromServer_eq. simpl.
    apply renderable_refreshedState.
  - simpl. right. now left.
Qed.

(** X23: the state a refresh or a saving method leaves behind can always
    be rendered: after [refreshFromServer], [onRadioChecked],
    [setKeywords] and [onMasterRuleChanged], with any arguments and
    whatever the server rejects, [render] returns an element and does not
    throw. *)
Theorem render_after_saving_never_throws (w : World) :
  (exists e, render (snd (refreshFromServer w)) = Return e)
  /\ (forall row checkedState,
        exists e, render (snd (onRadioChecked row checkedState w)) = Return e)
  /\ (forall keywords originalRules,
        exists e, render (snd (setKeywords keywords originalRules w)) = Return e)
  /\ (forall checked, exists e, render (snd (onMasterRuleChanged checked w)) = Return e).
Proof.
  set (w1 := mkWorld (withPhase Persisting (state w)) (server w) (client w)
               (dialogs w) (errorLog w)).
  split; [|split; [|split]].
  - apply render_renderable. rewrite refreshFromServer_eq. simpl.
    apply renderable_refreshedState.
  - intros row checkedState. apply render_renderable.
    exact (guarded_renderable _ "Error updating push rule:" w1
             (endsWithRefresh_onRadioChecked row checkedState)).
  - intros keywords originalRules. apply render_renderable.
    exact (guarded_renderable _ "Error updating keyword push rules:" w
             (endsWithRefresh_setKeywords keywords originalRules)).
  - intro checked. apply render_renderable.
    exact (guarded_renderable _ "Error updating master push rule:" w1
             (endsWithRefresh_onMasterRuleChanged checked)).
Qed.

(* =============================================================== *)
(** ** The master switch after a refresh *)

Lemma PushRuleKind_eqb_sym (a b : PushRuleKind) :
  PushRuleKind_eqb a b = PushRuleKind_eqb b a.
Proof. now destruct a, b. Qed.

(** What a refresh fetches after an accepted [setPushRuleEnabled], when
    the response lists each kind once. *)
Lemma annotatedRules_enabled (k : PushRuleKind) (id : string) (on : bool) (t : RuleSets) :
  NoDup (map fst t) ->
  annotatedRules
    (setRulesOfKind k
       (updateRule (fun r => mkPushRule (pr_rule_id r) on (pr_actions r) (pr_pattern r))
          id (rulesOfKind k t)) t)
  = map (enabledAs on k id) (annotatedRules t).
Proof.
  unfold annotatedRules.
  induction t as [|[k0 l0] t IH]; intro Hn; [reflexivity|].
  inversion Hn as [|? ? Hk Hn']; subst. simpl.
  destruct (PushRuleKind_eqb k0 k) eqn:E; simpl; rewrite map_app.
  - apply PushRuleKind_eqb_eq in E. subst k0. f_equal.
    + unfold updateRule. rewrite !map_map. apply map_ext. intro r.
      unfold enabledAs, annotate. simpl. rewrite PushRuleKind_eqb_refl. simpl.
      now destruct (pr_rule_id r =? id).
    + clear IH Hn. symmetry. rewrite <- (map_id (flat_map _ t)) at 2.
      apply map_ext_in. intros r Hr. apply in_flat_map in Hr.
      destruct Hr as [[k' l'] [H1 H2]]. simpl in H2. apply in_map_iff in H2.
      destruct H2 as [raw [<- _]]. unfold enabledAs. simpl.
      destruct (PushRuleKind_eqb k' k) eqn:E'; [|reflexivity].
      apply PushRuleKind_eqb_eq in E'. subst k'. exfalso. apply Hk.
      apply in_map_iff. exists (k, l'). auto.
  - f_equal.
    + rewrite map_map. apply map_ext. intro r. unfold enabledAs, annotate. simpl.
      now rewrite E.
    + now apply IH.
Qed.

Lemma find_map_same {A} (p : A -> bool) (g : A -> A) (l : list A) :
  (forall x, p (g x) = p x) -> find p (map g l) = option_map g (find p l).
Proof.
  intro H. induction l as [|x l IH]; [reflexivity|].
  simpl. rewrite H. now destruct (p x).
Qed.

Lemma prepareRules_master (global : RuleSets) (p : PreparedState) :
  prepareRules global = Return p ->
  find (fun r => rule_id r =? RuleId.Master) (annotatedRules global)
  = Some (new_masterPushRule p).
Proof.
  rewrite find_filter_head, <- master_collect. unfold prepareRules.
  destruct (master (collectDefaultRules global)) as [|m ms]; [discriminate|].
  destruct (prepareCategory _ _ VectorGlobal); [|discriminate].
  destruct (prepareCategory _ _ VectorMentions); [|discriminate].
  destruct (prepareCategory _ _ VectorOther); [|discriminate].
  intro H. inversion H. reflexivity.
Qed.

(** X27: the master switch shows what was chosen.  When the master rule of
    the state is the one the server holds (its first rule with the master
    id) and the response lists each kind once, then, if
    [onMasterRuleChanged] ends in the Ready phase, the master rule of the
    new state has [enabled = !checked]: the component is inhibited exactly
    when the switch was unchecked. *)
Theorem onMasterRuleChanged_then_refresh_shows_the_choice
    (checked : bool) (m : IAnnotatedPushRule) (w : World) :
  masterPushRule (state w) = Some m ->
  find (fun r => rule_id r =? RuleId.Master) (annotatedRules (pushRules (server w)))
  = Some m ->
  NoDup (map fst (pushRules (server w))) ->
  let w' := snd (onMasterRuleChanged checked w) in
  phase (state w') = Ready ->
  masterPushRule (state w') = Some (mkRule (rule_id m) (kind m) (negb checked)
                                      (actions m) (pattern m))
  /\ isInhibited (state w') = negb checked.
Proof.
  intros Hm Hfirst Hn w'.
  set (w1 := mkWorld (withPhase Persisting (state w)) (server w) (client w)
               (dialogs w) (errorLog w)).
  set (toggle := SetPushRuleEnabled "global" (kind m) (rule_id m) (negb checked)).
  assert (E : onMasterRuleChanged checked w
              = tryCatch (issue [toggle] ;;; refreshFromServer)
                  (fun _ => saveFailed "Error updating master push rule:") w1).
  { unfold onMasterRuleChanged, tryCatch. unfold bind at 1. unfold setState at 1.
    fold w1. unfold bind at 1. unfold getState at 1. simpl fst. simpl snd.
    change (state w1) with (withPhase Persisting (state w)).
    change (masterPushRule (withPhase Persisting (state w)))
      with (masterPushRule (state w)).
    rewrite Hm. fold toggle.
    assert (B : (await toggle ;;; refreshFromServer) w1
                = (issue [toggle] ;;; refreshFromServer) w1)
      by (apply bind_issue; [now rewrite issue_one|reflexivity]).
    rewrite B. reflexivity. }
  subst w'. rewrite E. clear E. unfold tryCatch, bind. rewrite issue_cons.
  change (server w1) with (server w).
  destruct (handle toggle (server w)) as [s1|] eqn:H; [|discriminate].
  rewrite issue_nil. rewrite refreshFromServer_eq. simpl.
  unfold refreshedState.
  destruct (_ || _); [discriminate|].
  change (server (withServer s1 w1)) with s1.
  destruct (prepareRules (pushRules s1)) as [p|e] eqn:P; [|discriminate].
  intros _. simpl.
  apply prepareRules_master in P.
  pose proof (handle_Some _ _ _ H) as [_ [A _]].
  subst toggle. simpl in A.
  destruct (hasRule (rule_id m) (rulesOfKind (kind m) (pushRules (server w))));
    [|discriminate].
  inversion A as [A']. rewrite <- A' in P.
  rewrite annotatedRules_enabled in P by exact Hn.
  rewrite find_map_same in P.
  - rewrite Hfirst in P. simpl in P. unfold enabledAs in P.
    rewrite PushRuleKind_eqb_refl, String.eqb_refl in P. simpl in P.
    inversion P as [P']. unfold isInhibited. simpl. rewrite <- P'.
    split; reflexivity.
  - intro x. unfold enabledAs.
    now destruct (PushRuleKind_eqb (kind x) (kind m) && (rule_id x =? rule_id m)).
Qed.

End Component.

(* ================================================================= *)
(** ** The properties on the example data *)

(** The message rule is synced with the encrypted-message rule, which has
    two actions: the definition of the message rule reads it as Loud, its
    own definition as On. *)
Lemma maximumVectorState_uses_parent_definition_witness :
  syncedRuleIds Examples.messageDefinition
  = Some [RuleId.EncryptedMessage; ".m.rule.absent"]
  /\ [RuleId.EncryptedMessage; ".m.rule.absent"] <> []
  /\ maximumVectorState Examples.defaultRules Examples.message Examples.messageDefinition
     = Some Loud.
Proof.
  split; [reflexivity|]. split; [discriminate|].
  exact (maximumVectorState_uses_parent_definition
           Examples.defaultRules Examples.message Examples.messageDefinition
           [RuleId.EncryptedMessage; ".m.rule.absent"]
           eq_refl ltac:(discriminate)).
Defined.

(** The sibling is found in the rule table and its own definition gives On,
    yet the display state is Loud, the state the parent's definition gives
    it: the sibling's own definition is not consulted. *)
Lemma sibling_state_not_from_own_definition :
  findInDefaultRules RuleId.EncryptedMessage Examples.defaultRules
  = Some Examples.encrypted
  /\ Examples.definitions RuleId.EncryptedMessage = Some Examples.encryptedDefinition
  /\ ruleToVectorState Examples.encryptedDefinition Examples.encrypted = On
  /\ ruleToVectorState Examples.messageDefinition Examples.encrypted = Loud
  /\ maximumVectorState Examples.defaultRules Examples.message Examples.messageDefinition
     = Some Loud
  /\ maximumVectorState_ownDefinition Examples.definitions Examples.defaultRules
       Examples.message Examples.messageDefinition
     = Some On
  /\ maximumVectorState Examples.defaultRules Examples.message Examples.messageDefinition
     <> maximumVectorState_ownDefinition Examples.definitions Examples.defaultRules
          Examples.message Examples.messageDefinition.
Proof. repeat split; try reflexivity. discriminate. Qed.

(** The message rule is On and its encrypted sibling, with two actions, is
    Loud for the definition of the message rule: the display state is
    Loud. *)
Lemma maximumVectorState_is_loudest_witness :
  syncedRuleIds Examples.messageDefinition
  = Some [RuleId.EncryptedMessage; ".m.rule.absent"]
  /\ [RuleId.EncryptedMessage; ".m.rule.absent"] <> []
  /\ ruleToVectorState Examples.messageDefinition Examples.message = On
  /\ ruleToVectorState Examples.messageDefinition Examples.encrypted = Loud
  /\ exists v,
       maximumVectorState Examples.defaultRules Examples.message
         Examples.messageDefinition = Some v
       /\ specOrder_leb On v = true
       /\ specOrder_leb Loud v = true
       /\ v = Loud.
Proof.
  split; [reflexivity|]. split; [discriminate|].
  split; [reflexivity|]. split; [reflexivity|].
  destruct (maximumVectorState_is_loudest
              Examples.defaultRules Examples.message Examples.messageDefinition
              [RuleId.EncryptedMessage; ".m.rule.absent"]
              eq_refl ltac:(discriminate)) as [v [H1 [H2 [H3 _]]]].
  pose proof (H3 RuleId.EncryptedMessage Examples.encrypted
                ltac:(now left) eq_refl) as H4.
  exists v. split; [exact H1|]. split; [exact H2|]. split; [exact H4|].
  change (specOrder_leb Loud v = true) in H4.
  destruct v; first [reflexivity | discriminate H4].
Defined.

(** The display state can be below the state a sibling's own definition
    gives it.  The encrypted-message rule has three actions: its own
    definition reads it as Loud, the definition of the message rule as On;
    the message rule is On, and so is the display state, which is not at
    least Loud. *)
Lemma display_state_below_sibling_own_state :
  syncedRuleIds Examples.messageDefinition
  = Some [RuleId.EncryptedMessage; ".m.rule.absent"]
  /\ findInDefaultRules RuleId.EncryptedMessage Examples.defaultRulesLoudSibling
     = Some Examples.loudEncrypted
  /\ Examples.definitions RuleId.EncryptedMessage = Some Examples.encryptedDefinition
  /\ ruleToVectorState Examples.encryptedDefinition Examples.loudEncrypted = Loud
  /\ ruleToVectorState Examples.messageDefinition Examples.loudEncrypted = On
  /\ maximumVectorState Examples.defaultRulesLoudSibling Examples.message
       Examples.messageDefinition
     = Some On
  /\ specOrder_leb
       (ruleToVectorState Examples.encryptedDefinition Examples.loudEncrypted) On
     = false
  /\ ~ (exists v,
          maximumVectorState Examples.defaultRulesLoudSibling Examples.message
            Examples.messageDefinition = Some v
          /\ specOrder_leb
               (ruleToVectorState Examples.encryptedDefinition Examples.loudEncrypted) v
             = true).
Proof.
  repeat (split; [reflexivity|]).
  intros [v [H1 H2]]. vm_compute in H1. inversion H1; subst v. discriminate H2.
Qed.

(** Setting the message row to Loud while the server rejects the third
    request: the message rule is rewritten and enabled, the rewrite of the
    encrypted-message rule is rejected and its enable is never sent. *)
Lemma onRadioChecked_synced_rules_stop_at_first_failure_witness :
  let w := Examples.exampleWorld
             (Examples.exampleState Ready false (Examples.keywordInfo On []))
             (Examples.exampleServer (Examples.ruleSets false []) (Examples.rejectsAt 2))
             [] in
  let w' := snd (onRadioChecked Examples.definitions Examples.actionsFor
                   Examples.parseContentRules Examples.translate
                   Examples.messageRow Loud w) in
  (ruleId Examples.messageRow =? KEYWORD_RULE_ID) = false
  /\ Examples.definitions (ruleId Examples.messageRow) = Some Examples.messageDefinition
  /\ rule Examples.messageRow = Some Examples.message
  /\ received (server w')
     = [ SetPushRuleActions "global" Underride RuleId.Message [Notify; Examples.soundTweak];
         SetPushRuleEnabled "global" Underride RuleId.Message true;
         SetPushRuleActions "global" Underride RuleId.EncryptedMessage
           [Notify; Examples.soundTweak] ]
  /\ storedRule Underride RuleId.Message (pushRules (server w'))
     = Some (mkPushRule RuleId.Message true [Notify; Examples.soundTweak] None)
  /\ phase (state w') = Error
  /\ dialogs w' = ["Error saving notification preferences"].
Proof.
  intros w w'.
  split; [reflexivity|]. split; [reflexivity|]. split; [reflexivity|].
  pose proof (onRadioChecked_synced_rules_stop_at_first_failure
                Examples.definitions Examples.actionsFor Examples.parseContentRules
                Examples.translate Examples.messageRow Loud
                Examples.messageDefinition Examples.message w
                eq_refl eq_refl eq_refl) as H.
  vm_compute in H. destruct H as [H1 [H2 [H3 H4]]].
  split; [exact H1|]. split; [reflexivity|]. split; [exact H3|exact H4].
Defined.

(** Setting the keywords row to Loud from an aggregate Off: "apple" already
    has three actions and is only enabled, "banana" has one and is
    rewritten and then enabled. *)
Lemma onRadioChecked_keywords_rewrites_and_enables_witness :
  let info := Examples.keywordInfo Off
                [ Examples.keywordRule "apple" (Examples.actionsFor Loud);
                  Examples.keywordRule "banana" (Examples.actionsFor On) ] in
  let w := Examples.exampleWorld
             (Examples.exampleState Ready false info)
             (Examples.exampleServer
                (Examples.ruleSets false
                   [ Examples.keywordRule "apple" (Examples.actionsFor Loud);
                     Examples.keywordRule "banana" (Examples.actionsFor On) ])
                Examples.neverRejects)
             [] in
  let plan := [ SetPushRuleEnabled "global" ContentSpecific "apple" true;
                SetPushRuleActions "global" ContentSpecific "banana"
                  (Examples.actionsFor Loud);
                SetPushRuleEnabled "global" ContentSpecific "banana" true ] in
  let w' := snd (onRadioChecked Examples.definitions Examples.actionsFor
                   Examples.parseContentRules Examples.translate
                   Examples.keywordsRadioRow Loud w) in
  (ruleId Examples.keywordsRadioRow =? KEYWORD_RULE_ID) = true
  /\ vectorKeywordRuleInfo (state w) = Some info
  /\ Loud <> Off
  /\ firstRejected plan (server w) = None
  /\ received (server w') = plan ++ [GetPushRules; GetPushers; GetThreePids].
Proof.
  intros info w plan w'.
  split; [reflexivity|]. split; [reflexivity|]. split; [discriminate|].
  split; [reflexivity|].
  exact (proj1 (onRadioChecked_keywords_rewrites_and_enables
                  Examples.definitions Examples.actionsFor Examples.parseContentRules
                  Examples.translate Examples.keywordsRadioRow Loud info w
                  eq_refl eq_refl ltac:(discriminate) eq_refl)).
Defined.

(** Three loud keyword rules set to On while the server rejects the second
    request: the third rewrite is never sent and the first stays applied. *)
Lemma onRadioChecked_keywords_halts_at_first_failure_witness :
  let info := Examples.keywordInfo On Examples.threeLoudKeywords in
  let w := Examples.exampleWorld
             (Examples.exampleState Ready false info)
             (Examples.exampleServer (Examples.ruleSets false Examples.threeLoudKeywords)
                (Examples.rejectsAt 1))
             [] in
  let w' := snd (onRadioChecked Examples.definitions Examples.actionsFor
                   Examples.parseContentRules Examples.translate
                   Examples.keywordsRadioRow On w) in
  (ruleId Examples.keywordsRadioRow =? KEYWORD_RULE_ID) = true
  /\ vectorKeywordRuleInfo (state w) = Some info
  /\ firstRejected (keywordCalls Examples.actionsFor On info) (server w) = Some 1
  /\ received (server w')
     = [ SetPushRuleActions "global" ContentSpecific "apple" [Notify];
         SetPushRuleActions "global" ContentSpecific "banana" [Notify] ]
  /\ storedRule ContentSpecific "apple" (pushRules (server w'))
     = Some (Examples.keywordRule "apple" [Notify])
  /\ storedRule ContentSpecific "banana" (pushRules (server w'))
     = Some (Examples.keywordRule "banana" (Examples.actionsFor Loud))
  /\ phase (state w') = Error
  /\ dialogs w' = ["Error saving notification preferences"].
Proof.
  intros info w w'.
  split; [reflexivity|]. split; [reflexivity|]. split; [reflexivity|].
  pose proof (onRadioChecked_keywords_halts_at_first_failure
                Examples.definitions Examples.actionsFor Examples.parseContentRules
                Examples.translate Examples.keywordsRadioRow On info w 1
                eq_refl eq_refl eq_refl) as H.
  vm_compute in H. destruct H as [H1 [_ [_ [H4 [H5 _]]]]].
  split; [exact H1|]. split; [reflexivity|]. split; [reflexivity|].
  split; [exact H4|exact H5].
Defined.

(** A server whose rules lack the master rule. *)
Lemma refreshRules_without_master_raises_witness :
  let w := Examples.exampleWorld
             (Examples.exampleState Loading false (Examples.keywordInfo On []))
             (Examples.exampleServer
                [(Underride, [Examples.messageRule; Examples.encryptedRule])]
                Examples.neverRejects)
             [] in
  (forall k rs r, In (k, rs) (pushRules (server w)) -> In r rs ->
                  pr_rule_id r <> RuleId.Master)
  /\ fst (refreshRules Examples.definitions Examples.parseContentRules
            Examples.translate w)
     = Throw (Failure "Failed to locate a master push rule")
  /\ phase (state (snd (refreshFromServer Examples.definitions
                          Examples.parseContentRules Examples.translate w)))
     = Error.
Proof.
  intro w.
  assert (H : forall k rs r, In (k, rs) (pushRules (server w)) -> In r rs ->
                             pr_rule_id r <> RuleId.Master).
  { intros k rs r [E|[]] Hr. inversion E; subst k rs.
    destruct Hr as [<-|[<-|[]]]; discriminate. }
  split; [exact H|].
  destruct (refreshRules_without_master_raises
              Examples.definitions Examples.parseContentRules Examples.translate w H)
    as [_ [_ [H3 [_ H5]]]].
  split; [exact (H3 eq_refl)|exact H5].
Defined.

(** Inhibited, with unread notifications in one room. *)
Lemma inhibited_renders_master_switch_and_utility_button_witness :
  let w := Examples.exampleWorld
             (Examples.exampleState Ready true (Examples.keywordInfo On []))
             (Examples.exampleServer (Examples.ruleSets true []) Examples.neverRejects)
             [0%Z; 2%Z] in
  isInhibited (state w) = true
  /\ renderTopSection (state w)
     = Return (LabelledToggleSwitch "notif-master-switch" false false)
  /\ renderCategory Examples.translate (client w) (state w) VectorGlobal = Return None
  /\ renderCategory Examples.translate (client w) (state w) VectorMentions = Return None
  /\ renderTargets Examples.translate (state w) = Return None.
Proof.
  intro w. split; [reflexivity|].
  destruct (inhibited_renders_master_switch_and_utility_button Examples.translate w eq_refl)
    as [H1 [H2 [H3 _]]].
  split; [exact H1|]. split; [exact (H2 VectorGlobal)|].
  split; [exact (H2 VectorMentions)|exact H3].
Defined.

(** While inhibited, the rendered output is not the master switch alone:
    with unread notifications the Other category renders its floating
    section with the "Mark all as read" button. *)
Lemma inhibited_render_is_not_master_switch_alone :
  let w := Examples.exampleWorld
             (Examples.exampleState Ready true (Examples.keywordInfo On []))
             (Examples.exampleServer (Examples.ruleSets true []) Examples.neverRejects)
             [0%Z; 2%Z] in
  isInhibited (state w) = true
  /\ render Examples.translate w
     = Return (UserNotifSettings
                 [ Some (LabelledToggleSwitch "notif-master-switch" false false);
                   None; None;
                   Some (FloatingSection "Other"
                           [AccessibleButton "clear-notifications" "Mark all as read"
                              false]);
                   None ])
  /\ render Examples.translate w
     <> Return (UserNotifSettings [Some (masterSwitch (state w)); None; None; None; None])
  /\ renderCategory Examples.translate (client w) (state w) VectorOther <> Return None.
Proof.
  intro w. split; [reflexivity|]. split; [reflexivity|]. split; discriminate.
Qed.

(** C10 (the code at the failing input): adding the keyword "foo" while
    the aggregate state is Off.  With one existing (disabled) keyword
    rule, and with none, the rule is created
    with the On actions and no disable follows: the stored rule is
    enabled. *)
Theorem setKeywords_off_leaves_new_rule_enabled :
  let apple := Examples.disabledKeywordRule "apple" [Notify] in
  let info := Examples.keywordInfo Off [apple] in
  let w := Examples.exampleWorld
             (Examples.exampleState Persisting false info)
             (Examples.exampleServer (Examples.ruleSets false [apple])
                Examples.neverRejects)
             [] in
  let w' := snd (setKeywords Examples.definitions Examples.actionsFor
                   Examples.contentRuleVectorStateKind Examples.parseContentRules
                   Examples.translate ["apple"; "foo"] (kw_rules info) w) in
  let info0 := Examples.keywordInfo Off [] in
  let w0 := Examples.exampleWorld
              (Examples.exampleState Persisting false info0)
              (Examples.exampleServer (Examples.ruleSets false []) Examples.neverRejects)
              [] in
  let w0' := snd (setKeywords Examples.definitions Examples.actionsFor
                    Examples.contentRuleVectorStateKind Examples.parseContentRules
                    Examples.translate ["foo"] [] w0) in
  let sent := [ AddPushRule "global" ContentSpecific "foo" [Notify] "foo";
                GetPushRules; GetPushers; GetThreePids ] in
  kw_vectorState info = Off
  /\ received (server w') = sent
  /\ storedRule ContentSpecific "foo" (pushRules (server w'))
     = Some (mkPushRule "foo" true [Notify] (Some "foo"))
  /\ storedRule ContentSpecific "apple" (pushRules (server w')) = Some apple
  /\ kw_vectorState info0 = Off
  /\ received (server w0') = sent
  /\ storedRule ContentSpecific "foo" (pushRules (server w0'))
     = Some (mkPushRule "foo" true [Notify] (Some "foo"))
  /\ ~ In (SetPushRuleEnabled "global" ContentSpecific "foo" false) sent.
Proof.
  cbv zeta. repeat (split; [reflexivity|]).
  intros [H|[H|[H|[H|[]]]]]; discriminate.
Qed.

(* ================================================================= *)
(** ** Properties of [findDMForUser] *)

Section FindDMProperties.

Variable env : DM.Env.

Lemma insertByActivity_Permutation (a : DM.Room) (l : list DM.Room) :
  Permutation (DM.insertByActivity a l) (a :: l).
Proof.
  induction l as [|b l IH]; simpl; [apply Permutation_refl|].
  destruct (DM.lastActiveTimestamp b - DM.lastActiveTimestamp a <=? 0)%Z.
  - apply Permutation_refl.
  - rewrite IH. apply perm_swap.
Qed.

Lemma sortByActivity_Permutation (l : list DM.Room) :
  Permutation (DM.sortByActivity l) l.
Proof.
  unfold DM.sortByActivity. induction l as [|a l IH]; simpl; [constructor|].
  rewrite insertByActivity_Permutation. now constructor.
Qed.

Lemma insertByActivity_sorted (a : DM.Room) (l : list DM.Room) :
  StronglySorted (fun x y => (DM.lastActiveTimestamp y <= DM.lastActiveTimestamp x)%Z) l ->
  StronglySorted (fun x y => (DM.lastActiveTimestamp y <= DM.lastActiveTimestamp x)%Z) (DM.insertByActivity a l).
Proof.
  induction 1 as [|b l Hl IH Hb]; simpl.
  - constructor; constructor.
  - destruct (Z.leb_spec (DM.lastActiveTimestamp b - DM.lastActiveTimestamp a) 0).
    + constructor; [now constructor|].
      constructor; [lia|].
      rewrite Forall_forall in *. intros x Hx. specialize (Hb x Hx). lia.
    + constructor; [exact IH|].
      rewrite Forall_forall in *. intros x Hx.
      apply (Permutation_in _ (insertByActivity_Permutation a l)) in Hx.
      destruct Hx as [<-|Hx]; [lia|now apply Hb].
Qed.

Lemma sortByActivity_sorted (l : list DM.Room) :
  StronglySorted (fun x y => (DM.lastActiveTimestamp y <= DM.lastActiveTimestamp x)%Z) (DM.sortByActivity l).
Proof.
  unfold DM.sortByActivity. induction l as [|a l IH]; simpl; [constructor|].
  now apply insertByActivity_sorted.
Qed.

Lemma insertByActivity_stable (k : Z) (a : DM.Room) (l : list DM.Room) :
  filter (fun x => (DM.lastActiveTimestamp x =? k)%Z) (DM.insertByActivity a l)
  = filter (fun x => (DM.lastActiveTimestamp x =? k)%Z) (a :: l).
Proof.
  induction l as [|b l IH]; [reflexivity|].
  simpl DM.insertByActivity.
  destruct (Z.leb_spec (DM.lastActiveTimestamp b - DM.lastActiveTimestamp a) 0); [reflexivity|].
  simpl in *. rewrite IH.
  destruct (Z.eqb_spec (DM.lastActiveTimestamp b) k), (Z.eqb_spec (DM.lastActiveTimestamp a) k);
    try reflexivity. lia.
Qed.

Lemma sortByActivity_stable (k : Z) (l : list DM.Room) :
  filter (fun x => (DM.lastActiveTimestamp x =? k)%Z) (DM.sortByActivity l)
  = filter (fun x => (DM.lastActiveTimestamp x =? k)%Z) l.
Proof.
  unfold DM.sortByActivity. induction l as [|a l IH]; [reflexivity|].
  simpl fold_right. rewrite insertByActivity_stable. simpl. now rewrite IH.
Qed.

Lemma find_filter {A} (p q : A -> bool) (l : list A) :
  find p (filter q l) = find (fun x => q x && p x) l.
Proof.
  induction l as [|x l IH]; [reflexivity|]. simpl.
  destruct (q x); simpl; [now rewrite IH|exact IH].
Qed.

(** The head of the sorted list. *)
Lemma sortByActivity_head (l : list DM.Room) :
  match DM.sortByActivity l with
  | [] => l = []
  | r :: _ =>
      In r l
      /\ (forall x, In x l -> (DM.lastActiveTimestamp x <= DM.lastActiveTimestamp r)%Z)
      /\ find (fun x => (DM.lastActiveTimestamp x =? DM.lastActiveTimestamp r)%Z) l = Some r
  end.
Proof.
  pose proof (sortByActivity_Permutation l) as P.
  pose proof (sortByActivity_sorted l) as S.
  pose proof (fun k => sortByActivity_stable k l) as T.
  destruct (DM.sortByActivity l) as [|r t].
  - now apply Permutation_nil in P.
  - split; [apply (Permutation_in _ P); now left|]. split.
    + intros x Hx. apply (Permutation_in _ (Permutation_sym P)) in Hx.
      inversion S as [|? ? _ Hr]; subst. destruct Hx as [<-|Hx]; [lia|].
      rewrite Forall_forall in Hr. now apply Hr.
    + rewrite find_filter_head, <- (T (DM.lastActiveTimestamp r)).
      cbn [filter]. now rewrite Z.eqb_refl.
Qed.

(** X24: among the rooms it is given, [extractSuitableRoom] returns a
    suitable room that no other suitable room is more recently active
    than; of several suitable rooms with that same timestamp it returns
    the first in the list; and it returns nothing exactly when no room is
    suitable. *)
Theorem extractSuitableRoom_most_recently_active (rooms : list DM.Room) (user : string) :
  match DM.extractSuitableRoom env rooms user with
  | Some r =>
      In r rooms
      /\ DM.suitable env user r = true
      /\ (forall r', In r' rooms -> DM.suitable env user r' = true ->
                     (DM.lastActiveTimestamp r' <= DM.lastActiveTimestamp r)%Z)
      /\ find (fun x => DM.suitable env user x && (DM.lastActiveTimestamp x =? DM.lastActiveTimestamp r)%Z) rooms = Some r
  | None => forall r, In r rooms -> DM.suitable env user r = false
  end.
Proof.
  unfold DM.extractSuitableRoom.
  pose proof (sortByActivity_head (filter (DM.suitable env user) rooms)) as H.
  destruct (DM.sortByActivity (filter (DM.suitable env user) rooms)) as [|r t].
  - intros r Hr. destruct (DM.suitable env user r) eqn:E; [|reflexivity].
    assert (Hin : In r (filter (DM.suitable env user) rooms)) by (apply filter_In; auto).
    rewrite H in Hin. destruct Hin.
  - destruct H as [H1 [H2 H3]]. apply filter_In in H1. destruct H1 as [H1 H1'].
    repeat split; auto.
    + intros r' Hr' Hs. apply H2. apply filter_In. auto.
    + now rewrite <- find_filter.
Qed.

Lemma suitable_true (user : string) (r : DM.Room) :
  DM.suitable env user r = true ->
  DM.myMembership r = "join"
  /\ DM.isLocalRoom env r = false
  /\ ((exists m, In m (DM.joinedMembers env r) /\ DM.userId m = user)
      /\ List.length (DM.joinedMembers env r) = 2
      \/ List.length (DM.joinedMembers env r) = 1
         /\ exists e, DM.thirdPartyInvites r = Some [e]).
Proof.
  unfold DM.suitable.
  destruct (DM.myMembership r =? "join") eqn:M; [|discriminate].
  destruct (DM.isLocalRoom env r); [discriminate|].
  apply String.eqb_eq in M. intro H. split; [exact M|]. split; [reflexivity|].
  destruct (find (fun m => DM.userId m =? user) (DM.joinedMembers env r)) as [m|] eqn:F;
    simpl in H.
  - destruct (List.length (DM.joinedMembers env r) =? 2)%nat eqn:L.
    + left. apply Nat.eqb_eq in L. split; [|exact L].
      apply find_some in F. destruct F as [F1 F2]. exists m.
      split; [exact F1|now apply String.eqb_eq].
    + right. apply andb_true_iff in H. destruct H as [H1 H2].
      apply Nat.eqb_eq in H1. split; [exact H1|].
      destruct (DM.thirdPartyInvites r) as [[|e [|e' l]]|]; try discriminate. eauto.
  - right. apply andb_true_iff in H. destruct H as [H1 H2].
    apply Nat.eqb_eq in H1. split; [exact H1|].
    destruct (DM.thirdPartyInvites r) as [[|e [|e' l]]|]; try discriminate. eauto.
Qed.

(** X25: [findDMForUser] prefers the rooms the DM map lists for the user:
    if one of them is suitable it returns the most recently active
    suitable one of them, whatever the other rooms are; only when none is
    suitable does it return the most recently active suitable room of all
    rooms; and it returns nothing exactly when neither list has a suitable
    room.  The room it returns is one I have joined, is not local, and
    has either exactly two joined members, the user among them, or exactly
    one joined member and one pending third-party invite. *)
Theorem findDMForUser_prefers_the_rooms_of_the_user (user : string) :
  let dmRooms := DM.roomsOf env (DM.getDMRoomsForUserId env user) in
  let allRooms := DM.roomsOf env (DM.getRoomIds env) in
  let mostRecent (rooms : list DM.Room) (r : DM.Room) :=
    In r rooms
    /\ forall r', In r' rooms -> DM.suitable env user r' = true ->
                  (DM.lastActiveTimestamp r' <= DM.lastActiveTimestamp r)%Z in
  match DM.findDMForUser env user with
  | Some r =>
      (mostRecent dmRooms r
       \/ ((forall r', In r' dmRooms -> DM.suitable env user r' = false)
           /\ mostRecent allRooms r))
      /\ DM.myMembership r = "join"
      /\ DM.isLocalRoom env r = false
      /\ ((exists m, In m (DM.joinedMembers env r) /\ DM.userId m = user)
          /\ List.length (DM.joinedMembers env r) = 2
          \/ List.length (DM.joinedMembers env r) = 1
             /\ exists e, DM.thirdPartyInvites r = Some [e])
  | None =>
      forall r, In r dmRooms \/ In r allRooms -> DM.suitable env user r = false
  end.
Proof.
  cbv zeta. unfold DM.findDMForUser.
  pose proof (sortByActivity_head
                (filter (DM.suitable env user) (DM.roomsOf env (DM.getDMRoomsForUserId env user)))) as H1.
  pose proof (sortByActivity_head (filter (DM.suitable env user) (DM.roomsOf env (DM.getRoomIds env)))) as H2.
  unfold DM.extractSuitableRoom.
  destruct (DM.sortByActivity (filter (DM.suitable env user) (DM.roomsOf env (DM.getDMRoomsForUserId env user))))
    as [|r t].
  - assert (N : forall r', In r' (DM.roomsOf env (DM.getDMRoomsForUserId env user)) ->
                           DM.suitable env user r' = false).
    { intros r' Hr'. destruct (DM.suitable env user r') eqn:E; [|reflexivity].
      assert (Hin : In r' (filter (DM.suitable env user) (DM.roomsOf env (DM.getDMRoomsForUserId env user))))
        by (apply filter_In; auto).
      rewrite H1 in Hin. destruct Hin. }
    destruct (DM.sortByActivity (filter (DM.suitable env user) (DM.roomsOf env (DM.getRoomIds env)))) as [|r t].
    + intros r [Hr|Hr]; [now apply N|].
      destruct (DM.suitable env user r) eqn:E; [|reflexivity].
      assert (Hin : In r (filter (DM.suitable env user) (DM.roomsOf env (DM.getRoomIds env))))
        by (apply filter_In; auto).
      rewrite H2 in Hin. destruct Hin.
    + destruct H2 as [A [B _]]. apply filter_In in A. destruct A as [A1 A2].
      split; [|now apply suitable_true].
      right. split; [exact N|]. split; [exact A1|].
      intros r' Hr' Hs. apply B. apply filter_In. auto.
  - destruct H1 as [A [B _]]. apply filter_In in A. destruct A as [A1 A2].
    split; [|now apply suitable_true].
    left. split; [exact A1|].
    intros r' Hr' Hs. apply B. apply filter_In. auto.
Qed.

End FindDMProperties.

(** On the example rooms: the DM map lists three rooms for Bob; the room
    with the bot is the most recently active but has three joined
    members, so the newer of the two others is found.  For Carol the map
    lists nothing and the fallback finds the room with the pending
    invite. *)
Example findDMForUser_examples :
  option_map DM.roomId (DM.findDMForUser DM.exampleEnv "@bob") = Some "!new"
  /\ option_map DM.roomId (DM.findDMForUser DM.exampleEnv "@carol") = Some "!invite".
Proof. split; reflexivity. Qed.

(* ================================================================= *)
(** ** Further properties on the example data *)

(** The two synced ids of the message rule, listed in the other order. *)
Lemma maximumVectorState_order_irrelevant_witness :
  let d := Examples.messageDefinition in
  syncedRuleIds d = Some [RuleId.EncryptedMessage; ".m.rule.absent"]
  /\ Permutation [RuleId.EncryptedMessage; ".m.rule.absent"]
       [".m.rule.absent"; RuleId.EncryptedMessage]
  /\ maximumVectorState Examples.defaultRules Examples.message d
     = maximumVectorState Examples.defaultRules Examples.message
         (mkDefinition (description d) (ruleToVectorState d) (vectorStateToActions d)
            (Some [".m.rule.absent"; RuleId.EncryptedMessage])).
Proof.
  intro d. split; [reflexivity|]. split; [apply perm_swap|].
  exact (maximumVectorState_order_irrelevant Examples.defaultRules Examples.message d
           [RuleId.EncryptedMessage; ".m.rule.absent"]
           [".m.rule.absent"; RuleId.EncryptedMessage]
           eq_refl (perm_swap _ _ _)).
Defined.

(** The message rule is On and its encrypted sibling reads as Loud: the
    display state is Loud. *)
Lemma maximumVectorState_extremes_witness :
  syncedRuleIds Examples.messageDefinition
  = Some [RuleId.EncryptedMessage; ".m.rule.absent"]
  /\ [RuleId.EncryptedMessage; ".m.rule.absent"] <> []
  /\ ruleToVectorState Examples.messageDefinition Examples.message = On
  /\ maximumVectorState Examples.defaultRules Examples.message Examples.messageDefinition
     = Some Loud.
Proof.
  split; [reflexivity|]. split; [discriminate|]. split; [reflexivity|].
  apply (proj1 (maximumVectorState_extremes Examples.defaultRules Examples.message
                  Examples.messageDefinition
                  [RuleId.EncryptedMessage; ".m.rule.absent"]
                  eq_refl ltac:(discriminate))).
  right. exists Examples.encrypted. split; [now left|reflexivity].
Defined.

(** The rows of the example rules: the global category has the rows of the
    two message rules. *)
Lemma prepareRules_rows_witness :
  let global := Examples.ruleSets false Examples.twoKeywords in
  exists n,
    prepareRules Examples.definitions Examples.parseContentRules Examples.translate global
    = Return n
    /\ isVectorCategory VectorGlobal = true
    /\ exists rows,
         new_vectorPushRules n VectorGlobal = Some (rows ++ [])
         /\ Permutation (map ruleId rows) [RuleId.Message; RuleId.EncryptedMessage]
         /\ StronglySorted displayOrdered rows.
Proof.
  intro global.
  destruct (prepareRules Examples.definitions Examples.parseContentRules
              Examples.translate global) as [n|e] eqn:E; [|discriminate E].
  exists n. split; [reflexivity|]. split; [reflexivity|].
  destruct (prepareRules_rows Examples.definitions Examples.parseContentRules
              Examples.translate global n VectorGlobal E eq_refl)
    as [rows [H1 [H2 [H3 _]]]].
  exists rows. split; [exact H1|]. split; [exact H2|exact H3].
Defined.

(** The row of the incoming-call rule, which [Examples.definitions] does
    not list. *)
Lemma onRadioChecked_unsaveable_row_sends_nothing_witness :
  let w := Examples.keywordWorld Ready On [] Examples.neverRejects in
  let result := onRadioChecked Examples.definitions Examples.actionsFor
                  Examples.parseContentRules Examples.translate
                  Examples.callRow Loud w in
  (ruleId Examples.callRow =? KEYWORD_RULE_ID) = false
  /\ Examples.definitions (ruleId Examples.callRow) = None
  /\ fst result = Return tt
  /\ received (server (snd result)) = []
  /\ phase (state (snd result)) = Error
  /\ dialogs (snd result) = ["Error saving notification preferences"].
Proof.
  intros w result. split; [reflexivity|]. split; [reflexivity|].
  destruct (onRadioChecked_unsaveable_row_sends_nothing
              Examples.definitions Examples.actionsFor Examples.parseContentRules
              Examples.translate Examples.callRow Loud w (or_introl eq_refl))
    as [H1 [H2 [H3 H4]]].
  split; [exact H1|]. split; [|split; [exact H3|exact H4]].
  change (server (snd result)) with
    (server (snd (onRadioChecked Examples.definitions Examples.actionsFor
                    Examples.parseContentRules Examples.translate
                    Examples.callRow Loud w))).
  rewrite H2. reflexivity.
Defined.

(** Two keyword rules set to Off: two disables, then the refresh; the
    actions stay and both rules end disabled. *)
Lemma onRadioChecked_keywords_off_only_disables_witness :
  let info := Examples.keywordInfo On Examples.twoKeywords in
  let w := Examples.keywordWorld Ready On Examples.twoKeywords Examples.neverRejects in
  let w' := snd (onRadioChecked Examples.definitions Examples.actionsFor
                   Examples.parseContentRules Examples.translate
                   Examples.keywordsRadioRow Off w) in
  (ruleId Examples.keywordsRadioRow =? KEYWORD_RULE_ID) = true
  /\ vectorKeywordRuleInfo (state w) = Some info
  /\ received (server w')
     = [ SetPushRuleEnabled "global" ContentSpecific "apple" false;
         SetPushRuleEnabled "global" ContentSpecific "banana" false;
         GetPushRules; GetPushers; GetThreePids ]
  /\ storedRule ContentSpecific "banana" (pushRules (server w'))
     = Some (Examples.disabledKeywordRule "banana" [Notify]).
Proof.
  intros info w w'. split; [reflexivity|]. split; [reflexivity|].
  destruct (onRadioChecked_keywords_off_only_disables
              Examples.definitions Examples.actionsFor Examples.parseContentRules
              Examples.translate Examples.keywordsRadioRow info w eq_refl eq_refl)
    as [_ H].
  change (firstRejected _ (server w)) with (@None nat) in H.
  destruct H as [H _]. split; [exact H|reflexivity].
Defined.

(** Two keyword rules with one action each, and the target On. *)
Lemma onRadioChecked_keywords_already_set_witness :
  let info := Examples.keywordInfo On Examples.twoKeywords in
  let w := Examples.keywordWorld Ready On Examples.twoKeywords Examples.neverRejects in
  let w' := snd (onRadioChecked Examples.definitions Examples.actionsFor
                   Examples.parseContentRules Examples.translate
                   Examples.keywordsRadioRow On w) in
  (ruleId Examples.keywordsRadioRow =? KEYWORD_RULE_ID) = true
  /\ vectorKeywordRuleInfo (state w) = Some info
  /\ On <> Off
  /\ kw_vectorState info <> Off
  /\ (forall r, In r (kw_rules info) -> List.length (actions r) = 1)
  /\ received (server w') = [GetPushRules; GetPushers; GetThreePids]
  /\ pushRules (server w') = pushRules (server w).
Proof.
  intros info w w'.
  assert (L : forall r, In r (kw_rules info) -> List.length (actions r) = 1).
  { intros r [<-|[<-|[]]]; reflexivity. }
  split; [reflexivity|]. split; [reflexivity|]. split; [discriminate|].
  split; [discriminate|]. split; [exact L|].
  exact (onRadioChecked_keywords_already_set
           Examples.definitions Examples.actionsFor Examples.parseContentRules
           Examples.translate Examples.keywordsRadioRow On info w
           eq_refl eq_refl ltac:(discriminate) ltac:(discriminate) L).
Defined.

(** The tag list holds the words of the two keyword rules, in the other
    order and with a repetition. *)
Lemma setKeywords_same_words_only_refreshes_witness :
  let info := Examples.keywordInfo On Examples.twoKeywords in
  let w := Examples.keywordWorld Persisting On Examples.twoKeywords
             Examples.neverRejects in
  let keywords := ["banana"; "apple"; "banana"] in
  let w' := snd (setKeywords Examples.definitions Examples.actionsFor
                   Examples.contentRuleVectorStateKind Examples.parseContentRules
                   Examples.translate keywords (kw_rules info) w) in
  vectorKeywordRuleInfo (state w) = Some info
  /\ (forall word, word <> "" ->
                   (In word keywords <-> In (Some word) (map pattern (kw_rules info))))
  /\ received (server w') = [GetPushRules; GetPushers; GetThreePids]
  /\ pushRules (server w') = pushRules (server w).
Proof.
  intros info w keywords w'.
  assert (Same : forall word, word <> "" ->
                (In word keywords <-> In (Some word) (map pattern (kw_rules info)))).
  { intros word _. split.
    - intros [<-|[<-|[<-|[]]]]; simpl; auto.
    - intros [E|[E|[]]]; inversion E; simpl; auto. }
  split; [reflexivity|]. split; [exact Same|].
  exact (setKeywords_same_words_only_refreshes
           Examples.definitions Examples.actionsFor Examples.contentRuleVectorStateKind
           Examples.parseContentRules Examples.translate keywords (kw_rules info) info w
           eq_refl Same).
Defined.

(** The tag "banana" replaced by "cherry" while the server rejects the
    first request: whatever was sent, no request rewrites actions. *)
Lemma setKeywords_sends_only_the_difference_witness :
  let info := Examples.keywordInfo On Examples.twoKeywords in
  let w := Examples.keywordWorld Persisting On Examples.twoKeywords
             (Examples.rejectsAt 0) in
  let w' := snd (setKeywords Examples.definitions Examples.actionsFor
                   Examples.contentRuleVectorStateKind Examples.parseContentRules
                   Examples.translate ["apple"; "cherry"] (kw_rules info) w) in
  vectorKeywordRuleInfo (state w) = Some info
  /\ received (server w') = [DeletePushRule "global" ContentSpecific "banana"]
  /\ forall scope k id acts,
       ~ In (SetPushRuleActions scope k id acts) (received (server w')).
Proof.
  intros info w w'. split; [reflexivity|]. split; [reflexivity|].
  intros scope k id acts Hin.
  destruct (setKeywords_sends_only_the_difference
              Examples.definitions Examples.actionsFor
              Examples.contentRuleVectorStateKind Examples.parseContentRules
              Examples.translate ["apple"; "cherry"] (kw_rules info) info w eq_refl)
    as [sent [H1 H2]].
  fold w' in H1. change (received (server w)) with (@nil Call) in H1.
  rewrite H1 in Hin. exact (H2 _ Hin).
Defined.

(** The tag "banana" replaced by "cherry", nothing rejected: the deletion
    of "banana" and the creation of "cherry" are both sent. *)
Lemma setKeywords_sends_the_whole_difference_witness :
  let info := Examples.keywordInfo On Examples.twoKeywords in
  let w := Examples.keywordWorld Persisting On Examples.twoKeywords
             Examples.neverRejects in
  let keywords := ["apple"; "cherry"] in
  let w' := snd (setKeywords Examples.definitions Examples.actionsFor
                   Examples.contentRuleVectorStateKind Examples.parseContentRules
                   Examples.translate keywords (kw_rules info) w) in
  vectorKeywordRuleInfo (state w) = Some info
  /\ firstRejected (setKeywordsCalls Examples.actionsFor
                      Examples.contentRuleVectorStateKind info keywords (kw_rules info))
       (server w) = None
  /\ exists deletions creations,
       received (server w')
       = deletions ++ creations ++ [GetPushRules; GetPushers; GetThreePids]
       /\ In (DeletePushRule "global" ContentSpecific "banana") deletions
       /\ In (AddPushRule "global" ContentSpecific "cherry" [Notify] "cherry") creations.
Proof.
  intros info w keywords w'. split; [reflexivity|]. split; [reflexivity|].
  destruct (setKeywords_sends_the_whole_difference
              Examples.definitions Examples.actionsFor
              Examples.contentRuleVectorStateKind Examples.parseContentRules
              Examples.translate keywords (kw_rules info) info w eq_refl eq_refl)
    as [deletions [creations [H1 [_ [_ [H4 H5]]]]]].
  exists deletions, creations. split; [exact H1|]. split.
  - apply (H4 (annotate (Examples.keywordRule "banana" [Notify]) ContentSpecific)
              "banana").
    + right. now left.
    + reflexivity.
    + discriminate.
    + intros [E|[E|[]]]; discriminate E.
  - apply (H5 "cherry").
    + right. now left.
    + discriminate.
    + intros [E|[E|[]]]; discriminate E.
Defined.

(** Three new tags while the server rejects the second request: the third
    creation is never sent and the first stays applied. *)
Lemma setKeywords_halts_at_first_failure_witness :
  let info := Examples.keywordInfo On [] in
  let w := Examples.keywordWorld Persisting On [] (Examples.rejectsAt 1) in
  let keywords := ["apple"; "banana"; "cherry"] in
  let w' := snd (setKeywords Examples.definitions Examples.actionsFor
                   Examples.contentRuleVectorStateKind Examples.parseContentRules
                   Examples.translate keywords [] w) in
  vectorKeywordRuleInfo (state w) = Some info
  /\ firstRejected (setKeywordsCalls Examples.actionsFor
                      Examples.contentRuleVectorStateKind info keywords [])
       (server w) = Some 1
  /\ received (server w')
     = [ AddPushRule "global" ContentSpecific "apple" [Notify] "apple";
         AddPushRule "global" ContentSpecific "banana" [Notify] "banana" ]
  /\ storedRule ContentSpecific "apple" (pushRules (server w'))
     = Some (Examples.keywordRule "apple" [Notify])
  /\ storedRule ContentSpecific "banana" (pushRules (server w')) = None
  /\ phase (state w') = Error
  /\ dialogs w' = ["Error saving notification preferences"].
Proof.
  intros info w keywords w'. split; [reflexivity|]. split; [reflexivity|].
  destruct (setKeywords_halts_at_first_failure
              Examples.definitions Examples.actionsFor
              Examples.contentRuleVectorStateKind Examples.parseContentRules
              Examples.translate keywords [] info w 1 eq_refl eq_refl)
    as [H1 [_ [H3 H4]]].
  split; [exact H1|]. split; [reflexivity|]. split; [reflexivity|].
  split; [exact H3|exact H4].
Defined.

(** Removing the tag "banana". *)
Lemma onKeywordRemove_deletes_the_rules_of_the_keyword_witness :
  let info := Examples.keywordInfo On Examples.twoKeywords in
  let w := Examples.keywordWorld Ready On Examples.twoKeywords Examples.neverRejects in
  let w' := snd (onKeywordRemove Examples.definitions Examples.actionsFor
                   Examples.contentRuleVectorStateKind Examples.parseContentRules
                   Examples.translate "banana" w) in
  vectorKeywordRuleInfo (state w) = Some info
  /\ received (server w')
     = [ DeletePushRule "global" ContentSpecific "banana";
         GetPushRules; GetPushers; GetThreePids ].
Proof.
  intros info w w'. split; [reflexivity|].
  exact (onKeywordRemove_deletes_the_rules_of_the_keyword
           Examples.definitions Examples.actionsFor
           Examples.contentRuleVectorStateKind Examples.parseContentRules
           Examples.translate "banana" info w eq_refl).
Defined.

(** Adding the tag "cherry" while the server rejects the creation. *)
Lemma onKeywordAdd_creates_the_rule_of_the_keyword_witness :
  let info := Examples.keywordInfo On Examples.twoKeywords in
  let w := Examples.keywordWorld Ready On Examples.twoKeywords (Examples.rejectsAt 0) in
  let w' := snd (onKeywordAdd Examples.definitions Examples.actionsFor
                   Examples.contentRuleVectorStateKind Examples.parseContentRules
                   Examples.translate Examples.keywordOnly "cherry" w) in
  pattern (Examples.keywordOnly "cherry") = Some "cherry"
  /\ vectorKeywordRuleInfo (state w) = Some info
  /\ received (server w')
     = [AddPushRule "global" ContentSpecific "cherry" [Notify] "cherry"]
  /\ phase (state w') = Error
  /\ dialogs w' = ["Error saving notification preferences"].
Proof.
  intros info w w'. split; [reflexivity|]. split; [reflexivity|].
  exact (onKeywordAdd_creates_the_rule_of_the_keyword
           Examples.definitions Examples.actionsFor
           Examples.contentRuleVectorStateKind Examples.parseContentRules
           Examples.translate Examples.keywordOnly "cherry" info w eq_refl eq_refl).
Defined.

(** The row of the message rule shows Loud, the state of its encrypted
    sibling, and not On, the state of the rule itself. *)
Lemma row_checks_the_loudest_state_witness :
  let st := Examples.exampleState Ready false (Examples.keywordInfo On []) in
  exists row,
    Examples.definitions (rule_id Examples.message) = Some Examples.messageDefinition
    /\ describeRule Examples.definitions Examples.translate Examples.defaultRules
         Examples.message = Return row
    /\ makeRadio st row Loud = StyledRadioButton RuleId.Message Loud true false
    /\ makeRadio st row On = StyledRadioButton RuleId.Message On false false.
Proof.
  intro st.
  destruct (describeRule Examples.definitions Examples.translate Examples.defaultRules
              Examples.message) as [row|e] eqn:E; [|discriminate E].
  exists row. split; [reflexivity|]. split; [reflexivity|].
  pose proof (row_checks_the_loudest_state
                Examples.definitions Examples.translate Examples.defaultRules
                Examples.message Examples.messageDefinition row st) as H.
  split.
  - destruct (H Loud eq_refl E) as [checked [H1 H2]].
    rewrite H1, (proj2 H2 eq_refl). reflexivity.
  - destruct (H On eq_refl E) as [checked [H1 H2]].
    rewrite H1. destruct checked; [|reflexivity].
    discriminate (proj1 H2 eq_refl).
Defined.

(** While a change is being saved, every control of the example view is
    disabled. *)
Lemma render_disables_controls_while_persisting_witness :
  let w := Examples.keywordWorld Persisting On Examples.twoKeywords
             Examples.neverRejects in
  exists e,
    render Examples.translate w = Return e
    /\ disabledControls e <> []
    /\ Forall (fun disabled => disabled = true) (disabledControls e).
Proof.
  intro w.
  destruct (render Examples.translate w) as [e|x] eqn:E; [|discriminate E].
  exists e. split; [reflexivity|]. split.
  - injection E as <-. discriminate.
  - exact (render_disables_controls_while_persisting Examples.translate w e E).
Defined.

(** Unchecking the master switch of the example view: after the refresh
    the component is inhibited. *)
Lemma onMasterRuleChanged_then_refresh_shows_the_choice_witness :
  let w := Examples.keywordWorld Ready On Examples.twoKeywords Examples.neverRejects in
  let m := annotate (Examples.masterRule false) Override in
  let w' := snd (onMasterRuleChanged Examples.definitions Examples.parseContentRules
                   Examples.translate false w) in
  masterPushRule (state w) = Some m
  /\ find (fun r => rule_id r =? RuleId.Master) (annotatedRules (pushRules (server w)))
     = Some m
  /\ NoDup (map fst (pushRules (server w)))
  /\ phase (state w') = Ready
  /\ isInhibited (state w) = false
  /\ isInhibited (state w') = true.
Proof.
  intros w m w'.
  assert (N : NoDup (map fst (pushRules (server w)))).
  { repeat constructor; simpl; intuition discriminate. }
  split; [reflexivity|]. split; [reflexivity|]. split; [exact N|].
  split; [reflexivity|]. split; [reflexivity|].
  exact (proj2 (onMasterRuleChanged_then_refresh_shows_the_choice
                  Examples.definitions Examples.parseContentRules Examples.translate
                  false m w eq_refl eq_refl N eq_refl)).
Defined.
